(** * COIL codec: a Rocq model of [enc.py] and [dec.py]

    The encoder turns a list of flat records into a META/BODY pair of
    strings, the decoder parses the pair back.  This file embeds both as
    Rocq functions and states the properties of the codec over them.

    Conventions of the embedding.
    - A Python [str] is a [string]; a character is a code point below 256
      (the Latin-1 range), and the character classes below are Python's on
      that range.
    - A Python [int] is a [Z]; [len] is [String.length] or [List.length].
    - A Python [dict] keeps insertion order, and the encoder's output
      depends on it, so a dict is an association list in insertion order
      ([dict_set] overwrites in place or appends); a well-formed dict has
      no repeated key.
    - A JSON value is a [json]; floats are left out, and [str] of a
      list or a dict (Python's [repr]) is a parameter of the encoder.
    - [raise] is the constructor [Raise] of [result].
    - The cost oracle is the module state [_TIKTOKEN], [_ENC] of
      [enc.py], a parameter of the encoder: a statement about the
      encoder holds for every tokenizer, and for none.

    The file has the Python primitives ([Py]), JSON ([Json]), the
    encoder ([Enc]) and the decoder ([Dec]); then the vocabulary of the
    statements; then the properties, each claim under its number. *)

From Stdlib Require Import String Ascii List Bool Arith ZArith Lia.
From Stdlib Require Import DecimalString DecimalNat DecimalZ.
From Stdlib Require QArith Qround.
From Stdlib Require Import Sorting.Sorted Permutation OrderedTypeEx.
Import ListNotations.

Local Open Scope list_scope.
Local Open Scope string_scope.

(** ** Python primitives *)

Module Py.

(** *** Exceptions *)

Inductive exn : Type :=
| ValueError (msg : string)
| AttributeError.

Inductive result (A : Type) : Type :=
| Ok (a : A)
| Raise (e : exn).
Arguments Ok {A} a.
Arguments Raise {A} e.

Definition bind {A B} (r : result A) (k : A -> result B) : result B :=
  match r with
  | Ok a => k a
  | Raise e => Raise e
  end.

Definition raised {A} (r : result A) : bool :=
  match r with
  | Ok _ => false
  | Raise _ => true
  end.

(** *** Characters (code points 0..255) *)

Definition code (c : ascii) : nat := nat_of_ascii c.

Definition between (lo hi n : nat) : bool := (lo <=? n)%nat && (n <=? hi)%nat.

(** [\d] of [re] on a [str] pattern. *)
Definition is_digit (c : ascii) : bool := between 48 57 (code c).

(** [\w] of [re] on a [str] pattern: alphanumeric or underscore. *)
Definition is_word (c : ascii) : bool :=
  let n := code c in
  between 48 57 n || between 65 90 n || (Nat.eqb n 95) || between 97 122 n
  || (Nat.eqb n 170) || between 178 179 n || (Nat.eqb n 181) || between 185 186 n
  || between 188 190 n || between 192 214 n || between 216 246 n
  || between 248 255 n.

(** [str.isspace] on one character. *)
Definition is_space (c : ascii) : bool :=
  let n := code c in
  between 9 13 n || between 28 32 n || (Nat.eqb n 133) || (Nat.eqb n 160).

(** [str.lower] on one character. *)
Definition lower_char (c : ascii) : ascii :=
  let n := code c in
  if between 65 90 n || (between 192 222 n && negb (Nat.eqb n 215))
  then ascii_of_nat (n + 32)
  else c.

Definition newline : ascii := "010"%char.
Definition dquote : ascii := "034"%char.

(** *** Strings *)

Fixpoint map_str (f : ascii -> ascii) (s : string) : string :=
  match s with
  | EmptyString => EmptyString
  | String c r => String (f c) (map_str f r)
  end.

(** [s.lower()] *)
Definition lower (s : string) : string := map_str lower_char s.

(** [c in s] for a one-character [c]. *)
Fixpoint contains (c : ascii) (s : string) : bool :=
  match s with
  | EmptyString => false
  | String d r => Ascii.eqb d c || contains c r
  end.

(** [s.startswith(p)] *)
Definition startswith (s p : string) : bool := String.prefix p s.

(** [s[n:]] *)
Fixpoint drop (n : nat) (s : string) : string :=
  match n, s with
  | O, _ => s
  | S _, EmptyString => EmptyString
  | S m, String _ r => drop m r
  end.

(** [s.replace(old, new)] for a one-character [old]. *)
Fixpoint replace (old : ascii) (new : string) (s : string) : string :=
  match s with
  | EmptyString => EmptyString
  | String c r =>
      if Ascii.eqb c old then new ++ replace old new r
      else String c (replace old new r)
  end.

(** [s.split(sep)] for a one-character [sep]: never the empty list. *)
Fixpoint split (sep : ascii) (s : string) : list string :=
  match s with
  | EmptyString => [EmptyString]
  | String c r =>
      if Ascii.eqb c sep then EmptyString :: split sep r
      else match split sep r with
           | [] => [String c EmptyString]
           | h :: t => String c h :: t
           end
  end.

(** [s.split(sep, 1)] under the guard [sep in s] the sources always put
    before it: the text before and after the first [sep]. *)
Fixpoint split1 (sep : ascii) (s : string) : option (string * string) :=
  match s with
  | EmptyString => None
  | String c r =>
      if Ascii.eqb c sep then Some (EmptyString, r)
      else match split1 sep r with
           | Some (a, b) => Some (String c a, b)
           | None => None
           end
  end.

(** [sep.join(l)] *)
Definition join (sep : string) (l : list string) : string :=
  String.concat sep l.

Fixpoint lstrip (s : string) : string :=
  match s with
  | EmptyString => EmptyString
  | String c r => if is_space c then lstrip r else s
  end.

Fixpoint rstrip (s : string) : string :=
  match s with
  | EmptyString => EmptyString
  | String c r =>
      match rstrip r with
      | EmptyString => if is_space c then EmptyString else String c EmptyString
      | r' => String c r'
      end
  end.

(** [s.strip()] *)
Definition strip (s : string) : string := rstrip (lstrip s).

(** [str(n)] for a natural number and for an integer. *)
Definition str_nat (n : nat) : string :=
  NilEmpty.string_of_uint (Nat.to_uint n).

Definition str_int (z : Z) : string :=
  NilZero.string_of_int (Z.to_int z).

Definition len (s : string) : Z := Z.of_nat (String.length s).

(** *** Dictionaries, in insertion order *)

Definition dict (V : Type) : Type := list (string * V).

Fixpoint dict_find {V} (d : dict V) (k : string) : option V :=
  match d with
  | [] => None
  | (k', v) :: r => if String.eqb k' k then Some v else dict_find r k
  end.

(** [k in d] *)
Definition dict_in {V} (d : dict V) (k : string) : bool :=
  match dict_find d k with
  | Some _ => true
  | None => false
  end.

(** [d.get(k, default)] *)
Definition dict_get {V} (d : dict V) (k : string) (default : V) : V :=
  match dict_find d k with
  | Some v => v
  | None => default
  end.

(** [d[k] = v] *)
Fixpoint dict_set {V} (d : dict V) (k : string) (v : V) : dict V :=
  match d with
  | [] => [(k, v)]
  | (k', v') :: r =>
      if String.eqb k' k then (k', v) :: r
      else (k', v') :: dict_set r k v
  end.

Definition keys {V} (d : dict V) : list string := map fst d.
Definition values {V} (d : dict V) : list V := map snd d.

(** *** Sets of strings

    A Python [set] iterates in an order the language leaves open; the
    model fixes one (first occurrences), and the one use of it is
    followed by [sorted]. *)

Definition mem (x : string) (l : list string) : bool :=
  existsb (String.eqb x) l.

Definition set_add (x : string) (s : list string) : list string :=
  if mem x s then s else (s ++ [x])%list.

Definition set_of (l : list string) : list string :=
  fold_left (fun s x => set_add x s) l [].

(** *** Stable sorting

    [sorted] and [list.sort] are stable; [before y x] says that [y]
    has to come strictly before [x].  An element goes in front of the
    first one that need not come before it, so equal elements keep
    their order. *)

Section Sort.
Context {A : Type} (before : A -> A -> bool).

Fixpoint insert (x : A) (l : list A) : list A :=
  match l with
  | [] => [x]
  | y :: r => if before y x then y :: insert x r else x :: l
  end.

Definition stable_sort (l : list A) : list A :=
  fold_right insert [] l.
End Sort.

(** [sorted(l)] on strings: by code point, lexicographically. *)
Definition sorted (l : list string) : list string :=
  stable_sort String.ltb l.

End Py.

(** ** JSON values and [json.dumps] *)

Module Json.
Import Py.

#[local] Set Warnings "-register-all".
Inductive json : Type :=
| JNull
| JBool (b : bool)
| JInt (z : Z)
| JStr (s : string)
| JList (l : list json)
| JDict (d : list (string * json)).

Definition hex_digit (n : nat) : ascii :=
  if (n <? 10)%nat then ascii_of_nat (48 + n) else ascii_of_nat (87 + n).

(** One character inside a JSON string, as [json.dumps] writes it with
    [ensure_ascii=False]: the quote, the backslash and the control
    characters are escaped, everything else is kept. *)
Definition escape_char (c : ascii) : string :=
  let n := code c in
  if Nat.eqb n 34 then "\" ++ String dquote ""
  else if Nat.eqb n 92 then "\\"
  else if Nat.eqb n 10 then "\n"
  else if Nat.eqb n 13 then "\r"
  else if Nat.eqb n 9 then "\t"
  else if Nat.eqb n 8 then "\b"
  else if Nat.eqb n 12 then "\f"
  else if (n <? 32)%nat
       then "\u00" ++ String (hex_digit (n / 16)) (String (hex_digit (n mod 16)) "")
       else String c "".

Fixpoint escape (s : string) : string :=
  match s with
  | EmptyString => EmptyString
  | String c r => escape_char c ++ escape r
  end.

Definition quote (s : string) : string :=
  String dquote (escape s) ++ String dquote "".

(** [json.dumps(v, ensure_ascii=False)], with the default separators. *)
Fixpoint dumps (v : json) : string :=
  match v with
  | JNull => "null"
  | JBool true => "true"
  | JBool false => "false"
  | JInt z => str_int z
  | JStr s => quote s
  | JList l => "[" ++ join ", " (map dumps l) ++ "]"
  | JDict d =>
      "{" ++ join ", " (map (fun kv => match kv with
                                      | (k, x) => quote k ++ ": " ++ dumps x
                                      end) d) ++ "}"
  end.

End Json.

(** ** The encoder, [enc.py] *)

Module Enc.
Import Py Json.

Definition ESCAPE_CHAR : ascii := "\"%char.
Definition PAIR_SEP : ascii := ","%char.
Definition RECORD_SEP : ascii := "|"%char.

(** A one-character string. *)
Definition chr (c : ascii) : string := String c EmptyString.

(** [_escape_val]: four replacements in a row, the escape character
    first. *)
Definition _escape_val (v : string) : string :=
  replace ","%char (String ESCAPE_CHAR ",")
    (replace "|"%char (String ESCAPE_CHAR "|")
       (replace ":"%char (String ESCAPE_CHAR ":")
          (replace ESCAPE_CHAR (String ESCAPE_CHAR (chr ESCAPE_CHAR)) v))).

(** [_unescape_val]: the index loop reads one character, or two when
    the first is the escape character and another one follows. *)
Fixpoint _unescape_val (v : string) : string :=
  match v with
  | EmptyString => EmptyString
  | String c r =>
      if Ascii.eqb c ESCAPE_CHAR
      then match r with
           | EmptyString => String c EmptyString
           | String d r' => String d (_unescape_val r')
           end
      else String c (_unescape_val r)
  end.

(** [_flatten_records] *)
Definition _flatten_records (records : json) : result (list json) :=
  match records with
  | JList l => Ok l
  | JDict [(_, JList l)] => Ok l
  | _ => Raise (ValueError
      "Unsupported sensordata format; expected list of dicts or a single-key dict -> list")
  end.

(** *** Whole-word search

    [re.search(r'\b' + re.escape(lit) + r'\b', text)]: the escaped
    literal matches itself, and [\b] holds at a position whose two
    neighbours differ in being word characters, the ends of the text
    counting as non-word. *)

Definition wordb (c : option ascii) : bool :=
  match c with
  | Some a => is_word a
  | None => false
  end.

Definition boundary (before after : option ascii) : bool :=
  xorb (wordb before) (wordb after).

Definition head (s : string) : option ascii :=
  match s with
  | EmptyString => None
  | String c _ => Some c
  end.

(** The last character of [s], or [prev] when [s] is empty. *)
Fixpoint last_or (prev : option ascii) (s : string) : option ascii :=
  match s with
  | EmptyString => prev
  | String c r => last_or (Some c) r
  end.

(** A match of [\b lit \b] starting right here, [prev] being the
    character before. *)
Definition match_here (prev : option ascii) (lit text : string) : bool :=
  String.prefix lit text
  && boundary prev (head text)
  && boundary (last_or prev lit) (head (drop (String.length lit) text)).

Fixpoint search_from (prev : option ascii) (lit text : string) : bool :=
  match_here prev lit text
  || match text with
     | EmptyString => false
     | String c r => search_from (Some c) lit r
     end.

Definition re_search_word (lit text : string) : bool :=
  search_from None lit text.

(** [_word_collision].  The handler of [re.error] is dead code: an
    escaped literal between two [\b] always compiles. *)
Definition _word_collision (token payload_text : string) : bool :=
  match token with
  | EmptyString => false
  | _ => re_search_word (lower token) payload_text
  end.

(** The suffix loops of [_propose_value_tokens] and [encode]:
    [n = 1; cand = tok + str(n); while bad(cand): n += 1; ...].
    The loop is run for at most [fuel] tests, and what it returns had
    only failing candidates before it ([next_free_form]).  The callers'
    fuel is never used up: the token returned for a proposal passes
    the test ([fresh_token_good]), and in the greedy loop of [encode]
    the suffix loop is not entered at all ([try_candidate_inv]). *)
Fixpoint next_free (bad : string -> bool) (tok : string) (fuel n : nat)
  : string :=
  let cand := tok ++ str_nat n in
  match fuel with
  | O => cand
  | S f => if bad cand then next_free bad tok f (S n) else cand
  end.

Definition fresh_token (bad : string -> bool) (fuel : nat) (tok : string)
  : string :=
  if bad tok then next_free bad tok fuel 1 else tok.

(** [Counter(l)]: the counts, keyed in order of first occurrence. *)
Definition Counter (l : list string) : dict Z :=
  fold_left (fun cnt v => dict_set cnt v (dict_get cnt v 0 + 1)%Z) l [].

Section Encoder.

(** [str] of a list or a dict is Python's [repr], not modelled. *)
Variable repr_container : json -> string.

(** The module-level tokenizer state of [enc.py]. *)
Variable _TIKTOKEN : bool.
Variable _ENC : option (string -> list Z).

(** [str(v)] *)
Definition py_str (v : json) : string :=
  match v with
  | JNull => "None"
  | JBool true => "True"
  | JBool false => "False"
  | JInt z => str_int z
  | JStr s => s
  | _ => repr_container v
  end.

(** [_token_count] *)
Definition _token_count (text : string) : Z :=
  match _TIKTOKEN, _ENC with
  | true, Some enc => Z.of_nat (List.length (enc text))
  | _, _ => Z.max 1 ((len text + 3) / 4)
  end.

(** One cell of a row: [v = r.get(k, ''); if v is None: v = '';
    vs = str(v)], then the token of [vs] or its escaped text. *)
Definition cell (long_to_token : dict string) (r : dict json)
           (k : string) : string :=
  let v := dict_get r k (JStr "") in
  let v := match v with JNull => JStr "" | _ => v end in
  let vs := py_str v in
  match dict_find long_to_token vs with
  | Some tok => tok
  | None => _escape_val vs
  end.

(** [f"sensordata[{len(records)}]{{{','.join(key_order)}}}"] *)
Definition header (records : list (dict json)) (key_order : list string)
  : string :=
  "sensordata[" ++ str_nat (List.length records) ++ "]{"
    ++ join "," key_order ++ "}".

(** [_build_positional_body] *)
Definition _build_positional_body (records : list (dict json))
           (key_order : list string) (long_to_token : dict string)
  : string :=
  let rows :=
    map (fun r => join (chr PAIR_SEP)
                    (map (cell long_to_token r) key_order)) records in
  join (chr RECORD_SEP) (header records key_order :: rows).

(** The legacy body, written out three times in [encode] (the first
    time without a table, which is the empty table here). *)
Definition build_legacy_body (records : list (dict json))
           (key_order : list string) (long_to_token : dict string)
  : string :=
  let rows :=
    map (fun r => join (chr PAIR_SEP)
                    (map (fun k => k ++ ":" ++ cell long_to_token r k)
                         key_order)) records in
  join (chr RECORD_SEP) (header records key_order :: rows).

Definition build_body (compact : bool) :=
  if compact then _build_positional_body else build_legacy_body.

(** The first declaration of Meta: [ORDER=...] or [map=...]. *)
Definition meta_decl (compact : bool) (key_order : list string) : string :=
  if compact then "ORDER=" ++ join "," key_order
  else "map=" ++ join ";" (map (fun k => k ++ ":" ++ k) key_order).

(** *** [_propose_value_tokens] *)

(** [all_values] (lines 88-93). *)
Definition all_values (records : list (dict json)) : list string :=
  flat_map (fun r =>
    flat_map (fun v => match v with
                       | JNull => []
                       | _ => [py_str v]
                       end) (values r)) records.

(** [cnt[v] * len(str(v))] *)
Definition benefit (cnt : dict Z) (v : string) : Z :=
  (dict_get cnt v 0 * len v)%Z.

(** The values repeated at least [min_freq] times, sorted by
    benefit, descending; [list.sort] is stable also with
    [reverse=True] (lines 95-96). *)
Definition candidates (cnt : dict Z) (min_freq : Z) : list string :=
  stable_sort (fun y x => (benefit cnt x <? benefit cnt y)%Z)
    (map fst (filter (fun vf => (min_freq <=? snd vf)%Z) cnt)).

Record proposal_state : Type := {
  proposals : dict string;
  next_i : nat;
  used : list string
}.

(** One turn of [for v in candidates] (lines 100-111). *)
Definition propose_step (payload_text : string) (st : proposal_state)
           (v : string) : proposal_state :=
  let bad c := _word_collision c payload_text || mem c (used st) in
  let fuel := S (String.length payload_text + List.length (used st)) in
  let tok := fresh_token bad fuel ("V" ++ str_nat (next_i st)) in
  {| proposals := dict_set (proposals st) v tok;
     next_i := S (next_i st);
     used := set_add tok (used st) |}.

Definition _propose_value_tokens (records : list (dict json))
           (payload_text : string) (min_freq : Z)
  : dict string * dict Z :=
  let cnt := Counter (all_values records) in
  let st := fold_left (propose_step payload_text)
              (candidates cnt min_freq)
              {| proposals := []; next_i := 1; used := [] |} in
  (proposals st, cnt).

(** *** The greedy loop of [encode] *)

Record opt_state : Type := {
  accepted : dict string;
  accepted_vmap : dict string;
  current_tokens : Z
}.

(** [hypot_meta] of a trial (lines 198-202): the declaration, then
    [vmap=...] when the table is not empty. *)
Definition hypot_meta (compact : bool) (key_order : list string)
           (long_to_token : dict string) : string :=
  let meta_parts := [meta_decl compact key_order] in
  let vm_entries :=
    map (fun vt => snd vt ++ ":" ++ fst vt) long_to_token in
  let meta_parts :=
    match vm_entries with
    | [] => meta_parts
    | _ => List.app meta_parts ["vmap=" ++ join ";" vm_entries]
    end in
  "META&" ++ join "&" meta_parts.

(** [hypot_meta + '|' + hypot_body], the text a trial is measured
    on (line 203). *)
Definition hypot_text (compact : bool) (records : list (dict json))
           (key_order : list string) (long_to_token : dict string)
  : string :=
  hypot_meta compact key_order long_to_token ++ "|"
    ++ build_body compact records key_order long_to_token.

(** One turn of [for val in proposed_vals] (lines 165-209): the
    token is re-checked, the trial table and text are built and
    measured, and the candidate is kept when [gain > 0]. *)
Definition try_candidate (compact : bool) (records : list (dict json))
           (key_order : list string) (payload_text : string)
           (st : opt_state) (p : string * string) : opt_state :=
  let val := fst p in
  let bad c :=
    dict_in (accepted_vmap st) c || _word_collision c payload_text in
  let fuel :=
    S (String.length payload_text + List.length (accepted_vmap st)) in
  let tok := fresh_token bad fuel (snd p) in
  let hypot_long_to_token := dict_set (accepted st) val tok in
  let hypot_total_tokens :=
    _token_count (hypot_text compact records key_order
                    hypot_long_to_token) in
  let gain := (current_tokens st - hypot_total_tokens)%Z in
  if (gain >? 0)%Z
  then {| accepted := dict_set (accepted st) val tok;
          accepted_vmap := dict_set (accepted_vmap st) tok val;
          current_tokens := hypot_total_tokens |}
  else st.

(** [base_meta + '|' + base_body] (lines 135-153). *)
Definition base_text (compact : bool) (records : list (dict json))
           (key_order : list string) : string :=
  ("META&" ++ meta_decl compact key_order) ++ "|"
    ++ build_body compact records key_order [].

(** The loop, from [current_tokens = base_total_tokens]
    (lines 162-209). *)
Definition optimize (compact : bool) (records : list (dict json))
           (key_order : list string) (payload_text : string)
           (proposed_vals : dict string) : opt_state :=
  fold_left (try_candidate compact records key_order payload_text)
    proposed_vals
    {| accepted := []; accepted_vmap := [];
       current_tokens :=
         _token_count (base_text compact records key_order) |}.

(** [sorted({k for r in records for k in r.keys()})] *)
Definition key_order_of (records : list (dict json)) : list string :=
  sorted (set_of (flat_map keys records)).

(** [for r in records: if not isinstance(r, dict): raise ...] *)
Fixpoint check_records (records : list json)
  : result (list (dict json)) :=
  match records with
  | [] => Ok []
  | JDict d :: rest =>
      bind (check_records rest) (fun ds => Ok (d :: ds))
  | _ :: _ => Raise (ValueError "Each record must be a JSON object/dict")
  end.

(** The record list of the payload's [data] (lines 124-127). *)
Definition records_of (data : json) : result (list (dict json)) :=
  bind (match data with
        | JDict d =>
            match dict_find d "sensordata" with
            | Some s => _flatten_records s
            | None => _flatten_records data
            end
        | _ => _flatten_records data
        end) check_records.

(** The tables the encoder ends with, [(accepted, final_vmap)]:
    empty when nothing is proposed (lines 157-160), else those of
    the loop (line 210). *)
Definition final_tables (compact : bool) (records : list (dict json))
           (key_order : list string) (payload_text : string)
           (value_min_freq : Z) : dict string * dict string :=
  let proposed_vals :=
    fst (_propose_value_tokens records payload_text value_min_freq) in
  match proposed_vals with
  | [] => ([], [])
  | _ =>
      let st := optimize compact records key_order payload_text
                  proposed_vals in
      (accepted st, accepted_vmap st)
  end.

(** The declarations of the passthrough scalars [q] and [mdu]
    (lines 245-247). *)
Definition passthrough (payload : dict json) : list string :=
  flat_map (fun pick =>
              match dict_find payload pick with
              | Some v => [pick ++ "=" ++ py_str v]
              | None => []
              end) ["q"; "mdu"].

(** The Meta parts before the passthrough scalars are appended
    (lines 241-243). *)
Definition final_meta_parts (compact : bool) (key_order : list string)
           (final_vmap : dict string) : list string :=
  let final_meta := "META&" ++ meta_decl compact key_order in
  let meta_parts := [drop (String.length "META&") final_meta] in
  match final_vmap with
  | [] => meta_parts
  | _ => List.app meta_parts
           ["vmap=" ++ join ";"
              (map (fun kv => fst kv ++ ":" ++ snd kv) final_vmap)]
  end.

(** [encode].  The final body is built from [accepted] (line 212;
    it is [base_body] when the table is empty), Meta is assembled
    from the parts (line 248) and both replace [data] (line 249). *)
Definition encode (payload : dict json) (value_min_freq : Z)
           (compact : bool) : result (dict json) :=
  let obj := payload in
  match dict_find obj "data" with
  | None => Ok obj
  | Some data =>
      bind (records_of data) (fun records =>
        let key_order := key_order_of records in
        let payload_text := lower (dumps (JDict payload)) in
        let tables := final_tables compact records key_order
                        payload_text value_min_freq in
        let final_body :=
          build_body compact records key_order (fst tables) in
        let meta_parts :=
          List.app (final_meta_parts compact key_order (snd tables))
                   (passthrough payload) in
        let meta_str := "META&" ++ join "&" meta_parts in
        Ok (dict_set obj "data"
              (JDict [("meta", JStr meta_str);
                      ("body", JStr ("BODY|" ++ final_body))])))
  end.

End Encoder.

End Enc.

(** ** The decoder, [dec.py] *)

Module Dec.
Import Py Json.

Definition ESCAPE_CHAR : ascii := "\"%char.
Definition PAIR_SEP : ascii := ","%char.
Definition RECORD_SEP : ascii := "|"%char.

(** [_unescape_val], the same loop as the encoder's. *)
Fixpoint _unescape_val (v : string) : string :=
  match v with
  | EmptyString => EmptyString
  | String c r =>
      if Ascii.eqb c ESCAPE_CHAR
      then match r with
           | EmptyString => String c EmptyString
           | String d r' => String d (_unescape_val r')
           end
      else String c (_unescape_val r)
  end.

(** The three loops of the shape
    [for e in s.split(outer): if inner in e: k, v = e.split(inner, 1); d[k] = v]. *)
Definition parse_pairs (inner : ascii) (entries : list string)
  : dict string :=
  fold_left (fun d e => match split1 inner e with
                        | Some (k, v) => dict_set d k v
                        | None => d
                        end) entries [].

(** *** The header pattern

    [re.match(r'sensordata\[(\d+)\]\{(.+)\}', header)]: the literal, a
    maximal run of at least one digit, the literal, then [.+] taken
    greedily: it stays on the first line and backs up to the last
    closing brace that leaves it at least one character. *)

Fixpoint strip_prefix (p s : string) : option string :=
  match p, s with
  | EmptyString, _ => Some s
  | String a p', String b s' =>
      if Ascii.eqb a b then strip_prefix p' s' else None
  | String _ _, EmptyString => None
  end.

Fixpoint span_digits (s : string) : string * string :=
  match s with
  | EmptyString => (EmptyString, EmptyString)
  | String c r =>
      if is_digit c
      then let (ds, rest) := span_digits r in (String c ds, rest)
      else (EmptyString, s)
  end.

(** The characters [.] can run over: up to the first newline. *)
Fixpoint first_line (s : string) : string :=
  match s with
  | EmptyString => EmptyString
  | String c r =>
      if Ascii.eqb c newline then EmptyString else String c (first_line r)
  end.

(** The longest non-empty [g] with [g ++ "}"] a prefix of [s]. *)
Fixpoint greedy_group (s : string) : option string :=
  match s with
  | EmptyString => None
  | String c r =>
      match greedy_group r with
      | Some g => Some (String c g)
      | None =>
          match r with
          | String "}"%char _ => Some (String c EmptyString)
          | _ => None
          end
      end
  end.

(** The two groups of the match, or [None]. *)
Definition match_header (header : string) : option (string * string) :=
  match strip_prefix "sensordata[" header with
  | None => None
  | Some r1 =>
      let (count, r2) := span_digits r1 in
      match count with
      | EmptyString => None
      | _ =>
          match strip_prefix "]{" r2 with
          | None => None
          | Some r3 =>
              match greedy_group (first_line r3) with
              | Some fields => Some (count, fields)
              | None => None
              end
          end
      end
  end.

(** *** Rows *)

(** [vmap[raw]] when [raw] is a token, else [_unescape_val(raw)]. *)
Definition resolve (vmap : dict string) (raw : string) : string :=
  match dict_find vmap raw with
  | Some val => val
  | None => _unescape_val raw
  end.

(** [enumerate(l)] *)
Definition enumerate {A} (l : list A) : list (nat * A) :=
  combine (seq 0 (List.length l)) l.

(** A row of [key:value] pairs (lines 69-99). *)
Definition legacy_row (meta_kv vmap : dict string) (row : string)
  : dict string :=
  let kvs := split PAIR_SEP row in
  let rec := fold_left (fun rec kv =>
                          match split1 ":"%char kv with
                          | Some (sk, vv) => dict_set rec sk (resolve vmap vv)
                          | None => rec
                          end) kvs [] in
  match dict_find meta_kv "map" with
  | Some m =>
      let short_to_long := parse_pairs ":"%char (split ";"%char m) in
      fold_left (fun rec2 kv =>
                   dict_set rec2 (dict_get short_to_long (fst kv) (fst kv))
                            (snd kv)) rec []
  | None => rec
  end.

(** A positional row (lines 102-111):
    [parts_vals[i] if i < len(parts_vals) else '']. *)
Definition compact_row (key_list : list string) (vmap : dict string)
           (row : string) : dict string :=
  let parts_vals := split PAIR_SEP row in
  fold_left (fun rec ik =>
               dict_set rec (snd ik) (resolve vmap (nth (fst ik) parts_vals "")))
            (enumerate key_list) [].

(** The body of the row loop; [None] is [continue]. *)
Definition decode_row (key_list : list string) (meta_kv vmap : dict string)
           (row : string) : option (dict string) :=
  if String.eqb (strip row) "" then None
  else if contains ":"%char row then Some (legacy_row meta_kv vmap row)
  else Some (compact_row key_list vmap row).

(** [records], the rows that were not skipped, in order. *)
Definition decode_rows (key_list : list string) (meta_kv vmap : dict string)
           (data_rows : list string) : list (dict string) :=
  flat_map (fun row => match decode_row key_list meta_kv vmap row with
                       | Some rec => [rec]
                       | None => []
                       end) data_rows.

(** A decoded record as a JSON object. *)
Definition record_json (rec : dict string) : json :=
  JDict (map (fun kv => (fst kv, JStr (snd kv))) rec).

(** [meta_kv], the declarations of Meta (lines 32-38). *)
Definition parse_meta (meta : string) : dict string :=
  let meta_body := drop (String.length "META&") meta in
  let meta_parts := match meta_body with
                    | EmptyString => []
                    | _ => split "&"%char meta_body
                    end in
  parse_pairs "="%char meta_parts.

(** [vmap], when Meta declares one that is not empty (lines 41-46). *)
Definition parse_vmap (meta_kv : dict string) : dict string :=
  match dict_find meta_kv "vmap" with
  | Some (String c r) =>
      parse_pairs ":"%char (split ";"%char (String c r))
  | _ => []
  end.

(** [decode] after the two markers were checked (lines 32-114). *)
Definition decode_strings (new : dict json) (meta body : string)
  : result (dict json) :=
  let meta_kv := parse_meta meta in
  let vmap := parse_vmap meta_kv in
  let body_payload := drop (String.length "BODY|") body in
  match split RECORD_SEP body_payload with
  | [] => Ok new
  | header :: data_rows =>
      match match_header header with
      | None => Raise (ValueError "Invalid BODY header")
      | Some (_, fields) =>
          let key_list := split ","%char fields in
          let records := decode_rows key_list meta_kv vmap data_rows in
          Ok (dict_set new "data"
                (JDict [("sensordata", JList (map record_json records))]))
      end
  end.

(** [decode].  [startswith] on a value that is not a [str] raises
    [AttributeError]; the [or] of the test looks at [body] only when
    [meta] passed. *)
Definition decode (obj : dict json) : result (dict json) :=
  let new := obj in
  match dict_find new "data" with
  | Some (JDict data) =>
      match dict_get data "meta" (JStr "") with
      | JStr meta =>
          if negb (startswith meta "META&")
          then Raise (ValueError "Not valid COIL META/BODY format")
          else
            match dict_get data "body" (JStr "") with
            | JStr body =>
                if negb (startswith body "BODY|")
                then Raise (ValueError "Not valid COIL META/BODY format")
                else decode_strings new meta body
            | _ => Raise AttributeError
            end
      | _ => Raise AttributeError
      end
  | _ => Raise (ValueError
      "Input JSON must contain 'data' dict with 'meta' and 'body'.")
  end.

End Dec.

(** * Vocabulary of the statements *)

Import Py Json.

(** What the four replacements do to one character. *)
Definition escaped_char (c : ascii) : string :=
  if Ascii.eqb c "\" || Ascii.eqb c ":" || Ascii.eqb c "|" || Ascii.eqb c ","
  then String Enc.ESCAPE_CHAR (Enc.chr c)
  else Enc.chr c.

(** The header of a body: the text between the marker and the first
    row separator. *)
Definition body_header (body : string) : string :=
  hd "" (split Dec.RECORD_SEP (drop (String.length "BODY|") body)).

Fixpoint all_chars (p : ascii -> bool) (s : string) : bool :=
  match s with
  | EmptyString => true
  | String c r => p c && all_chars p r
  end.

(** The fixed pattern [sensordata[<count>]{<fields>}], read as [re.match]
    reads it: a count of at least one digit, at least one field
    character, none of them a newline, and anything after the brace. *)
Definition header_pattern (header : string) : Prop :=
  exists count fields rest,
    header = "sensordata[" ++ count ++ "]{" ++ fields ++ "}" ++ rest
    /\ count <> "" /\ all_chars is_digit count = true
    /\ fields <> ""
    /\ all_chars (fun c => negb (Ascii.eqb c newline)) fields = true.

(** The payload of the comma scenario: one record, one value with a
    comma in it. *)
Definition comma_payload : dict json :=
  [("data", JDict [("sensordata", JList [JDict [("a", JStr "21,5")]])])].

(** A payload without [data], and one with an empty record list. *)
Definition no_data_payload : dict json := [("q", JStr "x")].
Definition empty_payload : dict json :=
  [("data", JDict [("sensordata", JList [])])].

(** A payload as the decoder returns it. *)
Definition decoded_payload : dict json :=
  [("data", JDict [("sensordata",
                    JList [JDict [("temp", JStr "21.5"); ("unit", JStr "C")]])])].

(** [k] is a field name of some record. *)
Definition field_of (records : list (dict json)) (k : string) : Prop :=
  exists r, In r records /\ In k (keys r).

(** Strictly before, in the order of [sorted] on strings. *)
Definition str_lt (a b : string) : Prop := String.ltb a b = true.

(** The shape of the optimizer's tokens: a capital V and digits. *)
Definition tokenish (s : string) : Prop :=
  exists d, s = String "V" d /\ all_chars is_digit d = true.

(** The word that starts at the front of [s], and the words that start
    at each position of a text. *)
Fixpoint word_run (s : string) : string :=
  match s with
  | EmptyString => EmptyString
  | String c r => if is_word c then String c (word_run r) else EmptyString
  end.

Fixpoint runs (text : string) : list string :=
  match text with
  | EmptyString => []
  | String _ r => word_run text :: runs r
  end.

(** [w] stands in [text] as a whole word: between two word boundaries. *)
Definition occurs_as_word (w text : string) : Prop :=
  exists pre post,
    text = pre ++ w ++ post
    /\ Enc.boundary (Enc.last_or None pre) (Enc.head (w ++ post)) = true
    /\ Enc.boundary (Enc.last_or None (pre ++ w)) (Enc.head post) = true.

(** The same, letter case ignored. *)
Definition occurs_as_word_ci (w text : string) : Prop :=
  exists w', lower w' = lower w /\ occurs_as_word w' text.

(** What holds of the state of [_propose_value_tokens] between two
    candidates: the tokens proposed are distinct and all in [used], and
    every token in [used] has the shape of a token and does not collide
    with the payload text. *)
Definition propose_inv (payload_text : string) (st : Enc.proposal_state)
  : Prop :=
  NoDup (keys (Enc.proposals st))
  /\ NoDup (values (Enc.proposals st))
  /\ (forall t, In t (values (Enc.proposals st)) -> In t (Enc.used st))
  /\ (forall t, In t (Enc.used st) ->
        tokenish t /\ Enc._word_collision t payload_text = false).

(** A proposal table the greedy loop can be run on. *)
Definition good_proposals (payload_text : string) (P : dict string) : Prop :=
  NoDup (keys P) /\ NoDup (values P)
  /\ (forall t, In t (values P) ->
        tokenish t /\ Enc._word_collision t payload_text = false).

(** A pair of a table turned round: [(value, token)] to
    [(token, value)]. *)
Definition swap (p : string * string) : string * string := (snd p, fst p).

(** Meta with further declarations appended, each after an ampersand. *)
Definition append_decls (meta : string) (extras : list string) : string :=
  fold_left (fun m e => m ++ "&" ++ e) extras meta.

(** The dataset of the temperature scenario, and payloads around it. *)
Definition scenario_records : list (dict json) :=
  [ [("temp", JStr "21.5"); ("unit", JStr "C")];
    [("temp", JStr "21.5"); ("unit", JStr "C")];
    [("temp", JStr "19.0"); ("unit", JStr "C")] ].

Definition scenario_payload : dict json :=
  [("data", JDict [("sensordata", JList (map JDict scenario_records))])].

Definition scenario_payload_q : dict json :=
  [("q", JStr "mean temperature?");
   ("data", JDict [("sensordata", JList (map JDict scenario_records))])].

(** An encoded payload. *)
Definition coil (meta body : string) : json :=
  JDict [("meta", JStr meta); ("body", JStr ("BODY|" ++ body))].

(** A dataset with one long repeated value, a passthrough scalar, and a
    tokenizer that counts one token per character except for one merged
    token, the text [temperature,unit&q=]. *)
Definition long_records : list (dict json) :=
  [ [("temperature", JStr "21.5"); ("unit", JStr "degrees-celsius")];
    [("temperature", JStr "19.0"); ("unit", JStr "degrees-celsius")];
    [("temperature", JStr "20.1"); ("unit", JStr "degrees-celsius")] ].

Definition long_payload_q : dict json :=
  [("q", JStr "x");
   ("data", JDict [("sensordata", JList (map JDict long_records))])].

Fixpoint merge_tokens (skip : nat) (s : string) : list Z :=
  match s with
  | EmptyString => []
  | String c r =>
      match skip with
      | S k => merge_tokens k r
      | O =>
          if String.prefix "temperature,unit&q=" s
          then 1000%Z :: merge_tokens 18 r
          else Z.of_nat (code c) :: merge_tokens 0 r
      end
  end.

(** What holds of the state of the greedy loop after the proposals
    [done]: the accepted pairs are among them, the two tables mirror
    each other, the current cost is the cost of the text built with the
    accepted table, it is at most the cost of the baseline, and it is
    below it once a pair was accepted. *)
Definition opt_inv (repr_container : json -> string) (tiktoken : bool)
           (enc : option (string -> list Z)) (compact : bool)
           (records : list (dict json)) (key_order : list string)
           (done : dict string) (st : Enc.opt_state) : Prop :=
  incl (Enc.accepted st) done
  /\ Enc.accepted_vmap st = map swap (Enc.accepted st)
  /\ Enc.current_tokens st
     = Enc._token_count tiktoken enc
         (Enc.hypot_text repr_container compact records key_order
            (Enc.accepted st))
  /\ (Enc.current_tokens st
      <= Enc._token_count tiktoken enc
           (Enc.base_text repr_container compact records key_order))%Z
  /\ (Enc.accepted st = []
      \/ (Enc.current_tokens st
          < Enc._token_count tiktoken enc
              (Enc.base_text repr_container compact records key_order))%Z).

(** [s] has none of the characters of [seps]. *)
Definition free_of (seps : string) (s : string) : bool :=
  all_chars (fun c => negb (contains c seps)) s.

(** The characters a field name must not have for the header and Meta
    to parse back, and the ones a value must not have for the rows and
    the value map to parse back. *)
Definition key_seps : string := String newline ",|&".
Definition value_seps : string := ",|:&;".

(** The value of field [k] in record [r] as the decoder gives it back:
    the string, or the empty string when the field is missing. *)
Definition value_of (r : dict json) (k : string) : string :=
  match dict_find r k with
  | Some (JStr s) => s
  | _ => ""
  end.

(** The record the decoder gives back for [r]: every field of the Key
    Order, in that order. *)
Definition restored (key_order : list string) (r : dict json) : json :=
  JDict (map (fun k => (k, JStr (value_of r k))) key_order).

(** A record the compact round trip is stated for: distinct field
    names free of separators, string values free of separators, and a
    value with a character that is not white space. *)
Definition plain_record (r : dict json) : Prop :=
  NoDup (keys r)
  /\ (forall k v, In (k, v) r ->
        free_of key_seps k = true
        /\ exists s, v = JStr s /\ free_of value_seps s = true)
  /\ (exists k s, In (k, JStr s) r /\ all_chars is_space s = false).

(** The last value [k] is given in a list of [k<inner>v] entries. *)
Fixpoint lookup_last (inner : ascii) (entries : list string) (k : string)
  : option string :=
  match entries with
  | [] => None
  | e :: rest =>
      match lookup_last inner rest k with
      | Some v => Some v
      | None =>
          match split1 inner e with
          | Some (k', v) => if String.eqb k' k then Some v else None
          | None => None
          end
      end
  end.

(** [a] is [b] or a value inside [b]. *)
Inductive subvalue (a : json) : json -> Prop :=
| sub_refl : subvalue a a
| sub_list (l : list json) (x : json) :
    In x l -> subvalue a x -> subvalue a (JList l)
| sub_dict (d : list (string * json)) (k : string) (x : json) :
    In (k, x) d -> subvalue a x -> subvalue a (JDict d).

(** ** Vocabulary of the further properties *)

(** The record list the encoder reads out of [data]: [data] is the
    list, or holds it under [sensordata], or is a dict of one key that
    holds it; and what [sensordata] holds may itself be such a dict of
    one key. *)
Inductive holds_records : json -> list json -> Prop :=
| in_list (l : list json) : holds_records (JList l) l
| in_sensordata (d : dict json) (l : list json) :
    dict_find d "sensordata" = Some (JList l) -> holds_records (JDict d) l
| in_sensordata_key (d : dict json) (k : string) (l : list json) :
    dict_find d "sensordata" = Some (JDict [(k, JList l)]) ->
    holds_records (JDict d) l
| in_single_key (k : string) (l : list json) :
    holds_records (JDict [(k, JList l)]) l.

(** The two errors of the encoder. *)
Definition unsupported_format : exn :=
  ValueError
    "Unsupported sensordata format; expected list of dicts or a single-key dict -> list".

Definition record_not_dict : exn :=
  ValueError "Each record must be a JSON object/dict".

(** How often the text [v] stands in a list of texts. *)
Definition occurrences (l : list string) (v : string) : Z :=
  Z.of_nat (count_occ string_dec l v).

(** The text of field [k] of record [r] as the encoder reads it
    (lines 75-78): [str] of the value, the empty text for [None] and
    for a field the record does not have. *)
Definition field_text (repr_container : json -> string) (r : dict json)
           (k : string) : string :=
  Enc.py_str repr_container
    (match dict_get r k (JStr "") with
     | JNull => JStr ""
     | v => v
     end).

(** The record the decoder gives back for [r]: every field of the Key
    Order, in that order, each with its text. *)
Definition decoded_record (repr_container : json -> string)
           (key_order : list string) (r : dict json) : json :=
  JDict (map (fun k => (k, JStr (field_text repr_container r k))) key_order).

(** A value that is not a list or a dict, and whose text, when it is a
    string, has no separator of the format. *)
Definition scalar (v : json) : Prop :=
  match v with
  | JList _ | JDict _ => False
  | JStr s => free_of value_seps s = true
  | _ => True
  end.

(** The characters a field name must not have: in legacy mode a name
    is also written before a colon, in the rows and in [map=], between
    semicolons. *)
Definition name_seps (compact : bool) : string :=
  if compact then key_seps else key_seps ++ ":;".

(** A record the round trip is stated for: field names and values
    without separators, and, in compact mode, a field whose text is not
    blank (a blank row is skipped by the decoder). *)
Definition codable (repr_container : json -> string) (compact : bool)
           (r : dict json) : Prop :=
  (forall k v, In (k, v) r ->
     free_of (name_seps compact) k = true /\ scalar v)
  /\ (compact = true ->
      exists k, all_chars is_space (field_text repr_container r k) = false).

(** A payload with an integer, a boolean, a null and a missing field. *)
Definition mixed_records : list (dict json) :=
  [ [("id", JInt 7); ("ok", JBool true); ("note", JStr "a b")];
    [("id", JInt (-3)); ("ok", JNull)] ].

Definition mixed_payload : dict json :=
  [("q", JStr "which?"); ("data", JList (map JDict mixed_records))].

(** A question with the word [v1] right after a newline, in a payload
    with the records of the long repeated value. *)
Definition newline_question : string := String newline "v1".

Definition hidden_word_payload : dict json :=
  [("q", JStr newline_question);
   ("data", JDict [("sensordata", JList (map JDict long_records))])].

(** A control character: [json.dumps] writes it as an escape sequence
    that ends in a letter or a digit. *)
Definition is_control (c : ascii) : bool := (code c <? 32)%nat.

(** [s] is a string of the payload: a string value or a key, at any
    depth. *)
Definition string_of (payload : dict json) (s : string) : Prop :=
  subvalue (JStr s) (JDict payload)
  \/ exists d, subvalue (JDict d) (JDict payload) /\ In s (keys d).

(** * Properties *)

(** ** Strings *)

Lemma append_nil_r (s : string) : s ++ "" = s.
Proof. induction s; simpl; congruence. Qed.

Lemma append_assoc (a b c : string) : (a ++ b) ++ c = a ++ (b ++ c).
Proof. induction a; simpl; congruence. Qed.

Lemma length_append (a b : string) :
  String.length (a ++ b) = String.length a + String.length b.
Proof. induction a; simpl; congruence. Qed.

(** ** The escape codec *)

Lemma escape_val_cons (c : ascii) (s : string) :
  Enc._escape_val (String c s) = escaped_char c ++ Enc._escape_val s.
Proof.
  unfold Enc._escape_val, escaped_char, Enc.ESCAPE_CHAR, Enc.chr.
  cbn [replace].
  destruct (Ascii.eqb_spec c "\") as [-> | H1]; [reflexivity |].
  cbn [replace].
  destruct (Ascii.eqb_spec c ":") as [-> | H2]; [reflexivity |].
  cbn [replace].
  destruct (Ascii.eqb_spec c "|") as [-> | H3]; [reflexivity |].
  cbn [replace].
  destruct (Ascii.eqb_spec c ",") as [-> | H4]; reflexivity.
Qed.

Lemma unescape_escaped_char (c : ascii) (t : string) :
  Enc._unescape_val (escaped_char c ++ t) = String c (Enc._unescape_val t).
Proof.
  unfold escaped_char, Enc.ESCAPE_CHAR, Enc.chr.
  destruct (Ascii.eqb_spec c "\") as [-> | H1]; [reflexivity |].
  destruct (Ascii.eqb_spec c ":") as [-> | H2]; [reflexivity |].
  destruct (Ascii.eqb_spec c "|") as [-> | H3]; [reflexivity |].
  destruct (Ascii.eqb_spec c ",") as [-> | H4]; [reflexivity |].
  cbn. unfold Enc.ESCAPE_CHAR.
  destruct (Ascii.eqb_spec c "\"); [contradiction | reflexivity].
Qed.

Lemma dec_unescape_is_enc (v : string) :
  Dec._unescape_val v = Enc._unescape_val v.
Proof. reflexivity. Qed.

Lemma unescape_escape_val (s : string) :
  Enc._unescape_val (Enc._escape_val s) = s.
Proof.
  induction s as [| c s IH]; [reflexivity |].
  rewrite escape_val_cons, unescape_escaped_char. now rewrite IH.
Qed.

(** C2.  Unescaping an escaped string gives the string back, for every
    string, the escape character included; [escape] is the chain of four
    replacements of [_escape_val] (the escape character first, then the
    colon, the pipe and the comma), [unescape] is [_unescape_val], the
    encoder's and the decoder's alike. *)
Theorem unescape_escape (s : string) :
  Enc._unescape_val (Enc._escape_val s) = s
  /\ Dec._unescape_val (Enc._escape_val s) = s.
Proof.
  split; [apply unescape_escape_val |].
  rewrite dec_unescape_is_enc. apply unescape_escape_val.
Qed.

(** ** The cost oracle *)

(** C9.  Without a tokenizer, [_token_count] is [max(1, ceil(len/4))],
    the ceiling being the one of the rationals, and it is at least 1. *)
Theorem token_count_fallback (text : string) :
  let fallback := Z.max 1 (Qround.Qceiling (QArith_base.Qmake (len text) 4)) in
  (forall enc, Enc._token_count false enc text = fallback)
  /\ (forall tiktoken, Enc._token_count tiktoken None text = fallback)
  /\ (1 <= fallback)%Z.
Proof.
  assert (E : Qround.Qceiling (QArith_base.Qmake (len text) 4)
              = ((len text + 3) / 4)%Z).
  { unfold Qround.Qceiling, Qround.Qfloor; cbn.
    pose proof (Z.div_mod (len text + 3) 4 ltac:(lia)).
    pose proof (Z.mod_pos_bound (len text + 3) 4 ltac:(lia)).
    pose proof (Z.div_mod (- len text) 4 ltac:(lia)).
    pose proof (Z.mod_pos_bound (- len text) 4 ltac:(lia)).
    lia. }
  cbn zeta. rewrite E.
  split; [| split].
  - intros enc; destruct enc; reflexivity.
  - intros tiktoken; destruct tiktoken; reflexivity.
  - lia.
Qed.

(** ** Dictionaries *)

Lemma dict_find_set_same {V} (d : dict V) (k : string) (v : V) :
  dict_find (dict_set d k v) k = Some v.
Proof.
  induction d as [| [k' v'] d IH]; cbn.
  - now rewrite String.eqb_refl.
  - destruct (String.eqb k' k) eqn:E; cbn; rewrite E; [reflexivity | exact IH].
Qed.

Lemma dict_in_false {V} (d : dict V) (k : string) :
  dict_in d k = false -> dict_find d k = None.
Proof. unfold dict_in. now destruct (dict_find d k). Qed.

(** ** Payloads without [data] *)

(** C3, against the claim: on a payload without [data] the encoder
    raises nothing, it returns a result. *)
Lemma encode_without_data_returns :
  dict_in no_data_payload "data" = false
  /\ Enc.encode (fun _ => "") false None no_data_payload 2 true
     = Ok no_data_payload.
Proof. split; reflexivity. Qed.

(** C3, as amended.  On a payload without the [data] key the decoder
    raises its container error, and the encoder returns the payload as
    it is, in both modes and whatever the threshold. *)
Theorem missing_data (repr_container : json -> string) (tiktoken : bool)
        (enc : option (string -> list Z)) (payload : dict json)
        (value_min_freq : Z) (compact : bool) :
  dict_in payload "data" = false ->
  Dec.decode payload
  = Raise (ValueError
      "Input JSON must contain 'data' dict with 'meta' and 'body'.")
  /\ Enc.encode repr_container tiktoken enc payload value_min_freq compact
     = Ok payload.
Proof.
  intros H. apply dict_in_false in H.
  unfold Dec.decode, Enc.encode. now rewrite H.
Qed.

Lemma missing_data_witness :
  Dec.decode no_data_payload
  = Raise (ValueError
      "Input JSON must contain 'data' dict with 'meta' and 'body'.")
  /\ Enc.encode (fun _ => "") false None no_data_payload 2 true
     = Ok no_data_payload.
Proof.
  apply (missing_data (fun _ => "") false None no_data_payload 2 true).
  reflexivity.
Defined.

(** ** The empty dataset *)

Lemma startswith_append (p s : string) : startswith (p ++ s) p = true.
Proof.
  unfold startswith. induction p as [| c p IH]; cbn.
  - now destruct s.
  - destruct (ascii_dec c c); [exact IH | contradiction].
Qed.

(** C10.  When the record list of the payload is empty, the encoder
    writes the body [BODY|sensordata[0]{}] (in both modes, with any cost
    oracle), and the decoder raises on the payload so encoded: its
    header pattern wants at least one character between the braces. *)
Theorem empty_dataset (repr_container : json -> string) (tiktoken : bool)
        (enc : option (string -> list Z)) (payload : dict json)
        (data : json) (value_min_freq : Z) (compact : bool) :
  dict_find payload "data" = Some data ->
  Enc.records_of data = Ok [] ->
  exists meta,
    Enc.encode repr_container tiktoken enc payload value_min_freq compact
    = Ok (dict_set payload "data"
            (JDict [("meta", JStr meta);
                    ("body", JStr "BODY|sensordata[0]{}")]))
    /\ Dec.match_header "sensordata[0]{}" = None
    /\ Dec.decode (dict_set payload "data"
                     (JDict [("meta", JStr meta);
                             ("body", JStr "BODY|sensordata[0]{}")]))
       = Raise (ValueError "Invalid BODY header").
Proof.
  intros Hd Hr.
  eexists. split; [| split].
  - unfold Enc.encode. rewrite Hd, Hr. cbn [bind].
    destruct compact; reflexivity.
  - reflexivity.
  - unfold Dec.decode. rewrite dict_find_set_same. cbn [dict_get dict_find String.eqb Ascii.eqb Bool.eqb].
    rewrite startswith_append. reflexivity.
Qed.

Lemma empty_dataset_witness :
  exists meta,
    Enc.encode (fun _ => "") false None empty_payload 2 true
    = Ok (dict_set empty_payload "data"
            (JDict [("meta", JStr meta);
                    ("body", JStr "BODY|sensordata[0]{}")]))
    /\ Dec.match_header "sensordata[0]{}" = None
    /\ Dec.decode (dict_set empty_payload "data"
                     (JDict [("meta", JStr meta);
                             ("body", JStr "BODY|sensordata[0]{}")]))
       = Raise (ValueError "Invalid BODY header").
Proof.
  apply (empty_dataset (fun _ => "") false None empty_payload
           (JDict [("sensordata", JList [])]) 2 true); reflexivity.
Defined.

(** ** A value with a comma *)

(** C1, the failing input.  The record [{"a": "21,5"}] is encoded as the
    row [21\,5]; the decoder splits the row at the comma before it
    unescapes, and gives the record [{"a": "21\"}] back. *)
Theorem comma_value_not_restored (repr_container : json -> string)
        (tiktoken : bool) (enc : option (string -> list Z)) :
  Enc.encode repr_container tiktoken enc comma_payload 2 true
  = Ok [("data", JDict [("meta", JStr "META&ORDER=a");
                        ("body", JStr "BODY|sensordata[1]{a}|21\,5")])]
  /\ bind (Enc.encode repr_container tiktoken enc comma_payload 2 true)
          Dec.decode
     = Ok [("data", JDict [("sensordata",
                            JList [JDict [("a", JStr "21\")]])])].
Proof. split; reflexivity. Qed.

(** ** The header pattern *)

Lemma strip_prefix_sound (p s r : string) :
  Dec.strip_prefix p s = Some r -> s = p ++ r.
Proof.
  revert s. induction p as [| a p IH]; intros s H; cbn in *.
  - congruence.
  - destruct s as [| b s]; [discriminate |].
    destruct (Ascii.eqb_spec a b) as [-> | _]; [| discriminate].
    now rewrite (IH _ H).
Qed.

Lemma strip_prefix_append (p r : string) :
  Dec.strip_prefix p (p ++ r) = Some r.
Proof.
  induction p as [| a p IH]; cbn; [reflexivity |].
  now rewrite Ascii.eqb_refl.
Qed.

Lemma span_digits_sound (s : string) :
  s = fst (Dec.span_digits s) ++ snd (Dec.span_digits s)
  /\ all_chars is_digit (fst (Dec.span_digits s)) = true.
Proof.
  induction s as [| c s [IH1 IH2]]; cbn; [auto |].
  destruct (is_digit c) eqn:E; cbn; [| auto].
  destruct (Dec.span_digits s) as [ds rest]; cbn in *.
  rewrite E. split; [congruence | assumption].
Qed.

Lemma span_digits_append (ds : string) (c : ascii) (r : string) :
  all_chars is_digit ds = true -> is_digit c = false ->
  Dec.span_digits (ds ++ String c r) = (ds, String c r).
Proof.
  intros Hd Hc. induction ds as [| d ds IH]; cbn in *.
  - now rewrite Hc.
  - apply andb_prop in Hd as [Hd1 Hd2]. now rewrite Hd1, (IH Hd2).
Qed.

Lemma first_line_sound (s : string) :
  all_chars (fun c => negb (Ascii.eqb c newline)) (Dec.first_line s) = true
  /\ exists rest, s = Dec.first_line s ++ rest.
Proof.
  induction s as [| c s [IH1 [rest IH2]]]; cbn.
  - split; [reflexivity | now exists ""].
  - destruct (Ascii.eqb c newline) eqn:E; cbn.
    + split; [reflexivity | now eexists].
    + rewrite E. split; [exact IH1 |].
      exists rest. now rewrite <- IH2.
Qed.

Lemma first_line_append (f : string) (c : ascii) (x : string) :
  all_chars (fun c => negb (Ascii.eqb c newline)) f = true ->
  Ascii.eqb c newline = false ->
  Dec.first_line (f ++ String c x) = f ++ String c (Dec.first_line x).
Proof.
  intros Hf Hc. induction f as [| d f IH]; cbn in *.
  - now rewrite Hc.
  - apply andb_prop in Hf as [Hd Hf].
    apply negb_true_iff in Hd. now rewrite Hd, (IH Hf).
Qed.

Lemma greedy_group_sound (l g : string) :
  Dec.greedy_group l = Some g ->
  g <> "" /\ exists x, l = g ++ "}" ++ x.
Proof.
  revert g. induction l as [| c l IH]; intros g H; cbn in H; [discriminate |].
  destruct (Dec.greedy_group l) as [g' |].
  - injection H as <-. destruct (IH g' eq_refl) as [_ [x Hx]].
    split; [discriminate |]. exists x. cbn. f_equal. exact Hx.
  - destruct l as [| d l']; [discriminate |].
    destruct (Ascii.eqb_spec d "}") as [-> | Hd].
    + injection H as <-. split; [discriminate |]. now exists l'.
    + destruct d as [[|] [|] [|] [|] [|] [|] [|] [|]]; try discriminate.
      now contradiction Hd.
Qed.

Lemma greedy_group_cons (c : ascii) (r : string) :
  Dec.greedy_group (String c r)
  = match Dec.greedy_group r with
    | Some g => Some (String c g)
    | None => match r with
              | String "}"%char _ => Some (String c EmptyString)
              | _ => None
              end
    end.
Proof. reflexivity. Qed.

Lemma greedy_group_complete (c : ascii) (f x : string) :
  Dec.greedy_group (String c (f ++ "}" ++ x)) <> None.
Proof.
  revert c. induction f as [| d f IH]; intros c; rewrite greedy_group_cons.
  - cbn [append]. now destruct (Dec.greedy_group (String "}" x)).
  - specialize (IH d). cbn [append] in *.
    now destruct (Dec.greedy_group (String d (f ++ String "}" x))).
Qed.

Lemma match_header_sound (h count fields : string) :
  Dec.match_header h = Some (count, fields) -> header_pattern h.
Proof.
  unfold Dec.match_header. intros H.
  destruct (Dec.strip_prefix "sensordata[" h) as [r1 |] eqn:E1; [| discriminate].
  apply strip_prefix_sound in E1.
  destruct (span_digits_sound r1) as [S1 S2].
  destruct (Dec.span_digits r1) as [cnt r2]; cbn in S1, S2.
  destruct cnt as [| c0 cnt]; [discriminate |].
  destruct (Dec.strip_prefix "]{" r2) as [r3 |] eqn:E3; [| discriminate].
  apply strip_prefix_sound in E3.
  destruct (Dec.greedy_group (Dec.first_line r3)) as [g |] eqn:E4;
    [| discriminate].
  injection H as <- <-.
  destruct (greedy_group_sound _ _ E4) as [Hg [x Hx]].
  destruct (first_line_sound r3) as [L1 [rest L2]].
  exists (String c0 cnt), g, (x ++ rest).
  split; [| split; [discriminate | split; [exact S2 | split; [exact Hg |]]]].
  - rewrite E1, S1, E3, L2, Hx. cbn. do 2 f_equal.
    now rewrite append_assoc.
  - rewrite Hx in L1. clear - L1.
    induction g as [| a g IH]; cbn in *; [reflexivity |].
    apply andb_prop in L1 as [La Lg]. now rewrite La, (IH Lg).
Qed.

Lemma match_header_complete (h : string) :
  header_pattern h -> Dec.match_header h <> None.
Proof.
  intros (count & fields & rest & -> & Hc & Hd & Hf & Hn).
  unfold Dec.match_header.
  change ("sensordata[" ++ count ++ "]{" ++ fields ++ "}" ++ rest)
    with ("sensordata[" ++ (count ++ String "]" ("{" ++ fields ++ "}" ++ rest))).
  rewrite strip_prefix_append.
  rewrite (span_digits_append count "]" _ Hd eq_refl).
  destruct count as [| c0 count]; [contradiction |].
  cbn [Dec.strip_prefix Ascii.eqb Bool.eqb].
  change ("{" ++ fields ++ "}" ++ rest) with (String "{" (fields ++ String "}" rest)).
  cbn [Dec.strip_prefix Ascii.eqb Bool.eqb].
  rewrite (first_line_append fields "}" rest Hn eq_refl).
  destruct fields as [| f0 fields]; [contradiction |].
  destruct (Dec.greedy_group (String f0 fields ++ String "}" (Dec.first_line rest)))
    eqn:G; [discriminate |].
  exfalso. exact (greedy_group_complete f0 fields (Dec.first_line rest) G).
Qed.

Lemma match_header_none_iff (h : string) :
  Dec.match_header h = None <-> ~ header_pattern h.
Proof.
  split.
  - intros H P. now apply match_header_complete in P.
  - intros H. destruct (Dec.match_header h) as [[count fields] |] eqn:E;
      [| reflexivity].
    contradiction H. eapply match_header_sound; eassumption.
Qed.

(** ** When the decoder raises *)

Lemma split_not_nil (sep : ascii) (s : string) : split sep s <> [].
Proof.
  destruct s as [| c s]; cbn; [discriminate |].
  destruct (Ascii.eqb c sep); [discriminate |].
  destruct (split sep s); discriminate.
Qed.

Lemma decode_strings_raises (new : dict json) (meta body : string) :
  raised (Dec.decode_strings new meta body) = true
  <-> Dec.match_header (body_header body) = None.
Proof.
  unfold Dec.decode_strings, body_header.
  pose proof (split_not_nil Dec.RECORD_SEP (drop (String.length "BODY|") body)) as N.
  destruct (split Dec.RECORD_SEP (drop (String.length "BODY|") body))
    as [| header data_rows]; [contradiction |].
  cbn [hd].
  destruct (Dec.match_header header) as [[count fields] |]; cbn.
  - split; discriminate.
  - split; reflexivity.
Qed.

(** C8.  For a payload whose [data] is a dict with string (or absent)
    [meta] and [body], the decoder raises, and so returns no output at
    all, exactly when [meta] does not start with [META&], or [body] does
    not start with [BODY|], or the header of the body does not match
    [sensordata[<count>]{<fields>}].  A decoded payload, whose [data] is
    [{"sensordata": ...}], has no [meta] and is rejected. *)
Theorem decode_raises_iff (obj data : dict json) :
  dict_find obj "data" = Some (JDict data) ->
  (forall meta body : string,
      dict_get data "meta" (JStr "") = JStr meta ->
      dict_get data "body" (JStr "") = JStr body ->
      (raised (Dec.decode obj) = true
       <-> startswith meta "META&" = false
           \/ startswith body "BODY|" = false
           \/ ~ header_pattern (body_header body)))
  /\ (forall records : json,
         data = [("sensordata", records)] ->
         Dec.decode obj
         = Raise (ValueError "Not valid COIL META/BODY format")).
Proof.
  intros Hd. split.
  - intros meta body Hm Hb.
    unfold Dec.decode. rewrite Hd, Hm, Hb.
    rewrite <- match_header_none_iff.
    destruct (startswith meta "META&"); cbn [negb].
    + destruct (startswith body "BODY|"); cbn [negb].
      * rewrite decode_strings_raises.
        split; [auto | intros [H | [H | H]]; [discriminate .. | exact H]].
      * split; [auto | reflexivity].
    + split; [auto | reflexivity].
  - intros records ->. unfold Dec.decode. now rewrite Hd.
Qed.

Lemma decode_raises_iff_witness :
  (forall meta body : string,
      dict_get [("sensordata",
                 JList [JDict [("temp", JStr "21.5"); ("unit", JStr "C")]])]
               "meta" (JStr "") = JStr meta ->
      dict_get [("sensordata",
                 JList [JDict [("temp", JStr "21.5"); ("unit", JStr "C")]])]
               "body" (JStr "") = JStr body ->
      (raised (Dec.decode decoded_payload) = true
       <-> startswith meta "META&" = false
           \/ startswith body "BODY|" = false
           \/ ~ header_pattern (body_header body)))
  /\ (forall records : json,
         [("sensordata",
           JList [JDict [("temp", JStr "21.5"); ("unit", JStr "C")]])]
         = [("sensordata", records)] ->
         Dec.decode decoded_payload
         = Raise (ValueError "Not valid COIL META/BODY format")).
Proof.
  apply (decode_raises_iff decoded_payload
           [("sensordata",
             JList [JDict [("temp", JStr "21.5"); ("unit", JStr "C")]])]).
  reflexivity.
Defined.

(** ** The order of strings *)

Lemma str_lt_trans (a b c : string) : str_lt a b -> str_lt b c -> str_lt a c.
Proof.
  unfold str_lt, String.ltb. intros H1 H2.
  destruct (String.compare a b) eqn:E1; try discriminate.
  destruct (String.compare b c) eqn:E2; try discriminate.
  apply String_as_OT.cmp_lt in E1, E2.
  pose proof (String_as_OT.lt_trans _ _ _ E1 E2) as H.
  apply String_as_OT.cmp_lt in H. unfold String_as_OT.cmp in H. now rewrite H.
Qed.

Lemma str_lt_irrefl (a : string) : ~ str_lt a a.
Proof.
  unfold str_lt, String.ltb. intros H.
  destruct (String.compare a a) eqn:E; try discriminate.
  apply String_as_OT.cmp_lt in E.
  apply String_as_OT.lt_not_eq in E. apply E. reflexivity.
Qed.

Lemma str_lt_total (a b : string) :
  String.ltb a b = false -> a <> b -> str_lt b a.
Proof.
  unfold str_lt, String.ltb. intros H N.
  rewrite (String.compare_antisym b a).
  destruct (String.compare a b) eqn:E; cbn; try discriminate; [| reflexivity].
  now apply String.compare_eq_iff in E.
Qed.

(** ** Sets and sorting *)

Lemma mem_In (x : string) (l : list string) : mem x l = true <-> In x l.
Proof.
  unfold mem. rewrite existsb_exists. split.
  - intros (y & Hy & E). apply String.eqb_eq in E. now subst.
  - intros H. exists x. split; [exact H | apply String.eqb_refl].
Qed.

Lemma set_add_In (x y : string) (s : list string) :
  In y (set_add x s) <-> y = x \/ In y s.
Proof.
  unfold set_add. destruct (mem x s) eqn:E.
  - apply mem_In in E. split; [auto | intros [-> | H]; assumption].
  - rewrite in_app_iff. cbn. intuition.
Qed.

Lemma set_add_NoDup (x : string) (s : list string) :
  NoDup s -> NoDup (set_add x s).
Proof.
  intros H. unfold set_add. destruct (mem x s) eqn:E; [exact H |].
  apply NoDup_app; [exact H | repeat constructor; intros [] | ].
  intros a Ha [<- | []].
  apply mem_In in Ha. congruence.
Qed.

Lemma fold_set_add (l acc : list string) :
  let s := fold_left (fun s x => set_add x s) l acc in
  (NoDup acc -> NoDup s) /\ (forall y, In y s <-> In y acc \/ In y l).
Proof.
  revert acc. induction l as [| x l IH]; intros acc; cbn.
  - split; [auto | intuition].
  - destruct (IH (set_add x acc)) as [IH1 IH2]. split.
    + intros H. apply IH1. now apply set_add_NoDup.
    + intros y. rewrite IH2, set_add_In. intuition.
Qed.

Lemma set_of_NoDup (l : list string) : NoDup (set_of l).
Proof. apply (fold_set_add l []). constructor. Qed.

Lemma set_of_In (l : list string) (y : string) : In y (set_of l) <-> In y l.
Proof.
  unfold set_of. rewrite (proj2 (fold_set_add l [])). cbn. intuition.
Qed.

Lemma insert_perm {A} (before : A -> A -> bool) (x : A) (l : list A) :
  Permutation (insert before x l) (x :: l).
Proof.
  induction l as [| y l IH]; cbn; [reflexivity |].
  destruct (before y x); [| reflexivity].
  rewrite IH. apply perm_swap.
Qed.

Lemma stable_sort_perm {A} (before : A -> A -> bool) (l : list A) :
  Permutation (stable_sort before l) l.
Proof.
  induction l as [| x l IH]; cbn; [reflexivity |].
  rewrite insert_perm. now constructor.
Qed.

Lemma insert_sorted (x : string) (l : list string) :
  StronglySorted str_lt l -> ~ In x l ->
  StronglySorted str_lt (insert String.ltb x l).
Proof.
  induction 1 as [| y l Hs IH Hy]; intros Hx; cbn.
  - repeat constructor.
  - destruct (String.ltb y x) eqn:E.
    + constructor.
      * apply IH. intros H. apply Hx. now right.
      * eapply Permutation_Forall.
        -- symmetry. apply insert_perm.
        -- constructor; assumption.
    + assert (L : str_lt x y).
      { apply str_lt_total; [exact E |]. intros ->. apply Hx. now left. }
      constructor; [now constructor |].
      constructor; [exact L |].
      eapply Forall_impl; [| exact Hy].
      intros z Hz. eapply str_lt_trans; eassumption.
Qed.

Lemma sorted_sorted (l : list string) :
  NoDup l -> StronglySorted str_lt (sorted l).
Proof.
  induction 1 as [| x l Hx Hn IH]; cbn; [constructor |].
  apply insert_sorted; [exact IH |].
  intros H. apply Hx.
  eapply Permutation_in; [apply stable_sort_perm | exact H].
Qed.

Lemma sorted_In (l : list string) (x : string) : In x (sorted l) <-> In x l.
Proof.
  split; apply Permutation_in;
    [| symmetry]; apply stable_sort_perm.
Qed.

Lemma strictly_sorted_NoDup (l : list string) :
  StronglySorted str_lt l -> NoDup l.
Proof.
  induction 1 as [| x l Hs IH Hx]; constructor; [| exact IH].
  intros H. rewrite Forall_forall in Hx.
  exact (str_lt_irrefl x (Hx x H)).
Qed.

Lemma strictly_sorted_unique (l1 l2 : list string) :
  StronglySorted str_lt l1 -> StronglySorted str_lt l2 ->
  (forall x, In x l1 <-> In x l2) -> l1 = l2.
Proof.
  intros H1. revert l2.
  induction H1 as [| a l1 Hs1 IH Ha]; intros l2 H2 E.
  - destruct l2 as [| b l2]; [reflexivity |].
    destruct (proj2 (E b) (or_introl eq_refl)).
  - destruct H2 as [| b l2 Hs2 Hb].
    + destruct (proj1 (E a) (or_introl eq_refl)).
    + rewrite Forall_forall in Ha, Hb.
      assert (a = b) as ->.
      { destruct (proj1 (E a) (or_introl eq_refl)) as [-> | Hin]; [reflexivity |].
        destruct (proj2 (E b) (or_introl eq_refl)) as [-> | Hin']; [reflexivity |].
        exfalso. apply (str_lt_irrefl a).
        eapply str_lt_trans; [apply Ha, Hin' | apply Hb, Hin]. }
      f_equal. apply IH; [exact Hs2 |].
      intros x. split; intros Hx.
      * destruct (proj1 (E x) (or_intror Hx)) as [<- | ?]; [| assumption].
        exfalso. exact (str_lt_irrefl _ (Ha _ Hx)).
      * destruct (proj2 (E x) (or_intror Hx)) as [<- | ?]; [| assumption].
        exfalso. exact (str_lt_irrefl _ (Hb _ Hx)).
Qed.

(** ** The key order *)

Lemma flat_keys_In (records : list (dict json)) (k : string) :
  In k (flat_map keys records) <-> field_of records k.
Proof. unfold field_of. now rewrite in_flat_map. Qed.

Lemma key_order_sorted (records : list (dict json)) :
  StronglySorted str_lt (Enc.key_order_of records).
Proof. apply sorted_sorted, set_of_NoDup. Qed.

Lemma key_order_In (records : list (dict json)) (k : string) :
  In k (Enc.key_order_of records) <-> field_of records k.
Proof.
  unfold Enc.key_order_of. now rewrite sorted_In, set_of_In, flat_keys_In.
Qed.

(** C7.  The Key Order of a dataset is strictly increasing in the order
    of strings (so sorted and without repeats), its members are the
    field names that occur in some record, it does not depend on the
    order in which the set of names is iterated, and two datasets with
    the same field names have the same Key Order, whatever the order of
    their records and of the keys inside them. *)
Theorem key_order_sorted_union (records : list (dict json)) :
  StronglySorted str_lt (Enc.key_order_of records)
  /\ NoDup (Enc.key_order_of records)
  /\ (forall k, In k (Enc.key_order_of records) <-> field_of records k)
  /\ (forall names : list string,
         NoDup names -> (forall k, In k names <-> field_of records k) ->
         sorted names = Enc.key_order_of records)
  /\ (forall records' : list (dict json),
         (forall k, field_of records' k <-> field_of records k) ->
         Enc.key_order_of records' = Enc.key_order_of records).
Proof.
  split; [apply key_order_sorted |].
  split; [apply strictly_sorted_NoDup, key_order_sorted |].
  split; [apply key_order_In |].
  split.
  - intros names Hn Hk. apply strictly_sorted_unique.
    + now apply sorted_sorted.
    + apply key_order_sorted.
    + intros x. now rewrite sorted_In, Hk, key_order_In.
  - intros records' H. apply strictly_sorted_unique;
      [apply key_order_sorted .. |].
    intros x. now rewrite !key_order_In.
Qed.

(** ** Decimal numerals *)

Lemma all_chars_append (p : ascii -> bool) (a b : string) :
  all_chars p (a ++ b) = all_chars p a && all_chars p b.
Proof.
  induction a as [| c a IH]; cbn; [reflexivity |].
  now rewrite IH, andb_assoc.
Qed.

Lemma str_nat_digits (n : nat) : all_chars is_digit (str_nat n) = true.
Proof.
  unfold str_nat. generalize (Nat.to_uint n) as d.
  induction d; cbn; auto.
Qed.

Lemma str_nat_inj (a b : nat) : str_nat a = str_nat b -> a = b.
Proof.
  unfold str_nat. intros H.
  apply (f_equal NilEmpty.uint_of_string) in H.
  rewrite !NilEmpty.usu in H. injection H as H.
  apply (f_equal Nat.of_uint) in H.
  now rewrite !Unsigned.of_to in H.
Qed.

Lemma append_inj_l (p a b : string) : p ++ a = p ++ b -> a = b.
Proof. induction p as [| c p IH]; cbn; [auto |]. intros H. injection H. auto. Qed.

(** ** Tokens *)

Lemma digit_is_word (c : ascii) : is_digit c = true -> is_word c = true.
Proof.
  unfold is_digit, is_word. cbn zeta. intros ->. reflexivity.
Qed.

Lemma digit_lower (c : ascii) : is_digit c = true -> lower_char c = c.
Proof.
  unfold is_digit, lower_char, between. intros H.
  apply andb_prop in H as [H1 H2].
  apply Nat.leb_le in H1, H2.
  assert (E1 : (65 <=? code c)%nat = false) by (apply Nat.leb_gt; lia).
  assert (E2 : (192 <=? code c)%nat = false) by (apply Nat.leb_gt; lia).
  cbv zeta. now rewrite E1, E2.
Qed.

Lemma digits_lower (d : string) :
  all_chars is_digit d = true -> lower d = d.
Proof.
  induction d as [| c d IH]; cbn; [reflexivity |].
  intros H. apply andb_prop in H as [Hc Hd].
  unfold lower in IH. now rewrite (digit_lower c Hc), (IH Hd).
Qed.

Lemma digits_word (d : string) :
  all_chars is_digit d = true -> all_chars is_word d = true.
Proof.
  induction d as [| c d IH]; cbn; [reflexivity |].
  intros H. apply andb_prop in H as [Hc Hd].
  now rewrite (digit_is_word c Hc), (IH Hd).
Qed.

Lemma tokenish_lower (t : string) :
  tokenish t ->
  exists d, t = String "V" d /\ lower t = String "v" d
            /\ all_chars is_word (lower t) = true.
Proof.
  intros (d & -> & Hd). exists d.
  assert (L : lower (String "V" d) = String "v" d).
  { change (lower (String "V" d)) with (String "v" (lower d)).
    now rewrite (digits_lower d Hd). }
  rewrite L. repeat split. cbn. now apply digits_word.
Qed.

Lemma tokenish_lower_inj (a b : string) :
  tokenish a -> tokenish b -> lower a = lower b -> a = b.
Proof.
  intros Ha Hb E.
  destruct (tokenish_lower a Ha) as (da & -> & La & _).
  destruct (tokenish_lower b Hb) as (db & -> & Lb & _).
  rewrite La, Lb in E. now injection E as ->.
Qed.

Lemma tokenish_append (t : string) (n : nat) :
  tokenish t -> tokenish (t ++ str_nat n).
Proof.
  intros (d & -> & Hd). exists (d ++ str_nat n). split; [reflexivity |].
  now rewrite all_chars_append, Hd, str_nat_digits.
Qed.

Lemma tokenish_V (i : nat) : tokenish ("V" ++ str_nat i).
Proof. exists (str_nat i). split; [reflexivity | apply str_nat_digits]. Qed.

(** ** Whole-word search *)

Lemma last_or_word (prev : option ascii) (lit : string) :
  lit <> "" -> all_chars is_word lit = true ->
  Enc.wordb (Enc.last_or prev lit) = true.
Proof.
  revert prev. induction lit as [| c lit IH]; intros prev N H; [contradiction |].
  cbn in H. apply andb_prop in H as [Hc Hl]. cbn.
  destruct lit as [| d lit]; [exact Hc |].
  apply IH; [discriminate | exact Hl].
Qed.

Lemma word_run_prefix (lit text : string) :
  all_chars is_word lit = true ->
  String.prefix lit text = true ->
  Enc.wordb (Enc.head (drop (String.length lit) text)) = false ->
  word_run text = lit.
Proof.
  revert text. induction lit as [| c lit IH]; intros text Hw Hp Hn.
  - cbn in Hn. destruct text as [| a text]; [reflexivity |].
    cbn in Hn |- *. now rewrite Hn.
  - destruct text as [| a text]; [discriminate |].
    cbn in Hw, Hp, Hn. apply andb_prop in Hw as [Hc Hl].
    destruct (ascii_dec c a) as [<- |]; [| discriminate].
    cbn. rewrite Hc. f_equal. now apply IH.
Qed.

Lemma search_in_runs (lit text : string) (prev : option ascii) :
  lit <> "" -> all_chars is_word lit = true ->
  Enc.search_from prev lit text = true -> In lit (runs text).
Proof.
  intros N W. revert prev.
  induction text as [| c text IH]; intros prev H; cbn in H.
  - rewrite orb_false_r in H. unfold Enc.match_here in H.
    destruct lit; [contradiction | discriminate].
  - apply orb_prop in H as [H | H].
    + unfold Enc.match_here in H.
      apply andb_prop in H as [H Hb]. apply andb_prop in H as [Hp _].
      unfold Enc.boundary in Hb. rewrite (last_or_word prev lit N W) in Hb.
      left. apply word_run_prefix; [exact W | exact Hp |].
      now destruct (Enc.wordb _).
    + right. eapply IH, H.
Qed.

Lemma collision_in_runs (tok text : string) :
  tokenish tok -> Enc._word_collision tok text = true ->
  In (lower tok) (runs text).
Proof.
  intros T H. destruct (tokenish_lower tok T) as (d & -> & L & W).
  unfold Enc._word_collision, Enc.re_search_word in H.
  eapply search_in_runs; [| exact W | exact H].
  rewrite L. discriminate.
Qed.

Lemma runs_length (text : string) :
  List.length (runs text) = String.length text.
Proof. induction text; cbn; congruence. Qed.

(** ** The suffix loop finds a free token *)

(** What the loop returns: the candidate of some [m], every candidate
    before it having failed the test. *)
Lemma next_free_form (bad : string -> bool) (tok : string) (fuel n : nat) :
  exists m, Enc.next_free bad tok fuel n = tok ++ str_nat m
            /\ n <= m
            /\ (forall j, n <= j < m -> bad (tok ++ str_nat j) = true).
Proof.
  revert n. induction fuel as [| f IH]; intros n; cbn.
  - exists n. split; [reflexivity | split; [lia | intros j Hj; lia]].
  - destruct (bad (tok ++ str_nat n)) eqn:E.
    + destruct (IH (S n)) as (m & R & L & B).
      exists m. split; [exact R | split; [lia |]].
      intros j Hj. destruct (Nat.eq_dec j n) as [-> | N]; [exact E |].
      apply B. lia.
    + exists n. split; [reflexivity | split; [lia | intros j Hj; lia]].
Qed.

Lemma next_free_cases (bad : string -> bool) (tok : string) (fuel n : nat) :
  bad (Enc.next_free bad tok fuel n) = false
  \/ (forall k, k < fuel -> bad (tok ++ str_nat (n + k)) = true).
Proof.
  revert n. induction fuel as [| f IH]; intros n; cbn.
  - right. intros k Hk. lia.
  - destruct (bad (tok ++ str_nat n)) eqn:E; [| now left].
    destruct (IH (S n)) as [H | H]; [now left | right].
    intros [| k] Hk.
    + now rewrite Nat.add_0_r.
    + rewrite Nat.add_succ_r. apply H. lia.
Qed.

(** Fewer candidates can be taken than the text has positions and the
    set has members. *)
Lemma taken_candidates_bound (text : string) (used : list string)
      (tok : string) (fuel n : nat) :
  tokenish tok ->
  (forall k, k < fuel ->
     Enc._word_collision (tok ++ str_nat (n + k)) text
     || mem (tok ++ str_nat (n + k)) used = true) ->
  fuel <= String.length text + List.length used.
Proof.
  intros T H.
  set (cand := fun k => tok ++ str_nat (n + k)).
  set (f := fun c : string => if mem c used then inl c else inr (lower c)).
  set (C := map cand (seq 0 fuel)).
  assert (HC : forall c, In c C -> exists k, k < fuel /\ c = cand k).
  { intros c Hc. apply in_map_iff in Hc as (k & <- & Hk).
    apply in_seq in Hk. exists k. split; [lia | reflexivity]. }
  assert (ND : NoDup (map f C)).
  { apply NoDup_map_NoDup_ForallPairs.
    - intros a b Ha Hb E.
      destruct (HC a Ha) as (ka & _ & ->), (HC b Hb) as (kb & _ & ->).
      unfold f in E.
      destruct (mem (cand ka) used), (mem (cand kb) used);
        try discriminate; injection E as E; [exact E |].
      apply tokenish_lower_inj; [apply tokenish_append, T .. | exact E].
    - apply NoDup_map_NoDup_ForallPairs; [| apply seq_NoDup].
      intros a b _ _ E. unfold cand in E.
      apply append_inj_l, str_nat_inj in E. lia. }
  assert (IN : incl (map f C) (map inl used ++ map inr (runs text))).
  { intros y Hy. apply in_map_iff in Hy as (c & <- & Hc).
    destruct (HC c Hc) as (k & Hk & ->).
    specialize (H k Hk). fold (cand k) in H. unfold f.
    apply in_or_app.
    destruct (mem (cand k) used) eqn:M.
    - left. apply in_map. now apply mem_In.
    - right. apply in_map. rewrite orb_false_r in H.
      apply collision_in_runs; [apply tokenish_append, T | exact H]. }
  pose proof (NoDup_incl_length ND IN) as L.
  unfold C in L.
  rewrite length_app, !length_map, length_seq, runs_length in L. lia.
Qed.

(** The token the loops settle on, for a test made of a collision with
    the payload text and membership in a finite set: it passes the test,
    and it has the shape of a token. *)
Lemma fresh_token_good (text : string) (used : list string)
      (in_used : string -> bool) (tok : string) :
  (forall c, in_used c = true -> In c used) ->
  tokenish tok ->
  let bad := fun c => Enc._word_collision c text || in_used c in
  let fuel := S (String.length text + List.length used) in
  bad (Enc.fresh_token bad fuel tok) = false
  /\ tokenish (Enc.fresh_token bad fuel tok).
Proof.
  intros U T bad fuel. unfold Enc.fresh_token.
  destruct (bad tok) eqn:B; [| now split].
  split.
  - destruct (next_free_cases bad tok fuel 1) as [H | H]; [exact H |].
    exfalso.
    assert (fuel <= String.length text + List.length used); [| subst fuel; lia].
    apply (taken_candidates_bound text used tok fuel 1 T).
    intros k Hk. specialize (H k Hk). unfold bad in H.
    apply orb_prop in H as [-> | H]; [reflexivity |].
    apply U, mem_In in H. rewrite H. apply orb_true_r.
  - destruct (next_free_form bad tok fuel 1) as (m & -> & _).
    now apply tokenish_append.
Qed.

(** ** More on dictionaries *)

Lemma dict_find_None {V} (d : dict V) (k : string) :
  dict_find d k = None <-> ~ In k (keys d).
Proof.
  induction d as [| [k' v'] d IH]; cbn; [tauto |].
  destruct (String.eqb_spec k' k) as [-> | N].
  - split; [discriminate | intros H; contradiction H; now left].
  - rewrite IH. tauto.
Qed.

Lemma dict_in_keys {V} (d : dict V) (k : string) :
  dict_in d k = true <-> In k (keys d).
Proof.
  unfold dict_in. pose proof (dict_find_None d k) as H.
  destruct (dict_find d k).
  - split; [intros _ | reflexivity].
    destruct (in_dec string_dec k (keys d)) as [I | I]; [exact I |].
    apply H in I. discriminate.
  - split; [discriminate |]. intros I. now apply H in I.
Qed.

Lemma dict_set_new {V} (d : dict V) (k : string) (v : V) :
  ~ In k (keys d) -> dict_set d k v = (d ++ [(k, v)])%list.
Proof.
  induction d as [| [k' v'] d IH]; cbn; [reflexivity |].
  intros H. destruct (String.eqb_spec k' k) as [-> | N].
  - contradiction H. now left.
  - f_equal. apply IH. tauto.
Qed.

Lemma dict_set_keys {V} (d : dict V) (k : string) (v : V) :
  In k (keys d) -> keys (dict_set d k v) = keys d.
Proof.
  induction d as [| [k' v'] d IH]; cbn; [contradiction |].
  intros H. destruct (String.eqb_spec k' k) as [-> | N]; [reflexivity |].
  cbn. f_equal. apply IH. destruct H; [contradiction | assumption].
Qed.

Lemma dict_set_keys_NoDup {V} (d : dict V) (k : string) (v : V) :
  NoDup (keys d) -> NoDup (keys (dict_set d k v)).
Proof.
  intros H. destruct (in_dec string_dec k (keys d)) as [I | I].
  - now rewrite dict_set_keys.
  - rewrite (dict_set_new d k v I). unfold keys. rewrite map_app. cbn.
    apply NoDup_app; [exact H | repeat constructor; intros [] |].
    intros a Ha [<- | []]. exact (I Ha).
Qed.

Lemma dict_set_values_In {V} (d : dict V) (k : string) (v x : V) :
  In x (values (dict_set d k v)) -> x = v \/ In x (values d).
Proof.
  induction d as [| [k' v'] d IH]; cbn.
  - intros [<- | []]. now left.
  - destruct (String.eqb k' k); cbn.
    + intros [<- | H]; auto.
    + intros [<- | H]; auto. destruct (IH H); auto.
Qed.

Lemma dict_set_values_NoDup {V} (d : dict V) (k : string) (v : V) :
  NoDup (values d) -> ~ In v (values d) -> NoDup (values (dict_set d k v)).
Proof.
  induction d as [| [k' v'] d IH]; cbn; intros H N.
  - repeat constructor. intros [].
  - inversion H as [| ? ? H1 H2]; subst.
    destruct (String.eqb k' k); cbn.
    + constructor; [tauto | exact H2].
    + constructor; [| apply IH; tauto].
      intros I. apply dict_set_values_In in I as [-> | I]; tauto.
Qed.

(** ** The proposals *)

Lemma propose_step_inv (payload_text : string) (st : Enc.proposal_state)
      (v : string) :
  propose_inv payload_text st ->
  propose_inv payload_text (Enc.propose_step payload_text st v).
Proof.
  intros (K & N & U & G). unfold Enc.propose_step.
  destruct (fresh_token_good payload_text (Enc.used st)
              (fun c => mem c (Enc.used st))
              ("V" ++ str_nat (Enc.next_i st))) as [B T].
  { intros c. apply mem_In. }
  { apply tokenish_V. }
  cbv zeta in B, T.
  set (tok := Enc.fresh_token _ _ _) in *.
  apply orb_false_elim in B as [B1 B2].
  assert (F : ~ In tok (Enc.used st)).
  { intros I. apply mem_In in I. congruence. }
  split; [| split; [| split]]; cbn.
  - now apply dict_set_keys_NoDup.
  - apply dict_set_values_NoDup; [exact N |]. intros I. exact (F (U _ I)).
  - intros t I. apply set_add_In.
    apply dict_set_values_In in I as [-> | I]; auto.
  - intros t I. apply set_add_In in I as [-> | I]; [now split | now apply G].
Qed.

Lemma propose_fold_inv (payload_text : string) (l : list string)
      (st : Enc.proposal_state) :
  propose_inv payload_text st ->
  propose_inv payload_text (fold_left (Enc.propose_step payload_text) l st).
Proof.
  revert st. induction l as [| v l IH]; intros st H; cbn; [exact H |].
  apply IH, propose_step_inv, H.
Qed.

Lemma proposals_good (repr_container : json -> string)
      (records : list (dict json)) (payload_text : string) (min_freq : Z) :
  good_proposals payload_text
    (fst (Enc._propose_value_tokens repr_container records payload_text
            min_freq)).
Proof.
  unfold Enc._propose_value_tokens. cbn [fst].
  destruct (propose_fold_inv payload_text
              (Enc.candidates
                 (Enc.Counter (Enc.all_values repr_container records))
                 min_freq)
              {| Enc.proposals := []; Enc.next_i := 1; Enc.used := [] |})
    as (K & N & U & G).
  { split; [constructor | split; [constructor | split; intros t []]]. }
  repeat split; try assumption; apply G, U; assumption.
Qed.

(** ** The greedy loop *)

Section Greedy.

Variable repr_container : json -> string.
Variable tiktoken : bool.
Variable enc : option (string -> list Z).
Variable compact : bool.
Variable records : list (dict json).
Variable key_order : list string.
Variable payload_text : string.

Local Abbreviation cost := (Enc._token_count tiktoken enc).
Local Abbreviation text_of :=
  (Enc.hypot_text repr_container compact records key_order).
Local Abbreviation step :=
  (Enc.try_candidate repr_container tiktoken enc compact records key_order
     payload_text).
Local Abbreviation base :=
  (Enc._token_count tiktoken enc
     (Enc.base_text repr_container compact records key_order)).
Local Abbreviation inv :=
  (opt_inv repr_container tiktoken enc compact records key_order).

Lemma hypot_text_nil :
  text_of [] = Enc.base_text repr_container compact records key_order.
Proof. reflexivity. Qed.

(** A trial is either dropped or accepted at a strictly lower cost. *)
Lemma try_candidate_cases (st : Enc.opt_state) (p : string * string) :
  let tok :=
    Enc.fresh_token
      (fun c => dict_in (Enc.accepted_vmap st) c
                || Enc._word_collision c payload_text)
      (S (String.length payload_text + List.length (Enc.accepted_vmap st)))
      (snd p) in
  step st p = st
  \/ (cost (text_of (Enc.accepted (step st p))) < Enc.current_tokens st)%Z
     /\ Enc.current_tokens (step st p)
        = cost (text_of (Enc.accepted (step st p)))
     /\ Enc.accepted (step st p) = dict_set (Enc.accepted st) (fst p) tok
     /\ Enc.accepted_vmap (step st p)
        = dict_set (Enc.accepted_vmap st) tok (fst p).
Proof.
  intros tok. unfold Enc.try_candidate. fold tok.
  match goal with
  | |- context [(?e >? 0)%Z] => destruct (Z.gtb_spec e 0) as [G | G]
  end; [right | now left].
  cbn [Enc.accepted Enc.accepted_vmap Enc.current_tokens].
  split; [lia | split; [reflexivity | split; reflexivity]].
Qed.

Lemma keys_swap (d : dict string) : keys (map swap d) = values d.
Proof. unfold keys, values. rewrite map_map. reflexivity. Qed.

Lemma incl_keys (a b : dict string) : incl a b -> incl (keys a) (keys b).
Proof. intros H k Hk. apply in_map_iff in Hk as (x & <- & Hx). apply in_map, H, Hx. Qed.

Lemma incl_values (a b : dict string) :
  incl a b -> incl (values a) (values b).
Proof. intros H k Hk. apply in_map_iff in Hk as (x & <- & Hx). apply in_map, H, Hx. Qed.

Lemma try_candidate_inv (done : dict string) (p : string * string)
      (st : Enc.opt_state) :
  ~ In (fst p) (keys done) -> ~ In (snd p) (values done) ->
  Enc._word_collision (snd p) payload_text = false ->
  inv done st -> inv (done ++ [p])%list (step st p).
Proof.
  intros Hk Hv Hc (I & M & C & B & S).
  assert (Fk : ~ In (fst p) (keys (Enc.accepted st))).
  { intros H. apply Hk. eapply incl_keys; eassumption. }
  assert (Fv : ~ In (snd p) (keys (Enc.accepted_vmap st))).
  { rewrite M, keys_swap. intros H. apply Hv. eapply incl_values; eassumption. }
  assert (Ft : forall fuel,
             Enc.fresh_token
               (fun c => dict_in (Enc.accepted_vmap st) c
                         || Enc._word_collision c payload_text)
               fuel (snd p) = snd p).
  { intros fuel. unfold Enc.fresh_token. rewrite Hc, orb_false_r.
    destruct (dict_in (Enc.accepted_vmap st) (snd p)) eqn:E; [| reflexivity].
    apply dict_in_keys in E. contradiction. }
  destruct (try_candidate_cases st p) as [-> | (L & E & _ & _)].
  - split; [| split; [exact M | split; [exact C | split; [exact B | exact S]]]].
    intros x Hx. apply in_or_app. left. now apply I.
  - assert (tok_eq : Enc.accepted (step st p)
                     = (Enc.accepted st ++ [p])%list
                     /\ Enc.accepted_vmap (step st p)
                        = (Enc.accepted_vmap st ++ [swap p])%list).
    { revert L E.
      unfold Enc.try_candidate in *.
      rewrite !Ft.
      match goal with
      | |- context [(?e >? 0)%Z] => destruct (e >? 0)%Z
      end; cbn [Enc.accepted Enc.accepted_vmap Enc.current_tokens];
        intros L E.
      - rewrite (dict_set_new _ _ _ Fk), (dict_set_new _ _ _ Fv).
        now destruct p.
      - lia. }
    destruct tok_eq as [A' V'].
    split; [| split; [| split; [| split]]].
    + rewrite A'. intros x Hx. apply in_app_or in Hx as [Hx | Hx];
        apply in_or_app; [left; now apply I | now right].
    + rewrite A', V', M, map_app. reflexivity.
    + exact E.
    + rewrite E. lia.
    + right. rewrite E. lia.
Qed.

Lemma optimize_fold_inv (todo done : dict string) (st : Enc.opt_state) :
  good_proposals payload_text (done ++ todo)%list ->
  inv done st ->
  inv (done ++ todo)%list (fold_left step todo st).
Proof.
  revert done st. induction todo as [| p todo IH]; intros done st G H; cbn.
  - now rewrite app_nil_r.
  - change (p :: todo) with ([p] ++ todo)%list in G |- *.
    rewrite app_assoc in G |- *.
    apply IH; [exact G |].
    destruct G as (K & N & T).
    unfold keys, values in K, N. rewrite !map_app in K, N.
    apply NoDup_app_remove_r in K, N.
    cbn in K, N. apply NoDup_remove_2 in K, N.
    rewrite app_nil_r in K, N.
    apply try_candidate_inv; try assumption.
    apply T. unfold values. rewrite !map_app. cbn.
    apply in_or_app. left. apply in_or_app. right. now left.
Qed.

Lemma optimize_inv (P : dict string) :
  good_proposals payload_text P ->
  inv P (Enc.optimize repr_container tiktoken enc compact records
               key_order payload_text P).
Proof.
  intros G. unfold Enc.optimize.
  apply (optimize_fold_inv P []); [exact G |].
  split; [intros x [] | split; [reflexivity | split; [reflexivity |]]].
  split; [apply Z.le_refl | now left].
Qed.

(** The tables [encode] ends with. *)
Lemma final_tables_inv (value_min_freq : Z) :
  let P := fst (Enc._propose_value_tokens repr_container records
                  payload_text value_min_freq) in
  let tables := Enc.final_tables repr_container tiktoken enc compact
                  records key_order payload_text value_min_freq in
  incl (fst tables) P
  /\ snd tables = map swap (fst tables)
  /\ (cost (text_of (fst tables)) <= base)%Z
  /\ (fst tables = [] \/ (cost (text_of (fst tables)) < base)%Z).
Proof.
  intros P tables. subst tables. unfold Enc.final_tables. fold P.
  pose proof (proposals_good repr_container records payload_text
                value_min_freq) as G. fold P in G.
  destruct (optimize_inv P G) as (I & M & C & B & S).
  destruct P as [| p P'].
  - cbn [fst snd].
    split; [intros x [] | split; [reflexivity | split]];
      [apply Z.le_refl | now left].
  - cbn [fst snd]. split; [exact I | split; [exact M |]].
    rewrite <- C. split; [exact B | exact S].
Qed.

(** The Meta text of the final tables, passthrough scalars apart, is
    the Meta text the loop measured. *)
Lemma final_meta_is_hypot_meta (table : dict string) :
  "META&" ++ join "&" (Enc.final_meta_parts compact key_order
                         (map swap table))
  = Enc.hypot_meta compact key_order table.
Proof.
  unfold Enc.final_meta_parts, Enc.hypot_meta.
  change (drop (String.length "META&")
            ("META&" ++ Enc.meta_decl compact key_order))
    with (Enc.meta_decl compact key_order).
  destruct table as [| p table]; [reflexivity |].
  cbn [map]. rewrite !map_map. reflexivity.
Qed.

End Greedy.

(** ** Whole words, letter case ignored *)

Lemma is_word_lower (c : ascii) : is_word (lower_char c) = is_word c.
Proof. destruct c as [[|] [|] [|] [|] [|] [|] [|] [|]]; reflexivity. Qed.

Lemma lower_append (a b : string) : lower (a ++ b) = lower a ++ lower b.
Proof. unfold lower. induction a as [| c a IH]; cbn; congruence. Qed.

Lemma last_or_append (prev : option ascii) (a b : string) :
  Enc.last_or prev (a ++ b) = Enc.last_or (Enc.last_or prev a) b.
Proof. revert prev. induction a as [| c a IH]; intros prev; cbn; auto. Qed.

Lemma wordb_last_or_lower (prev : option ascii) (s : string) :
  Enc.wordb (Enc.last_or (option_map lower_char prev) (lower s))
  = Enc.wordb (Enc.last_or prev s).
Proof.
  revert prev. induction s as [| c s IH]; intros prev; cbn.
  - destruct prev; cbn; [apply is_word_lower | reflexivity].
  - apply (IH (Some c)).
Qed.

Lemma wordb_last_lower (s : string) :
  Enc.wordb (Enc.last_or None (lower s)) = Enc.wordb (Enc.last_or None s).
Proof. exact (wordb_last_or_lower None s). Qed.

Lemma wordb_head_lower (s : string) :
  Enc.wordb (Enc.head (lower s)) = Enc.wordb (Enc.head s).
Proof. destruct s; cbn; [reflexivity | apply is_word_lower]. Qed.

Lemma drop_append (a b : string) : drop (String.length a) (a ++ b) = b.
Proof. induction a; cbn; auto. Qed.

Lemma search_from_unfold (prev : option ascii) (lit text : string) :
  Enc.search_from prev lit text
  = Enc.match_here prev lit text
    || match text with
       | EmptyString => false
       | String c r => Enc.search_from (Some c) lit r
       end.
Proof. destruct text; reflexivity. Qed.

Lemma search_complete (pre lit post : string) (prev : option ascii) :
  Enc.boundary (Enc.last_or prev pre) (Enc.head (lit ++ post)) = true ->
  Enc.boundary (Enc.last_or prev (pre ++ lit)) (Enc.head post) = true ->
  Enc.search_from prev lit (pre ++ lit ++ post) = true.
Proof.
  revert prev. induction pre as [| c pre IH]; intros prev B1 B2;
    rewrite search_from_unfold.
  - cbn [append Enc.last_or] in *. unfold Enc.match_here.
    fold (startswith (lit ++ post) lit).
    now rewrite startswith_append, drop_append, B1, B2.
  - cbn [append]. rewrite (IH (Some c)); [apply orb_true_r | exact B1 | exact B2].
Qed.

Lemma collision_ci (tok text : string) :
  tok <> "" ->
  Enc._word_collision tok (lower text) = false ->
  ~ occurs_as_word_ci tok text.
Proof.
  intros N H (w & L & pre & post & -> & B1 & B2).
  assert (S : Enc._word_collision tok (lower (pre ++ w ++ post)) = true);
    [| congruence].
  unfold Enc._word_collision, Enc.re_search_word.
  destruct tok as [| t0 tok]; [contradiction |].
  rewrite !lower_append, L.
  apply search_complete; unfold Enc.boundary.
  - rewrite <- L, <- lower_append.
    rewrite wordb_last_lower, wordb_head_lower. exact B1.
  - rewrite <- L, <- lower_append.
    rewrite wordb_last_lower, wordb_head_lower. exact B2.
Qed.

Lemma tokenish_not_empty (t : string) : tokenish t -> t <> "".
Proof. intros (d & -> & _). discriminate. Qed.

(** ** Token safety *)

Lemma optimize_vmap_keys_NoDup (repr_container : json -> string)
      (tiktoken : bool) (enc : option (string -> list Z)) (compact : bool)
      (records : list (dict json)) (key_order : list string)
      (payload_text : string) (P : dict string) :
  NoDup (keys (Enc.accepted_vmap
                 (Enc.optimize repr_container tiktoken enc compact records
                    key_order payload_text P))).
Proof.
  unfold Enc.optimize.
  match goal with
  | |- context [fold_left ?f P ?i] =>
      assert (H : NoDup (keys (Enc.accepted_vmap i))) by constructor;
      generalize dependent i
  end.
  induction P as [| p P IH]; intros st H; cbn [fold_left]; [exact H |].
  apply IH.
  destruct (try_candidate_cases repr_container tiktoken enc compact records
              key_order payload_text st p) as [-> | (_ & _ & _ & ->)];
    [exact H | now apply dict_set_keys_NoDup].
Qed.

(** What the encoder's check gives.  The tokens the optimizer proposes
    are pairwise distinct, none of them collides with the text the
    encoder checks against (the lowered JSON text of the payload), so
    none stands in the JSON text of the payload as a whole word, letter
    case ignored; and the tokens of the final value map are distinct and
    are among the proposed ones. *)
Theorem tokens_safe (repr_container : json -> string) (tiktoken : bool)
        (enc : option (string -> list Z)) (payload : dict json)
        (records : list (dict json)) (key_order : list string)
        (value_min_freq : Z) (compact : bool) :
  let payload_text := lower (dumps (JDict payload)) in
  let proposed :=
    fst (Enc._propose_value_tokens repr_container records payload_text
           value_min_freq) in
  let final_vmap :=
    snd (Enc.final_tables repr_container tiktoken enc compact records
           key_order payload_text value_min_freq) in
  NoDup (values proposed)
  /\ (forall tok, In tok (values proposed) ->
        Enc._word_collision tok payload_text = false
        /\ ~ occurs_as_word_ci tok (dumps (JDict payload)))
  /\ NoDup (keys final_vmap)
  /\ incl (keys final_vmap) (values proposed).
Proof.
  intros payload_text proposed final_vmap.
  destruct (proposals_good repr_container records payload_text value_min_freq)
    as (K & N & T). fold proposed in K, N, T.
  split; [exact N | split; [| split]].
  - intros tok I. destruct (T tok I) as [Tk C]. split; [exact C |].
    apply collision_ci; [now apply tokenish_not_empty | exact C].
  - subst final_vmap. unfold Enc.final_tables. fold proposed.
    destruct proposed; cbn [snd]; [constructor |].
    apply optimize_vmap_keys_NoDup.
  - destruct (final_tables_inv repr_container tiktoken enc compact records
                key_order payload_text value_min_freq) as (I & M & _).
    fold proposed in I. fold final_vmap in M.
    rewrite M, keys_swap. now apply incl_values.
Qed.

(** C6, the failing input.  The encoder looks for a token in the JSON
    text of the payload, not in the payload's own strings.  There a
    newline is written as a backslash and the letter [n]: the word [v1]
    that follows a newline in the question [q] stands in the JSON text
    inside [nv1], the check finds no whole word, and the token [V1] is
    assigned, for every oracle.  Without a tokenizer the substitution
    is accepted, and the encoder writes a Meta that declares [V1] and
    then carries the question, in which [v1] is a whole word that is
    the token with letter case ignored. *)
Theorem token_hidden_by_escape (repr_container : json -> string) :
  let payload_text := lower (dumps (JDict hidden_word_payload)) in
  let meta_before :=
    "META&ORDER=temperature,unit&vmap=V1:degrees-celsius&q="
      ++ String newline "" in
  Enc._word_collision "V1" payload_text = false
  /\ fst (Enc._propose_value_tokens repr_container long_records
             payload_text 2)
     = [("degrees-celsius", "V1")]
  /\ Enc.encode repr_container false None hidden_word_payload 2 true
     = Ok [("q", JStr newline_question);
           ("data",
            coil (meta_before ++ "v1")
              "sensordata[3]{temperature,unit}|21.5,V1|19.0,V1|20.1,V1")]
  /\ occurs_as_word_ci "V1" newline_question
  /\ lower "v1" = lower "V1"
  /\ Enc.boundary (Enc.last_or None meta_before) (Enc.head "v1") = true
  /\ Enc.boundary (Enc.last_or None (meta_before ++ "v1")) (Enc.head "")
     = true.
Proof.
  intros payload_text meta_before.
  split; [reflexivity | split; [reflexivity | split; [reflexivity |]]].
  split; [| now repeat split].
  exists "v1". split; [reflexivity |].
  exists (String newline ""), "". now repeat split.
Qed.

(** ** Greedy monotonicity *)

Lemma join_snoc (sep : string) (l : list string) (e : string) :
  l <> [] -> join sep (l ++ [e]) = join sep l ++ sep ++ e.
Proof.
  unfold join. induction l as [| x l IH]; [contradiction |]. intros _.
  destruct l as [| y l]; [reflexivity |].
  change (String.concat sep ((x :: y :: l) ++ [e]))
    with (x ++ sep ++ String.concat sep ((y :: l) ++ [e])).
  rewrite IH by discriminate.
  change (String.concat sep (x :: y :: l))
    with (x ++ sep ++ String.concat sep (y :: l)).
  now rewrite !append_assoc.
Qed.

Lemma join_append_decls (parts extras : list string) :
  parts <> [] ->
  "META&" ++ join "&" (parts ++ extras)
  = append_decls ("META&" ++ join "&" parts) extras.
Proof.
  revert parts. induction extras as [| e extras IH]; intros parts N.
  - now rewrite app_nil_r.
  - change (e :: extras) with ([e] ++ extras)%list. rewrite app_assoc.
    rewrite IH by (destruct parts; discriminate).
    rewrite (join_snoc "&" parts e N). cbn [append_decls fold_left app].
    unfold append_decls. now rewrite append_assoc.
Qed.

Lemma final_meta_parts_not_nil (compact : bool) (key_order : list string)
      (final_vmap : dict string) :
  Enc.final_meta_parts compact key_order final_vmap <> [].
Proof. unfold Enc.final_meta_parts. now destruct final_vmap. Qed.

Lemma append_decls_length (extras : list string) (meta : string) :
  String.length (append_decls meta extras)
  = String.length meta
    + list_sum (map (fun e => S (String.length e)) extras).
Proof.
  revert meta. induction extras as [| e extras IH]; intros meta.
  - cbn. lia.
  - change (append_decls meta (e :: extras))
      with (append_decls (meta ++ "&" ++ e) extras).
    rewrite IH, !length_append. simpl. lia.
Qed.

(** The fallback heuristic grows with the length of the text. *)
Lemma fallback_monotone (a b : Z) :
  (a <= b)%Z -> (Z.max 1 ((a + 3) / 4) <= Z.max 1 ((b + 3) / 4))%Z.
Proof.
  intros H. apply Z.max_le_compat_l, Z.div_le_mono; lia.
Qed.

Lemma fallback_lower_shorter (a b : string) :
  (Z.max 1 ((len a + 3) / 4) < Z.max 1 ((len b + 3) / 4))%Z ->
  String.length a < String.length b.
Proof.
  intros H. destruct (Nat.lt_ge_cases (String.length a) (String.length b))
    as [L | L]; [exact L |].
  pose proof (fallback_monotone (len b) (len a)) as M.
  unfold len in *. lia.
Qed.

(** C4, against the claim.  First, without a tokenizer: the payload of
    the temperature scenario with a passthrough scalar [q] is emitted
    without any substitution, and the emitted Meta+Body text costs 22,
    more than the 17 of the baseline the encoder measured.  Second, with
    a tokenizer that merges [temperature,unit&q=] into one token: the
    substitution of [degrees-celsius] is accepted, and the emitted text
    costs 111, more than the 108 of the text the same payload gives with
    an empty substitution table. *)
Lemma final_text_can_cost_more :
  (Enc.encode (fun _ => "") false None scenario_payload_q 2 true
   = Ok [("q", JStr "mean temperature?");
         ("data", coil "META&ORDER=temp,unit&q=mean temperature?"
                    "sensordata[3]{temp,unit}|21.5,C|21.5,C|19.0,C")]
   /\ Enc._token_count false None
        ("META&ORDER=temp,unit&q=mean temperature?" ++ "|"
           ++ "sensordata[3]{temp,unit}|21.5,C|21.5,C|19.0,C") = 22%Z
   /\ Enc._token_count false None
        (Enc.base_text (fun _ => "") true scenario_records ["temp"; "unit"])
      = 17%Z)
  /\ (Enc.encode (fun _ => "") true (Some (merge_tokens 0)) long_payload_q 2
        true
      = Ok [("q", JStr "x");
            ("data",
             coil "META&ORDER=temperature,unit&vmap=V1:degrees-celsius&q=x"
               "sensordata[3]{temperature,unit}|21.5,V1|19.0,V1|20.1,V1")]
      /\ Enc._token_count true (Some (merge_tokens 0))
           ("META&ORDER=temperature,unit&vmap=V1:degrees-celsius&q=x" ++ "|"
              ++ "sensordata[3]{temperature,unit}|21.5,V1|19.0,V1|20.1,V1")
         = 111%Z
      /\ Enc._token_count true (Some (merge_tokens 0))
           (append_decls
              (Enc.hypot_meta true ["temperature"; "unit"] [])
              (Enc.passthrough (fun _ => "") long_payload_q)
              ++ "|"
              ++ Enc.build_body (fun _ => "") true long_records
                   ["temperature"; "unit"] [])
         = 108%Z).
Proof. repeat split; vm_compute; reflexivity. Qed.

(** C4, as amended.  For every payload with a record list, every cost
    oracle, both modes: the Meta+Body text of the table the encoder ends
    with, taken before the passthrough scalars are appended to Meta,
    costs no more than the baseline text of the empty table; the encoder
    emits that Meta with the passthrough scalars appended, and that
    body; when the oracle is the fallback heuristic, the emitted text,
    passthrough scalars included, costs no more than the text the same
    payload gives with the empty table; and a step of the greedy loop
    either leaves the state as it is or lowers the current cost
    strictly, to the cost of the text of the new table. *)
Theorem greedy_monotone (repr_container : json -> string) (tiktoken : bool)
        (enc : option (string -> list Z)) (payload : dict json)
        (data : json) (records : list (dict json)) (value_min_freq : Z)
        (compact : bool) :
  dict_find payload "data" = Some data ->
  Enc.records_of data = Ok records ->
  let cost := Enc._token_count tiktoken enc in
  let key_order := Enc.key_order_of records in
  let payload_text := lower (dumps (JDict payload)) in
  (exists table : dict string,
      let meta := Enc.hypot_meta compact key_order table in
      let body := Enc.build_body repr_container compact records key_order
                    table in
      (cost (meta ++ "|" ++ body)
       <= cost (Enc.base_text repr_container compact records key_order))%Z
      /\ Enc.encode repr_container tiktoken enc payload value_min_freq compact
         = Ok (dict_set payload "data"
                 (coil (append_decls meta
                          (Enc.passthrough repr_container payload)) body))
      /\ ((forall text, cost text = Z.max 1 ((len text + 3) / 4)) ->
          (cost (append_decls meta (Enc.passthrough repr_container payload)
                   ++ "|" ++ body)
           <= cost (append_decls (Enc.hypot_meta compact key_order [])
                      (Enc.passthrough repr_container payload)
                      ++ "|"
                      ++ Enc.build_body repr_container compact records
                           key_order []))%Z))
  /\ (forall (st : Enc.opt_state) (p : string * string),
         let st' := Enc.try_candidate repr_container tiktoken enc compact
                      records key_order payload_text st p in
         st' = st
         \/ (cost (Enc.hypot_text repr_container compact records key_order
                     (Enc.accepted st')) < Enc.current_tokens st)%Z
            /\ Enc.current_tokens st'
               = cost (Enc.hypot_text repr_container compact records
                         key_order (Enc.accepted st'))).
Proof.
  intros Hd Hr cost key_order payload_text. split.
  - destruct (final_tables_inv repr_container tiktoken enc compact records
                key_order payload_text value_min_freq) as (_ & M & C & S).
    exists (fst (Enc.final_tables repr_container tiktoken enc compact records
                   key_order payload_text value_min_freq)).
    split; [exact C | split].
    + unfold Enc.encode. rewrite Hd, Hr. cbn [bind].
      fold key_order. fold payload_text.
      rewrite M, join_append_decls by apply final_meta_parts_not_nil.
      now rewrite final_meta_is_hypot_meta.
    + intros F. destruct S as [-> | S]; [apply Z.le_refl |].
      fold cost in S. unfold Enc.hypot_text in S.
      change (Enc.base_text repr_container compact records key_order)
        with (Enc.hypot_meta compact key_order [] ++ "|"
                ++ Enc.build_body repr_container compact records key_order [])
        in S.
      rewrite !F in S |- *. apply fallback_lower_shorter in S.
      apply fallback_monotone. unfold len.
      rewrite !length_append, !append_decls_length in *. lia.
  - intros st p st'.
    destruct (try_candidate_cases repr_container tiktoken enc compact records
                key_order payload_text st p) as [H | (L & E & _)];
      [now left | right; now split].
Qed.

Lemma greedy_monotone_witness :
  (exists table : dict string,
      (Enc._token_count false None
         (Enc.hypot_meta true (Enc.key_order_of scenario_records) table
            ++ "|"
            ++ Enc.build_body (fun _ => "") true scenario_records
                 (Enc.key_order_of scenario_records) table)
       <= Enc._token_count false None
            (Enc.base_text (fun _ => "") true scenario_records
               (Enc.key_order_of scenario_records)))%Z
      /\ Enc.encode (fun _ => "") false None scenario_payload 2 true
         = Ok (dict_set scenario_payload "data"
                 (coil (append_decls
                          (Enc.hypot_meta true
                             (Enc.key_order_of scenario_records) table)
                          (Enc.passthrough (fun _ => "") scenario_payload))
                    (Enc.build_body (fun _ => "") true scenario_records
                       (Enc.key_order_of scenario_records) table)))
      /\ ((forall text,
             Enc._token_count false None text
             = Z.max 1 ((len text + 3) / 4)) ->
          (Enc._token_count false None
             (append_decls
                (Enc.hypot_meta true (Enc.key_order_of scenario_records)
                   table)
                (Enc.passthrough (fun _ => "") scenario_payload)
                ++ "|"
                ++ Enc.build_body (fun _ => "") true scenario_records
                     (Enc.key_order_of scenario_records) table)
           <= Enc._token_count false None
                (append_decls
                   (Enc.hypot_meta true (Enc.key_order_of scenario_records)
                      [])
                   (Enc.passthrough (fun _ => "") scenario_payload)
                   ++ "|"
                   ++ Enc.build_body (fun _ => "") true scenario_records
                        (Enc.key_order_of scenario_records) []))%Z))
  /\ (forall (st : Enc.opt_state) (p : string * string),
         Enc.try_candidate (fun _ => "") false None true scenario_records
           (Enc.key_order_of scenario_records)
           (lower (dumps (JDict scenario_payload))) st p = st
         \/ (Enc._token_count false None
               (Enc.hypot_text (fun _ => "") true scenario_records
                  (Enc.key_order_of scenario_records)
                  (Enc.accepted
                     (Enc.try_candidate (fun _ => "") false None true
                        scenario_records (Enc.key_order_of scenario_records)
                        (lower (dumps (JDict scenario_payload))) st p)))
             < Enc.current_tokens st)%Z
            /\ Enc.current_tokens
                 (Enc.try_candidate (fun _ => "") false None true
                    scenario_records (Enc.key_order_of scenario_records)
                    (lower (dumps (JDict scenario_payload))) st p)
               = Enc._token_count false None
                   (Enc.hypot_text (fun _ => "") true scenario_records
                      (Enc.key_order_of scenario_records)
                      (Enc.accepted
                         (Enc.try_candidate (fun _ => "") false None true
                            scenario_records
                            (Enc.key_order_of scenario_records)
                            (lower (dumps (JDict scenario_payload))) st p)))).
Proof.
  apply (greedy_monotone (fun _ => "") false None scenario_payload
           (JDict [("sensordata", JList (map JDict scenario_records))])
           scenario_records 2 true); reflexivity.
Defined.

(** ** The temperature scenario *)

(** C5, against the claim.  With minimum frequency 2 the candidates of
    the scenario are processed in the order [21.5], [C]: the benefit of
    [21.5] is 2 x 4 = 8, the one of [C] is 3 x 1 = 3, and the ranking is
    by benefit, descending.  The optimizer tries [21.5] first. *)
Lemma scenario_tries_21_5_first :
  Enc.Counter (Enc.all_values (fun _ => "") scenario_records)
  = [("21.5", 2%Z); ("C", 3%Z); ("19.0", 1%Z)]
  /\ Enc.benefit [("21.5", 2%Z); ("C", 3%Z); ("19.0", 1%Z)] "21.5" = 8%Z
  /\ Enc.benefit [("21.5", 2%Z); ("C", 3%Z); ("19.0", 1%Z)] "C" = 3%Z
  /\ Enc.candidates [("21.5", 2%Z); ("C", 3%Z); ("19.0", 1%Z)] 2
     = ["21.5"; "C"]
  /\ fst (Enc._propose_value_tokens (fun _ => "") scenario_records
            (lower (dumps (JDict scenario_payload))) 2)
     = [("21.5", "V1"); ("C", "V2")].
Proof. repeat split; vm_compute; reflexivity. Qed.

Lemma scenario_proposals (repr_container : json -> string) :
  Enc._propose_value_tokens repr_container scenario_records
    (lower (dumps (JDict scenario_payload))) 2
  = ([("21.5", "V1"); ("C", "V2")],
     [("21.5", 2%Z); ("C", 3%Z); ("19.0", 1%Z)]).
Proof. vm_compute. reflexivity. Qed.

Lemma scenario_tables (repr_container : json -> string) (tiktoken : bool)
      (enc : option (string -> list Z)) :
  In (Enc.final_tables repr_container tiktoken enc true scenario_records
        ["temp"; "unit"] (lower (dumps (JDict scenario_payload))) 2)
     [ ([], []);
       ([("21.5", "V1")], [("V1", "21.5")]);
       ([("C", "V2")], [("V2", "C")]);
       ([("21.5", "V1"); ("C", "V2")], [("V1", "21.5"); ("V2", "C")]) ].
Proof.
  unfold Enc.final_tables. rewrite scenario_proposals. cbn [fst].
  unfold Enc.optimize. cbn [fold_left].
  set (st0 := {| Enc.accepted := []; Enc.accepted_vmap := [];
                 Enc.current_tokens := _ |}).
  set (text := lower (dumps (JDict scenario_payload))).
  pose proof (try_candidate_cases repr_container tiktoken enc true
                scenario_records ["temp"; "unit"] text st0 ("21.5", "V1"))
    as H1.
  set (st1 := Enc.try_candidate _ _ _ _ _ _ _ st0 _) in *.
  pose proof (try_candidate_cases repr_container tiktoken enc true
                scenario_records ["temp"; "unit"] text st1 ("C", "V2"))
    as H2.
  set (st2 := Enc.try_candidate _ _ _ _ _ _ _ st1 _) in *.
  cbv zeta in H1, H2.
  destruct H1 as [E1 | (_ & _ & A1 & V1)].
  - rewrite E1 in H2.
    destruct H2 as [E2 | (_ & _ & A2 & V2)].
    + rewrite E2. now left.
    + rewrite A2, V2. right. right. left. reflexivity.
  - rewrite A1, V1 in H2.
    destruct H2 as [E2 | (_ & _ & A2 & V2)].
    + rewrite E2, A1, V1. right. left. reflexivity.
    + rewrite A2, V2. right. right. right. left. reflexivity.
Qed.

(** C5, as amended.  In the scenario, with minimum frequency 2, both
    [21.5] and [C] are candidates; the optimizer tries [21.5] (benefit
    8) before [C] (benefit 3), with the tokens [V1] and [V2]; whatever
    the cost oracle accepts, every row of the final body shows an
    accepted token wherever its value occurred, so the encoder returns
    one of four payloads; and without a tokenizer it accepts neither. *)
Theorem scenario_temp_unit (repr_container : json -> string)
        (tiktoken : bool) (enc : option (string -> list Z)) :
  Enc._propose_value_tokens repr_container scenario_records
    (lower (dumps (JDict scenario_payload))) 2
  = ([("21.5", "V1"); ("C", "V2")],
     [("21.5", 2%Z); ("C", 3%Z); ("19.0", 1%Z)])
  /\ Enc.benefit [("21.5", 2%Z); ("C", 3%Z); ("19.0", 1%Z)] "21.5" = 8%Z
  /\ Enc.benefit [("21.5", 2%Z); ("C", 3%Z); ("19.0", 1%Z)] "C" = 3%Z
  /\ In (Enc.encode repr_container tiktoken enc scenario_payload 2 true)
        [ Ok [("data", coil "META&ORDER=temp,unit"
                         "sensordata[3]{temp,unit}|21.5,C|21.5,C|19.0,C")];
          Ok [("data", coil "META&ORDER=temp,unit&vmap=V1:21.5"
                         "sensordata[3]{temp,unit}|V1,C|V1,C|19.0,C")];
          Ok [("data", coil "META&ORDER=temp,unit&vmap=V2:C"
                         "sensordata[3]{temp,unit}|21.5,V2|21.5,V2|19.0,V2")];
          Ok [("data", coil "META&ORDER=temp,unit&vmap=V1:21.5;V2:C"
                         "sensordata[3]{temp,unit}|V1,V2|V1,V2|19.0,V2")] ]
  /\ Enc.encode repr_container false None scenario_payload 2 true
     = Ok [("data", coil "META&ORDER=temp,unit"
                      "sensordata[3]{temp,unit}|21.5,C|21.5,C|19.0,C")].
Proof.
  split; [apply scenario_proposals |].
  split; [reflexivity | split; [reflexivity |]].
  split; [| vm_compute; reflexivity].
  pose proof (scenario_tables repr_container tiktoken enc) as T.
  assert (D : dict_find scenario_payload "data"
              = Some (JDict [("sensordata",
                              JList (map JDict scenario_records))]))
    by reflexivity.
  assert (R : Enc.records_of
                (JDict [("sensordata", JList (map JDict scenario_records))])
              = Ok scenario_records) by reflexivity.
  assert (K : Enc.key_order_of scenario_records = ["temp"; "unit"])
    by reflexivity.
  unfold Enc.encode. rewrite D, R. cbn [bind]. rewrite K.
  destruct T as [<- | [<- | [<- | [<- | []]]]].
  - left. reflexivity.
  - right. left. reflexivity.
  - right. right. left. reflexivity.
  - right. right. right. left. reflexivity.
Qed.

(** ** Splitting and joining *)

Lemma contains_append (c : ascii) (a b : string) :
  contains c (a ++ b) = contains c a || contains c b.
Proof.
  induction a as [| d a IH]; cbn; [reflexivity |].
  now rewrite IH, orb_assoc.
Qed.

Lemma free_of_contains (seps s : string) (c : ascii) :
  free_of seps s = true -> contains c seps = true -> contains c s = false.
Proof.
  intros F C. induction s as [| d s IH]; cbn in *; [reflexivity |].
  apply andb_prop in F as [Fd Fs]. rewrite (IH Fs), orb_false_r.
  destruct (Ascii.eqb_spec d c) as [-> | N]; [| reflexivity].
  now rewrite C in Fd.
Qed.

Lemma split_clean (sep : ascii) (s : string) :
  contains sep s = false -> split sep s = [s].
Proof.
  induction s as [| c s IH]; cbn; [reflexivity |].
  intros H. apply orb_false_elim in H as [Hc Hs].
  now rewrite Hc, (IH Hs).
Qed.

Lemma split_append (sep : ascii) (a b : string) :
  contains sep a = false ->
  split sep (a ++ String sep b) = a :: split sep b.
Proof.
  induction a as [| c a IH]; cbn.
  - now rewrite Ascii.eqb_refl.
  - intros H. apply orb_false_elim in H as [Hc Ha].
    now rewrite Hc, (IH Ha).
Qed.

Lemma join_cons (sep x : string) (l : list string) :
  l <> [] -> join sep (x :: l) = x ++ sep ++ join sep l.
Proof. destruct l; [contradiction | reflexivity]. Qed.

Lemma split_join (sep : ascii) (l : list string) :
  l <> [] -> Forall (fun s => contains sep s = false) l ->
  split sep (join (Enc.chr sep) l) = l.
Proof.
  induction l as [| x l IH]; [contradiction |]. intros _ F.
  inversion F as [| ? ? Fx Fl]; subst.
  destruct l as [| y l].
  - cbn. now apply split_clean.
  - rewrite join_cons by discriminate.
    change (Enc.chr sep ++ join (Enc.chr sep) (y :: l))
      with (String sep (join (Enc.chr sep) (y :: l))).
    rewrite (split_append sep x _ Fx). f_equal.
    apply IH; [discriminate | exact Fl].
Qed.

Lemma contains_join (c : ascii) (sep : string) (l : list string) :
  contains c sep = false -> Forall (fun s => contains c s = false) l ->
  contains c (join sep l) = false.
Proof.
  intros Hs. induction 1 as [| x l Hx Hl IH]; [reflexivity |].
  destruct l as [| y l]; [exact Hx |].
  rewrite join_cons by discriminate.
  now rewrite !contains_append, Hx, Hs, IH.
Qed.

Lemma all_chars_join_false (p : ascii -> bool) (sep : string)
      (l : list string) (x : string) :
  In x l -> all_chars p x = false -> all_chars p (join sep l) = false.
Proof.
  induction l as [| y l IH]; [contradiction |]. intros I Hx.
  destruct l as [| z l].
  - destruct I as [-> | []]. exact Hx.
  - rewrite join_cons by discriminate. rewrite !all_chars_append.
    destruct I as [-> | I]; [now rewrite Hx |].
    rewrite (IH I Hx). now rewrite !andb_false_r.
Qed.

(** ** Blank rows *)

Lemma rstrip_cons_not_space (c : ascii) (r : string) :
  is_space c = false -> rstrip (String c r) <> "".
Proof. intros H. cbn. rewrite H. now destruct (rstrip r). Qed.

Lemma strip_not_blank (s : string) :
  all_chars is_space s = false -> strip s <> "".
Proof.
  unfold strip. induction s as [| c s IH]; [discriminate |].
  intros H. cbn [all_chars] in H. cbn [lstrip].
  destruct (is_space c) eqn:E.
  - apply IH. exact H.
  - now apply rstrip_cons_not_space.
Qed.

(** ** Escaped values *)

Lemma replace_absent (old : ascii) (new s : string) :
  contains old s = false -> replace old new s = s.
Proof.
  induction s as [| c s IH]; cbn; [reflexivity |].
  intros H. apply orb_false_elim in H as [Hc Hs].
  now rewrite Hc, (IH Hs).
Qed.

Lemma contains_replace_backslash (c : ascii) (s : string) :
  c <> "\"%char ->
  contains c (replace "\" "\\" s) = contains c s.
Proof.
  intros N. induction s as [| d s IH]; [reflexivity |].
  cbn [replace contains].
  destruct (Ascii.eqb_spec d "\") as [-> | Nd].
  - cbn [append contains]. rewrite IH.
    destruct (Ascii.eqb_spec "\" c) as [E | _]; [| reflexivity].
    now contradiction N.
  - cbn [contains]. now rewrite IH.
Qed.

Lemma escape_val_clean (v : string) :
  free_of value_seps v = true ->
  Enc._escape_val v = replace "\" "\\" v
  /\ contains "," (Enc._escape_val v) = false
  /\ contains "|" (Enc._escape_val v) = false
  /\ contains ":" (Enc._escape_val v) = false.
Proof.
  intros F.
  assert (C : forall c, contains c value_seps = true ->
                        contains c (replace "\" "\\" v) = false).
  { intros c Hc. rewrite contains_replace_backslash.
    - now apply (free_of_contains value_seps).
    - intros ->. discriminate. }
  assert (E : Enc._escape_val v = replace "\" "\\" v).
  { unfold Enc._escape_val, Enc.ESCAPE_CHAR, Enc.chr.
    rewrite (replace_absent ":") by now apply C.
    rewrite (replace_absent "|") by now apply C.
    now rewrite (replace_absent ",") by now apply C. }
  rewrite E. repeat split; now apply C.
Qed.

Lemma all_chars_escape_false (p : ascii -> bool) (v : string) :
  all_chars p v = false -> all_chars p (Enc._escape_val v) = false.
Proof.
  induction v as [| c v IH]; [discriminate |].
  rewrite escape_val_cons, all_chars_append. cbn [all_chars].
  destruct (p c) eqn:E; cbn [andb]; intros H.
  - rewrite (IH H). apply andb_false_r.
  - unfold escaped_char, Enc.chr.
    destruct (_ || _); cbn [all_chars]; rewrite E;
      [destruct (p Enc.ESCAPE_CHAR) |]; reflexivity.
Qed.

(** ** Tokens as strings *)

Lemma digit_not (c : ascii) (seps : string) :
  is_digit c = true -> all_chars (fun d => negb (is_digit d)) seps = true ->
  contains c seps = false.
Proof.
  intros D. induction seps as [| d seps IH]; cbn; [reflexivity |].
  intros H. apply andb_prop in H as [Hd Hs]. rewrite (IH Hs), orb_false_r.
  destruct (Ascii.eqb_spec d c) as [-> | _]; [| reflexivity].
  now rewrite D in Hd.
Qed.

(** A token has no character that is neither a digit nor [V]. *)
Lemma tokenish_free (t seps : string) :
  tokenish t ->
  all_chars (fun d => negb (is_digit d) && negb (Ascii.eqb d "V")) seps = true ->
  free_of seps t = true.
Proof.
  intros (d & -> & Hd) S. unfold free_of. cbn.
  assert (S1 : all_chars (fun d => negb (is_digit d)) seps = true
               /\ contains "V" seps = false).
  { clear - S. induction seps as [| c seps IH]; [now split |].
    cbn in *. apply andb_prop in S as [Sc Ss].
    apply andb_prop in Sc as [Sc1 Sc2].
    destruct (IH Ss) as [I1 I2]. rewrite Sc1, I1, I2.
    split; [reflexivity |]. now destruct (Ascii.eqb c "V"). }
  destruct S1 as [S1 S2]. rewrite S2. cbn.
  clear - Hd S1. induction d as [| c d IH]; [reflexivity |].
  cbn in *. apply andb_prop in Hd as [Hc Hd].
  now rewrite (digit_not c seps Hc S1), (IH Hd).
Qed.

Lemma tokenish_escape (t : string) :
  tokenish t -> Enc._escape_val t = t /\ Json.escape t = t.
Proof.
  intros T.
  assert (F : free_of ("\" ++ value_seps ++ String dquote "") t = true).
  { apply tokenish_free; [exact T | reflexivity]. }
  split.
  - destruct (escape_val_clean t) as [E _].
    { apply tokenish_free; [exact T | reflexivity]. }
    rewrite E. apply replace_absent.
    eapply free_of_contains; [exact F | reflexivity].
  - destruct T as (d & -> & Hd).
    assert (D : forall c, is_digit c = true -> Json.escape_char c = String c "").
    { intros c Hc. unfold is_digit, between in Hc.
      apply andb_prop in Hc as [H1 H2]. apply Nat.leb_le in H1, H2.
      unfold Json.escape_char. cbv zeta.
      repeat match goal with
             | |- context [Nat.eqb (code c) ?n] =>
                 destruct (Nat.eqb_spec (code c) n); [lia |]
             end.
      destruct (Nat.ltb_spec (code c) 32); [lia | reflexivity]. }
    change (Json.escape (String "V" d)) with (String "V" (Json.escape d)).
    f_equal. clear F.
    induction d as [| c d IH]; [reflexivity |].
    change (Json.escape (String c d))
      with (Json.escape_char c ++ Json.escape d).
    cbn [all_chars] in Hd. apply andb_prop in Hd as [Hc Hd].
    now rewrite (D c Hc), (IH Hd).
Qed.

(** ** Values inside the payload text *)

Lemma join_In (sep : string) (l : list string) (x : string) :
  In x l -> exists pre post, join sep l = pre ++ x ++ post.
Proof.
  induction l as [| y l IH]; [contradiction |]. intros I.
  destruct l as [| z l].
  - destruct I as [-> | []]. exists "", "". cbn. now rewrite append_nil_r.
  - rewrite join_cons by discriminate.
    destruct I as [-> | I].
    + exists "", (sep ++ join sep (z :: l)). reflexivity.
    + destruct (IH I) as (pre & post & ->).
      exists (y ++ sep ++ pre), post. now rewrite !append_assoc.
Qed.

Lemma subvalue_trans (a b c : json) :
  subvalue a b -> subvalue b c -> subvalue a c.
Proof.
  intros H1 H2. induction H2 as [| l x I _ IH | d k x I _ IH].
  - exact H1.
  - eapply sub_list; eassumption.
  - eapply sub_dict; eassumption.
Qed.

Lemma dumps_subvalue (a b : json) :
  subvalue a b -> exists pre post, dumps b = pre ++ dumps a ++ post.
Proof.
  induction 1 as [| l x I _ (p2 & q2 & E) | d k x I _ (p2 & q2 & E)].
  - exists "", "". cbn. now rewrite append_nil_r.
  - destruct (join_In ", " (map dumps l) (dumps x) (in_map dumps l x I))
      as (p1 & q1 & J).
    exists ("[" ++ p1 ++ p2), (q2 ++ q1 ++ "]").
    change (dumps (JList l)) with ("[" ++ join ", " (map dumps l) ++ "]").
    rewrite J, E. now rewrite !append_assoc.
  - set (f := fun kv : string * json =>
                match kv with (k, x) => quote k ++ ": " ++ dumps x end).
    destruct (join_In ", " (map f d) (f (k, x)) (in_map f d (k, x) I))
      as (p1 & q1 & J).
    exists ("{" ++ p1 ++ quote k ++ ": " ++ p2), (q2 ++ q1 ++ "}").
    change (dumps (JDict d)) with ("{" ++ join ", " (map f d) ++ "}").
    rewrite J. unfold f at 1. rewrite E. now rewrite !append_assoc.
Qed.

Lemma dict_find_In {V} (d : dict V) (k : string) (v : V) :
  dict_find d k = Some v -> In (k, v) d.
Proof.
  induction d as [| [k' v'] d IH]; cbn; [discriminate |].
  destruct (String.eqb_spec k' k) as [-> | _].
  - intros [= ->]. now left.
  - intros H. right. now apply IH.
Qed.

Lemma dict_find_NoDup {V} (d : dict V) (k : string) (v : V) :
  NoDup (keys d) -> In (k, v) d -> dict_find d k = Some v.
Proof.
  induction d as [| [k' v'] d IH]; cbn; [contradiction |].
  intros N [E | I].
  - injection E as -> ->. now rewrite String.eqb_refl.
  - inversion N as [| ? ? N1 N2]; subst.
    destruct (String.eqb_spec k' k) as [-> | _]; [| now apply IH].
    contradiction N1. apply (in_map fst) in I. exact I.
Qed.

Lemma flatten_subvalue (j : json) (l : list json) :
  Enc._flatten_records j = Ok l -> subvalue (JList l) j.
Proof.
  destruct j as [| | | | l' | d]; try discriminate.
  - intros [= ->]. constructor.
  - destruct d as [| [k x] d']; [discriminate |].
    destruct x; try discriminate; destruct d'; try discriminate.
    intros [= ->].
    eapply sub_dict; [now left | constructor].
Qed.

Lemma check_records_map (l : list json) (records : list (dict json)) :
  Enc.check_records l = Ok records -> l = map JDict records.
Proof.
  revert records. induction l as [| x l IH]; intros records; cbn.
  - now intros [= <-].
  - destruct x; try discriminate.
    destruct (Enc.check_records l) as [ds |]; [| discriminate].
    cbn. intros [= <-]. cbn. f_equal. now apply IH.
Qed.

Lemma records_subvalue (data : json) (records : list (dict json))
      (r : dict json) :
  Enc.records_of data = Ok records -> In r records ->
  subvalue (JDict r) data.
Proof.
  unfold Enc.records_of. intros H I.
  assert (F : exists l, subvalue (JList l) data
                        /\ Enc.check_records l = Ok records).
  { destruct data as [| | | | l' | d];
      try (cbn in H; discriminate).
    - exists l'. split; [constructor | exact H].
    - destruct (dict_find d "sensordata") as [s |] eqn:E.
      + destruct (Enc._flatten_records s) as [l |] eqn:Fl; [| discriminate].
        exists l. split; [| exact H].
        eapply sub_dict; [apply dict_find_In, E | now apply flatten_subvalue].
      + destruct (Enc._flatten_records (JDict d)) as [l |] eqn:Fl;
          [| discriminate].
        exists l. split; [now apply flatten_subvalue | exact H]. }
  destruct F as (l & S & C). apply check_records_map in C. subst l.
  eapply subvalue_trans; [| exact S].
  eapply sub_list; [apply in_map, I | constructor].
Qed.

(** A value that looks like a token and stands in the payload collides
    with the payload text. *)
Lemma value_collides (payload : dict json) (data : json)
      (records : list (dict json)) (r : dict json) (k v : string) :
  dict_find payload "data" = Some data ->
  Enc.records_of data = Ok records ->
  In r records -> In (k, JStr v) r -> tokenish v ->
  Enc._word_collision v (lower (dumps (JDict payload))) = true.
Proof.
  intros Hd Hr Ir Iv T.
  assert (S : subvalue (JStr v) (JDict payload)).
  { eapply sub_dict; [apply dict_find_In, Hd |].
    eapply subvalue_trans; [| eapply records_subvalue; eassumption].
    eapply sub_dict; [exact Iv | constructor]. }
  destruct (dumps_subvalue _ _ S) as (pre & post & E).
  rewrite E.
  change (dumps (JStr v)) with (String dquote (Json.escape v) ++ String dquote "").
  rewrite (proj2 (tokenish_escape v T)).
  destruct (tokenish_lower v T) as (d & Ev & L & W).
  unfold Enc._word_collision, Enc.re_search_word.
  rewrite Ev at 1.
  replace (lower (pre ++ (String dquote v ++ String dquote "") ++ post))
    with ((lower pre ++ String dquote "") ++ lower v
            ++ (String dquote (lower post))).
  2:{ rewrite !lower_append. cbn. now rewrite !append_assoc. }
  apply search_complete; unfold Enc.boundary.
  - rewrite last_or_append. cbn [Enc.last_or]. rewrite L. reflexivity.
  - rewrite last_or_append.
    rewrite last_or_word; [reflexivity | rewrite L; discriminate | exact W].
Qed.

(** ** Parsing declarations back *)

Lemma dict_find_set {V} (d : dict V) (k' k : string) (v : V) :
  dict_find (dict_set d k' v) k
  = if String.eqb k' k then Some v else dict_find d k.
Proof.
  induction d as [| [k0 v0] d IH]; cbn.
  - reflexivity.
  - destruct (String.eqb_spec k0 k') as [-> | N]; cbn.
    + now destruct (String.eqb k' k).
    + rewrite IH. destruct (String.eqb_spec k0 k) as [-> | _]; [| reflexivity].
      destruct (String.eqb_spec k' k) as [-> | _]; [contradiction | reflexivity].
Qed.

Lemma parse_pairs_fold_find (inner : ascii) (entries : list string)
      (acc : dict string) (k : string) :
  dict_find
    (fold_left (fun d e => match split1 inner e with
                           | Some (k, v) => dict_set d k v
                           | None => d
                           end) entries acc) k
  = match lookup_last inner entries k with
    | Some v => Some v
    | None => dict_find acc k
    end.
Proof.
  revert acc. induction entries as [| e entries IH]; intros acc; cbn;
    [reflexivity |].
  rewrite IH. destruct (lookup_last inner entries k); [reflexivity |].
  destruct (split1 inner e) as [[k' v] |]; [| reflexivity].
  rewrite dict_find_set. now destruct (String.eqb k' k).
Qed.

Lemma parse_pairs_find (inner : ascii) (entries : list string) (k : string) :
  dict_find (Dec.parse_pairs inner entries) k = lookup_last inner entries k.
Proof.
  unfold Dec.parse_pairs. rewrite parse_pairs_fold_find.
  now destruct (lookup_last inner entries k).
Qed.

Lemma lookup_last_app (inner : ascii) (a b : list string) (k : string) :
  lookup_last inner (a ++ b) k
  = match lookup_last inner b k with
    | Some v => Some v
    | None => lookup_last inner a k
    end.
Proof.
  induction a as [| e a IH]; cbn.
  - now destruct (lookup_last inner b k).
  - rewrite IH. now destruct (lookup_last inner b k).
Qed.

Lemma split1_append (c : ascii) (k v : string) :
  contains c k = false -> split1 c (k ++ String c v) = Some (k, v).
Proof.
  induction k as [| d k IH]; cbn.
  - now rewrite Ascii.eqb_refl.
  - intros H. apply orb_false_elim in H as [Hd Hk].
    now rewrite Hd, (IH Hk).
Qed.

Lemma parse_pairs_exact (inner : ascii) (l acc : dict string) :
  NoDup (keys acc ++ keys l) ->
  (forall k v, In (k, v) l -> contains inner k = false) ->
  fold_left (fun d e => match split1 inner e with
                        | Some (k, v) => dict_set d k v
                        | None => d
                        end)
            (map (fun kv => fst kv ++ String inner (snd kv)) l) acc
  = (acc ++ l)%list.
Proof.
  revert acc. induction l as [| [k v] l IH]; intros acc N C; cbn.
  - now rewrite app_nil_r.
  - rewrite split1_append by (eapply C; now left).
    assert (Fk : ~ In k (keys acc)).
    { apply NoDup_remove_2 in N. intros I. apply N. apply in_or_app. now left. }
    rewrite (dict_set_new acc k v Fk).
    rewrite IH.
    + now rewrite <- app_assoc.
    + unfold keys in *. rewrite map_app, <- app_assoc. exact N.
    + intros k' v' I. eapply C. right. exact I.
Qed.

Lemma passthrough_no_vmap (repr_container : json -> string)
      (payload : dict json) :
  lookup_last "=" (Enc.passthrough repr_container payload) "vmap" = None.
Proof.
  unfold Enc.passthrough. cbn [flat_map].
  destruct (dict_find payload "q"), (dict_find payload "mdu"); reflexivity.
Qed.

Lemma join_not_empty (sep : string) (l : list string) (c : ascii)
      (x : string) :
  hd "" l = String c x -> join sep l <> "".
Proof.
  destruct l as [| y l]; [discriminate |]. cbn [hd]. intros ->.
  destruct l; [discriminate |].
  rewrite join_cons by discriminate. discriminate.
Qed.

(** ** The header of the encoder parses back *)

Lemma greedy_group_last (f : string) :
  f <> "" -> Dec.greedy_group (f ++ "}") = Some f.
Proof.
  induction f as [| c f IH]; [contradiction |]. intros _.
  cbn [append]. rewrite greedy_group_cons.
  destruct f as [| d f].
  - reflexivity.
  - now rewrite IH by discriminate.
Qed.

Lemma first_line_clean (s : string) :
  contains newline s = false -> Dec.first_line s = s.
Proof.
  induction s as [| c s IH]; cbn; [reflexivity |].
  intros H. apply orb_false_elim in H as [Hc Hs].
  now rewrite Hc, (IH Hs).
Qed.

Lemma match_header_header (n : nat) (fields : string) :
  fields <> "" -> contains newline fields = false ->
  Dec.match_header ("sensordata[" ++ str_nat n ++ "]{" ++ fields ++ "}")
  = Some (str_nat n, fields).
Proof.
  intros N C. unfold Dec.match_header.
  rewrite strip_prefix_append.
  change (str_nat n ++ "]{" ++ fields ++ "}")
    with (str_nat n ++ String "]" ("{" ++ fields ++ "}")).
  rewrite (span_digits_append (str_nat n) "]" _ (str_nat_digits n) eq_refl).
  destruct (str_nat n) as [| c ds] eqn:E.
  - exfalso. unfold str_nat in E.
    pose proof (DecimalFacts.unorm_nonnil (Nat.to_uint n)) as Z.
    rewrite <- Unsigned.to_of, Unsigned.of_to in Z.
    destruct (Nat.to_uint n); cbn in E; try discriminate. now apply Z.
  - change (Dec.strip_prefix "]{" (String "]" ("{" ++ fields ++ "}")))
      with (Some (fields ++ "}")).
    cbv beta iota. rewrite first_line_clean.
    + now rewrite greedy_group_last.
    + rewrite contains_append, C. reflexivity.
Qed.

(** ** The table the encoder ends with *)

Lemma dict_set_keys_In {V} (d : dict V) (k' k : string) (v : V) :
  In k (keys (dict_set d k' v)) -> k = k' \/ In k (keys d).
Proof.
  induction d as [| [k0 v0] d IH]; cbn.
  - intros [<- | []]. now left.
  - destruct (String.eqb_spec k0 k') as [-> | _]; cbn.
    + intros [<- | H]; auto.
    + intros [<- | H]; auto. destruct (IH H); auto.
Qed.

Lemma propose_keys (payload_text : string) (l : list string)
      (st : Enc.proposal_state) (k : string) :
  In k (keys (Enc.proposals (fold_left (Enc.propose_step payload_text) l st))) ->
  In k (keys (Enc.proposals st)) \/ In k l.
Proof.
  revert st. induction l as [| v l IH]; intros st H; cbn in H; [now left |].
  destruct (IH _ H) as [I | I]; [| right; now right].
  cbn in I. apply dict_set_keys_In in I as [-> | I]; [right; now left | now left].
Qed.

Lemma Counter_keys (l : list string) (k : string) :
  In k (keys (Enc.Counter l)) -> In k l.
Proof.
  unfold Enc.Counter.
  assert (G : forall acc : dict Z,
             In k (keys (fold_left
                           (fun cnt v => dict_set cnt v (dict_get cnt v 0 + 1)%Z)
                           l acc)) ->
             In k (keys acc) \/ In k l).
  { induction l as [| v l IH]; intros acc H; cbn in H; [now left |].
    destruct (IH _ H) as [I | I]; [| right; now right].
    apply dict_set_keys_In in I as [-> | I]; [right; now left | now left]. }
  intros H. destruct (G [] H) as [[] | I]. exact I.
Qed.

Lemma candidates_keys (cnt : dict Z) (min_freq : Z) (v : string) :
  In v (Enc.candidates cnt min_freq) -> In v (keys cnt).
Proof.
  unfold Enc.candidates. intros H.
  eapply Permutation_in in H; [| apply stable_sort_perm].
  apply in_map_iff in H as (x & <- & Hx).
  apply filter_In in Hx as [Hx _]. now apply in_map.
Qed.

Lemma proposals_keys (repr_container : json -> string)
      (records : list (dict json)) (payload_text : string) (min_freq : Z)
      (v : string) :
  In v (keys (fst (Enc._propose_value_tokens repr_container records
                     payload_text min_freq))) ->
  In v (Enc.all_values repr_container records).
Proof.
  unfold Enc._propose_value_tokens. cbn [fst]. intros H.
  apply propose_keys in H as [[] | H].
  now apply candidates_keys, Counter_keys in H.
Qed.

Lemma optimize_accepted_keys_NoDup (repr_container : json -> string)
      (tiktoken : bool) (enc : option (string -> list Z)) (compact : bool)
      (records : list (dict json)) (key_order : list string)
      (payload_text : string) (P : dict string) :
  NoDup (keys (Enc.accepted
                 (Enc.optimize repr_container tiktoken enc compact records
                    key_order payload_text P))).
Proof.
  unfold Enc.optimize.
  match goal with
  | |- context [fold_left ?f P ?i] =>
      assert (H : NoDup (keys (Enc.accepted i))) by constructor;
      generalize dependent i
  end.
  induction P as [| p P IH]; intros st H; cbn [fold_left]; [exact H |].
  apply IH.
  destruct (try_candidate_cases repr_container tiktoken enc compact records
              key_order payload_text st p) as [-> | (_ & _ & -> & _)];
    [exact H | now apply dict_set_keys_NoDup].
Qed.

Lemma final_table_facts (repr_container : json -> string) (tiktoken : bool)
      (enc : option (string -> list Z)) (compact : bool)
      (records : list (dict json)) (key_order : list string)
      (payload_text : string) (value_min_freq : Z) :
  let tables := Enc.final_tables repr_container tiktoken enc compact records
                  key_order payload_text value_min_freq in
  snd tables = map swap (fst tables)
  /\ NoDup (keys (fst tables))
  /\ NoDup (values (fst tables))
  /\ (forall v t, In (v, t) (fst tables) ->
        tokenish t /\ Enc._word_collision t payload_text = false
        /\ In v (Enc.all_values repr_container records)).
Proof.
  intros tables.
  destruct (final_tables_inv repr_container tiktoken enc compact records
              key_order payload_text value_min_freq) as (I & M & _).
  fold tables in I, M.
  destruct (proposals_good repr_container records payload_text value_min_freq)
    as (_ & _ & G).
  assert (K : NoDup (keys (fst tables)) /\ NoDup (keys (snd tables))).
  { subst tables. unfold Enc.final_tables.
    destruct (fst (Enc._propose_value_tokens _ _ _ _)); cbn [fst snd].
    - split; constructor.
    - split; [apply optimize_accepted_keys_NoDup
             | apply optimize_vmap_keys_NoDup]. }
  destruct K as [K1 K2].
  split; [exact M | split; [exact K1 | split]].
  - rewrite M, keys_swap in K2. exact K2.
  - intros v t H. apply I in H.
    destruct (G t) as [Tk C]; [apply (in_map snd) in H; exact H |].
    split; [exact Tk | split; [exact C |]].
    eapply proposals_keys. apply (in_map fst) in H. exact H.
Qed.

(** ** Decoding what the encoder wrote *)

Lemma contains_In (c : ascii) (s : string) :
  contains c s = true -> In c (list_ascii_of_string s).
Proof.
  induction s as [| d s IH]; cbn [contains list_ascii_of_string];
    [discriminate |].
  intros H. apply orb_prop in H as [H | H].
  - left. now apply Ascii.eqb_eq.
  - right. now apply IH.
Qed.

Lemma join_not_empty_In (sep : string) (l : list string) (x : string) :
  In x l -> x <> "" -> join sep l <> "".
Proof.
  intros I N E. destruct (join_In sep l x I) as (pre & post & J).
  rewrite E in J. destruct pre; [| discriminate].
  destruct x; [contradiction | discriminate].
Qed.

Lemma enumerate_fold (vmap : dict string) (cells : string -> string)
      (done todo : list string) (acc : dict string) :
  NoDup (keys acc ++ todo) ->
  fold_left (fun rec ik =>
               dict_set rec (snd ik)
                 (Dec.resolve vmap
                    (nth (fst ik) (map cells (done ++ todo)) "")))
            (combine (seq (List.length done) (List.length todo)) todo) acc
  = (acc ++ map (fun k => (k, Dec.resolve vmap (cells k))) todo)%list.
Proof.
  revert done acc. induction todo as [| k todo IH]; intros done acc N; cbn.
  - now rewrite app_nil_r.
  - assert (Fk : ~ In k (keys acc)).
    { apply NoDup_remove_2 in N. intros I. apply N, in_or_app. now left. }
    rewrite (dict_set_new acc k _ Fk).
    assert (E : nth (List.length done) (map cells (done ++ k :: todo)) ""
                = cells k).
    { rewrite map_app, app_nth2; rewrite length_map; [| lia].
      now rewrite Nat.sub_diag. }
    rewrite E.
    specialize (IH (done ++ [k])%list
                  (acc ++ [(k, Dec.resolve vmap (cells k))])%list).
    rewrite length_app, Nat.add_1_r, <- !app_assoc in IH. cbn [app] in IH.
    rewrite IH; [reflexivity |].
    unfold keys. rewrite map_app, <- app_assoc. exact N.
Qed.

Section RoundTrip.

Variable repr_container : json -> string.
Variable payload : dict json.
Variable data : json.
Variable records : list (dict json).
Variable table : dict string.

Local Abbreviation payload_text := (lower (dumps (JDict payload))).
Local Abbreviation key_order := (Enc.key_order_of records).
Local Abbreviation vmap := (map swap table).
Local Abbreviation cell_of := (Enc.cell repr_container table).

Hypothesis Hdata : dict_find payload "data" = Some data.
Hypothesis Hrecords : Enc.records_of data = Ok records.
Hypothesis Hplain : forall r, In r records -> plain_record r.
Hypothesis Hname : exists r k, In r records /\ In k (keys r) /\ k <> "".
Hypothesis Tvalues : NoDup (values table).
Hypothesis Ttokens :
forall v t, In (v, t) table ->
  tokenish t /\ Enc._word_collision t payload_text = false
  /\ In v (Enc.all_values repr_container records).

Lemma all_values_plain (v : string) :
In v (Enc.all_values repr_container records) ->
exists r k, In r records /\ In (k, JStr v) r
            /\ free_of value_seps v = true.
Proof.
unfold Enc.all_values. intros H.
apply in_flat_map in H as (r & Ir & H).
apply in_flat_map in H as (x & Ix & H).
apply in_map_iff in Ix as ([k x'] & E & Ikx). cbn in E. subst x'.
destruct (Hplain r Ir) as (_ & P & _).
destruct (P k x Ikx) as (_ & s & -> & F).
destruct H as [<- | []]. now exists r, k.
Qed.

Lemma value_of_cases (r : dict json) (k : string) :
In r records ->
(value_of r k = "" \/ In (k, JStr (value_of r k)) r)
/\ free_of value_seps (value_of r k) = true
/\ dict_get r k (JStr "") = JStr (value_of r k).
Proof.
intros Ir. destruct (Hplain r Ir) as (_ & P & _).
unfold value_of, dict_get.
destruct (dict_find r k) as [x |] eqn:E.
- apply dict_find_In in E. destruct (P k x E) as (_ & s & -> & F).
  split; [now right | now split].
- split; [now left | now split].
Qed.

Lemma cell_plain (r : dict json) (k : string) :
In r records ->
cell_of r k = match dict_find table (value_of r k) with
              | Some tok => tok
              | None => Enc._escape_val (value_of r k)
              end.
Proof.
intros Ir. destruct (value_of_cases r k Ir) as (_ & _ & G).
unfold Enc.cell. now rewrite G.
Qed.

Lemma token_free (t seps : string) :
In t (values table) ->
all_chars (fun d => negb (is_digit d) && negb (Ascii.eqb d "V")) seps = true ->
free_of seps t = true.
Proof.
intros I S. apply in_map_iff in I as ([v t'] & E & I). cbn in E. subst t'.
apply tokenish_free; [apply (Ttokens v t I) | exact S].
Qed.

(** A cell has no separator of the body in it. *)
Lemma cell_clean (r : dict json) (k : string) (c : ascii) :
In r records -> contains c ",|:" = true -> contains c (cell_of r k) = false.
Proof.
intros Ir Hc. rewrite (cell_plain r k Ir).
destruct (value_of_cases r k Ir) as (_ & F & _).
destruct (dict_find table (value_of r k)) as [tok |] eqn:E.
- apply dict_find_In, (in_map snd) in E.
  eapply free_of_contains; [apply (token_free tok ",|:" E eq_refl) | exact Hc].
- destruct (escape_val_clean _ F) as (_ & C1 & C2 & C3).
  apply contains_In in Hc as [<- | [<- | [<- | []]]]; assumption.
Qed.

Lemma vmap_find (t v : string) :
In (v, t) table -> dict_find vmap t = Some v.
Proof.
intros I. apply dict_find_NoDup.
- now rewrite keys_swap.
- apply (in_map swap) in I. exact I.
Qed.

(** The decoder resolves a cell to the value it was made from. *)
Lemma resolve_cell (r : dict json) (k : string) :
In r records -> Dec.resolve vmap (cell_of r k) = value_of r k.
Proof.
intros Ir. rewrite (cell_plain r k Ir).
destruct (value_of_cases r k Ir) as (V & F & _).
unfold Dec.resolve.
destruct (dict_find table (value_of r k)) as [tok |] eqn:E.
- apply dict_find_In in E. now rewrite (vmap_find tok _ E).
- destruct (dict_find vmap (Enc._escape_val (value_of r k)))
    as [v' |] eqn:E'.
  + exfalso. apply dict_find_In in E'.
    apply in_map_iff in E' as ([v t] & Es & I).
    injection Es as Et Ev. subst v'.
    destruct (Ttokens v t I) as (Tk & C & _).
    assert (Q : value_of r k = t).
    { rewrite <- (unescape_escape_val (value_of r k)), <- Et.
      rewrite <- (proj1 (tokenish_escape t Tk)) at 1.
      apply unescape_escape_val. }
    destruct V as [V | V].
    * rewrite Q in V. now apply (tokenish_not_empty t Tk).
    * rewrite Q in V.
      rewrite (value_collides payload data records r k t Hdata Hrecords
                 Ir V Tk) in C. discriminate.
  + rewrite dec_unescape_is_enc. apply unescape_escape_val.
Qed.

Lemma key_order_not_nil : key_order <> [].
Proof.
destruct Hname as (r & k & Ir & Ik & _).
assert (I : In k key_order) by (apply key_order_In; now exists r).
intros E. now rewrite E in I.
Qed.

Lemma key_order_NoDup : NoDup key_order.
Proof. apply strictly_sorted_NoDup, key_order_sorted. Qed.

Lemma key_clean (k : string) (c : ascii) :
In k key_order -> contains c key_seps = true -> contains c k = false.
Proof.
intros I Hc. apply key_order_In in I as (r & Ir & Ik).
apply in_map_iff in Ik as ([k' x] & E & Ikx). cbn in E. subst k'.
destruct (Hplain r Ir) as (_ & P & _).
destruct (P k x Ikx) as (F & _).
eapply free_of_contains; eassumption.
Qed.

Lemma fields_not_empty : join "," key_order <> "".
Proof.
destruct Hname as (r & k & Ir & Ik & N).
apply (join_not_empty_In "," key_order k); [| exact N].
apply key_order_In. now exists r.
Qed.

Lemma fields_clean (c : ascii) :
contains c key_seps = true -> Ascii.eqb c "," = false ->
contains c (join "," key_order) = false.
Proof.
intros Hc N. apply contains_join.
- cbn [contains]. now rewrite Ascii.eqb_sym, N.
- apply Forall_forall. intros k Ik. now apply key_clean.
Qed.

Lemma row_clean (r : dict json) (c : ascii) :
In r records -> contains c "|:" = true ->
contains c (join (Enc.chr Enc.PAIR_SEP) (map (cell_of r) key_order)) = false.
Proof.
intros Ir Hc. apply contains_join.
- apply contains_In in Hc as [<- | [<- | []]]; reflexivity.
- apply Forall_forall. intros x Ix.
  apply in_map_iff in Ix as (k & <- & _).
  apply cell_clean; [exact Ir |].
  apply contains_In in Hc as [<- | [<- | []]]; reflexivity.
Qed.

Lemma row_not_blank (r : dict json) :
In r records ->
strip (join (Enc.chr Enc.PAIR_SEP) (map (cell_of r) key_order)) <> "".
Proof.
intros Ir. destruct (Hplain r Ir) as (N & _ & k & s & Iks & Hs).
apply strip_not_blank.
apply (all_chars_join_false _ _ _ (cell_of r k)).
- apply in_map, key_order_In. exists r. split; [exact Ir |].
  apply (in_map fst) in Iks. exact Iks.
- rewrite (cell_plain r k Ir).
  assert (V : value_of r k = s).
  { unfold value_of. now rewrite (dict_find_NoDup r k (JStr s) N Iks). }
  rewrite V.
  destruct (dict_find table s) as [tok |] eqn:E.
  + apply dict_find_In in E. destruct (Ttokens s tok E) as ((d & -> & _) & _).
    reflexivity.
  + now apply all_chars_escape_false.
Qed.

(** One row of the encoder decodes to the record, with every field of
  the Key Order. *)
Lemma decode_encoded_row (meta_kv : dict string) (r : dict json) :
In r records ->
Dec.decode_row key_order meta_kv vmap
  (join (Enc.chr Enc.PAIR_SEP) (map (cell_of r) key_order))
= Some (map (fun k => (k, value_of r k)) key_order).
Proof.
intros Ir. unfold Dec.decode_row.
destruct (String.eqb_spec
            (strip (join (Enc.chr Enc.PAIR_SEP) (map (cell_of r) key_order)))
            "") as [E | _]; [now apply row_not_blank in E |].
rewrite (row_clean r ":" Ir eq_refl). f_equal.
unfold Dec.compact_row, Dec.enumerate.
change Dec.PAIR_SEP with Enc.PAIR_SEP.
rewrite split_join.
- pose proof (enumerate_fold vmap (cell_of r) [] key_order []
                key_order_NoDup) as EF.
  cbn [app List.length] in EF. rewrite EF.
  apply map_ext_in. intros k _. f_equal.
  now apply resolve_cell.
- intros E. apply map_eq_nil in E. now apply key_order_not_nil.
- apply Forall_forall. intros x Ix.
  apply in_map_iff in Ix as (k & <- & _).
  now apply cell_clean.
Qed.

Lemma decode_encoded_rows (meta_kv : dict string) (rs : list (dict json)) :
incl rs records ->
Dec.decode_rows key_order meta_kv vmap
  (map (fun r => join (Enc.chr Enc.PAIR_SEP) (map (cell_of r) key_order)) rs)
= map (fun r => map (fun k => (k, value_of r k)) key_order) rs.
Proof.
unfold Dec.decode_rows.
induction rs as [| r rs IH]; intros I; [reflexivity |].
cbn [map flat_map].
rewrite decode_encoded_row by (apply I; now left).
cbn [app]. f_equal. apply IH. intros x Hx. apply I. now right.
Qed.

Lemma digits_contains (d : string) (c : ascii) :
all_chars is_digit d = true -> is_digit c = false -> contains c d = false.
Proof.
induction d as [| a d IH]; cbn; [reflexivity |].
intros H N. apply andb_prop in H as [Ha Hd]. rewrite (IH Hd N), orb_false_r.
destruct (Ascii.eqb_spec a c) as [-> | _]; [congruence | reflexivity].
Qed.

Lemma header_clean :
contains "|" (Enc.header records key_order) = false.
Proof.
unfold Enc.header. rewrite !contains_append.
rewrite (digits_contains (str_nat _) "|" (str_nat_digits _) eq_refl).
now rewrite (fields_clean "|" eq_refl eq_refl).
Qed.

Lemma entry_clean (c : ascii) (kv : string * string) :
In kv vmap -> contains c "&;" = true ->
contains c (fst kv ++ ":" ++ snd kv) = false.
Proof.
intros I Hc. apply in_map_iff in I as ([v t] & <- & I). cbn [swap fst snd].
destruct (Ttokens v t I) as (_ & _ & A).
destruct (all_values_plain v A) as (_ & _ & _ & _ & F).
rewrite !contains_append.
assert (Ct : contains c t = false).
{ eapply free_of_contains; [| exact Hc].
  apply token_free; [apply (in_map snd) in I; exact I | reflexivity]. }
assert (Cv : contains c v = false).
{ eapply free_of_contains; [exact F |].
  apply contains_In in Hc as [<- | [<- | []]]; reflexivity. }
rewrite Ct, Cv.
apply contains_In in Hc as [<- | [<- | []]]; reflexivity.
Qed.

(** The value map declared in Meta parses back to the table. *)
Lemma parse_vmap_declared (meta_kv : dict string) :
dict_find meta_kv "vmap"
= match vmap with
  | [] => None
  | _ => Some (join ";" (map (fun kv => fst kv ++ ":" ++ snd kv) vmap))
  end ->
Dec.parse_vmap meta_kv = vmap.
Proof.
intros H. unfold Dec.parse_vmap. rewrite H.
destruct vmap as [| [t v] rest] eqn:E; [reflexivity |].
rewrite <- E in *.
set (entries := map (fun kv => fst kv ++ ":" ++ snd kv) vmap).
assert (N : join ";" entries <> "").
{ assert (I : In (t, v) vmap) by (rewrite E; now left).
  apply in_map_iff in I as ([v' t'] & Es & I). injection Es as -> ->.
  destruct (Ttokens v t I) as ((d & -> & _) & _).
  unfold entries. rewrite E. eapply join_not_empty. reflexivity. }
destruct (join ";" entries) as [| c r] eqn:J; [contradiction |].
rewrite <- J.
change ";" with (Enc.chr ";") at 1.
rewrite split_join.
- unfold Dec.parse_pairs, entries.
  refine (parse_pairs_exact ":" vmap [] _ _).
  + cbn [app keys map]. now rewrite keys_swap.
  + intros k x I. apply in_map_iff in I as ([v' t'] & Es & I).
    injection Es as <- <-.
    eapply free_of_contains;
      [apply (token_free t' ":") | reflexivity].
    * apply (in_map snd) in I. exact I.
    * reflexivity.
- unfold entries. rewrite E. discriminate.
- apply Forall_forall. intros x Ix.
  apply in_map_iff in Ix as (kv & <- & I).
  now apply entry_clean.
Qed.

Section Meta.

Variable extras : list string.
Hypothesis Eclean : Forall (fun e => contains "&" e = false) extras.
Hypothesis Evmap : lookup_last "=" extras "vmap" = None.

Local Abbreviation meta :=
("META&" ++ join "&" (Enc.final_meta_parts true key_order vmap ++ extras)).

Lemma meta_parts_clean :
Forall (fun e => contains "&" e = false)
     (Enc.final_meta_parts true key_order vmap ++ extras).
Proof.
apply Forall_app. split; [| exact Eclean].
unfold Enc.final_meta_parts.
assert (D : contains "&"
            (drop (String.length "META&")
               ("META&" ++ Enc.meta_decl true key_order)) = false).
{ rewrite drop_append. unfold Enc.meta_decl.
rewrite contains_append. now rewrite (fields_clean "&" eq_refl eq_refl). }
destruct vmap as [| p rest] eqn:E; [now repeat constructor |].
rewrite <- E.
repeat constructor; [exact D |].
rewrite contains_append. cbn [contains orb]. 
change (Ascii.eqb "v" "&" || (Ascii.eqb "m" "&" || (Ascii.eqb "a" "&"
        || (Ascii.eqb "p" "&" || (Ascii.eqb "=" "&" || false)))))
with false.
cbn [orb].
apply contains_join; [reflexivity |].
apply Forall_forall. intros x Ix.
apply in_map_iff in Ix as (kv & <- & I).
now apply entry_clean.
Qed.

Lemma parse_meta_vmap :
dict_find (Dec.parse_meta meta) "vmap"
= match vmap with
| [] => None
| _ => Some (join ";" (map (fun kv => fst kv ++ ":" ++ snd kv) vmap))
end.
Proof.
unfold Dec.parse_meta. rewrite drop_append.
set (parts := (Enc.final_meta_parts true key_order vmap ++ extras)%list).
assert (S : match join "&" parts with
          | EmptyString => []
          | _ => split "&" (join "&" parts)
          end = parts).
{ assert (N : join "&" parts <> "").
{ eapply join_not_empty. unfold parts, Enc.final_meta_parts.
  destruct vmap; reflexivity. }
destruct (join "&" parts) eqn:J; [contradiction |]. rewrite <- J.
apply (split_join "&").
- unfold parts, Enc.final_meta_parts. destruct vmap; discriminate.
- apply meta_parts_clean. }
cbv zeta. rewrite S, parse_pairs_find. unfold parts.
rewrite lookup_last_app, Evmap.
unfold Enc.final_meta_parts. destruct vmap; reflexivity.
Qed.

Lemma decode_encoded_strings (new : dict json) :
Dec.decode_strings new meta
("BODY|" ++ Enc._build_positional_body repr_container records key_order
              table)
= Ok (dict_set new "data"
      (JDict [("sensordata", JList (map (restored key_order) records))])).
Proof.
unfold Dec.decode_strings. cbv zeta.
rewrite (parse_vmap_declared _ parse_meta_vmap).
rewrite drop_append. unfold Enc._build_positional_body.
change Dec.RECORD_SEP with Enc.RECORD_SEP.
rewrite split_join.
- unfold Enc.header at 1.
rewrite match_header_header.
+ change ("," : string) with (Enc.chr ",").
  rewrite (split_join "," key_order key_order_not_nil).
  * rewrite (decode_encoded_rows _ records (incl_refl _)).
    rewrite map_map.
    rewrite (map_ext _ (restored key_order)); [reflexivity |].
    intros r. unfold Dec.record_json, restored.
    now rewrite map_map.
  * apply Forall_forall. intros k Ik. now apply key_clean.
+ apply fields_not_empty.
+ now apply fields_clean.
- discriminate.
- constructor; [apply header_clean |].
apply Forall_forall. intros x Ix.
apply in_map_iff in Ix as (r & <- & Ir).
now apply row_clean.
Qed.

End Meta.

End RoundTrip.

Lemma dict_set_set {V} (d : dict V) (k : string) (v w : V) :
  dict_set (dict_set d k v) k w = dict_set d k w.
Proof.
  induction d as [| [k' v'] d IH]; cbn.
  - now rewrite String.eqb_refl.
  - destruct (String.eqb k' k) eqn:E; cbn; rewrite E; [reflexivity |].
    now rewrite IH.
Qed.

(** Round trip in compact mode, away from the separators.  For a payload
    whose records have distinct field names without newline, comma, pipe
    or ampersand, string values without comma, pipe, colon, ampersand or
    semicolon, one value per record that is not blank, some field name
    that is not empty, and passthrough scalars without ampersand:
    decoding the encoded payload gives, for every cost oracle and
    threshold, the payload whose records carry every field of the Key
    Order, with the original value of a field that was present and the
    empty string for one that was missing. *)
Theorem roundtrip_compact (repr_container : json -> string) (tiktoken : bool)
        (enc : option (string -> list Z)) (payload : dict json)
        (data : json) (records : list (dict json)) (value_min_freq : Z) :
  dict_find payload "data" = Some data ->
  Enc.records_of data = Ok records ->
  (forall r, In r records -> plain_record r) ->
  (exists r k, In r records /\ In k (keys r) /\ k <> "") ->
  Forall (fun e => contains "&" e = false)
         (Enc.passthrough repr_container payload) ->
  bind (Enc.encode repr_container tiktoken enc payload value_min_freq true)
       Dec.decode
  = Ok (dict_set payload "data"
          (JDict [("sensordata",
                   JList (map (restored (Enc.key_order_of records))
                              records))])).
Proof.
  intros Hd Hr Hp Hn He.
  unfold Enc.encode. rewrite Hd, Hr. cbn [bind].
  destruct (final_table_facts repr_container tiktoken enc true records
              (Enc.key_order_of records) (lower (dumps (JDict payload)))
              value_min_freq) as (M & K1 & K2 & T).
  cbv zeta in M, K1, K2, T.
  set (tables := Enc.final_tables _ _ _ _ _ _ _ _) in *.
  rewrite M.
  unfold Dec.decode. rewrite dict_find_set_same.
  cbn [dict_get dict_find String.eqb Ascii.eqb Bool.eqb].
  rewrite !startswith_append. cbn [negb].
  change (Enc.build_body repr_container true)
    with (Enc._build_positional_body repr_container).
  rewrite (decode_encoded_strings repr_container payload data records
             (fst tables) Hd Hr Hp Hn K2 T
             (Enc.passthrough repr_container payload) He
             (passthrough_no_vmap repr_container payload)).
  now rewrite dict_set_set.
Qed.

Lemma scenario_records_plain (r : dict json) :
  In r scenario_records -> plain_record r.
Proof.
  intros [<- | [<- | [<- | []]]];
    (split; [| split]);
    try (repeat constructor; cbn; intuition discriminate);
    try (intros k v [[= <- <-] | [[= <- <-] | []]];
         (split; [reflexivity | eexists; split; reflexivity]));
    (exists "temp"; eexists; split; [left; reflexivity | reflexivity]).
Defined.

Lemma roundtrip_compact_witness :
  bind (Enc.encode (fun _ => "") false None scenario_payload 2 true)
       Dec.decode
  = Ok (dict_set scenario_payload "data"
          (JDict [("sensordata",
                   JList (map (restored (Enc.key_order_of scenario_records))
                              scenario_records))])).
Proof.
  apply (roundtrip_compact (fun _ => "") false None scenario_payload
           (JDict [("sensordata", JList (map JDict scenario_records))])
           scenario_records 2).
  - reflexivity.
  - reflexivity.
  - exact scenario_records_plain.
  - exists [("temp", JStr "21.5"); ("unit", JStr "C")], "temp".
    split; [left; reflexivity | split; [left; reflexivity | discriminate]].
  - constructor.
Defined.

(** * Further properties *)

(** ** What the encoder accepts *)

Lemma check_records_cases (l : list json) :
  (exists records, l = map JDict records /\ Enc.check_records l = Ok records)
  \/ ((forall records, l <> map JDict records)
      /\ Enc.check_records l = Raise record_not_dict).
Proof.
  induction l as [| x l IH].
  - left. exists []. now split.
  - destruct x as [| b | z | s | l' | d];
      try (right; split; [intros [| r rs]; discriminate | reflexivity]).
    destruct IH as [(rs & -> & E) | (N & E)].
    + left. exists (d :: rs). cbn. rewrite E. now split.
    + right. split.
      * intros [| r rs]; [discriminate |]. cbn. intros [= -> ->].
        now apply (N rs).
      * cbn. now rewrite E.
Qed.

Lemma records_of_holds (data : json) (l : list json) :
  holds_records data l -> Enc.records_of data = Enc.check_records l.
Proof.
  intros H. destruct H as [l | d l E | d k l E | k l]; unfold Enc.records_of.
  - reflexivity.
  - now rewrite E.
  - now rewrite E.
  - cbn [dict_find]. now destruct (String.eqb k "sensordata").
Qed.

Lemma records_of_cases (data : json) :
  (exists l, holds_records data l)
  \/ ((forall l, ~ holds_records data l)
      /\ Enc.records_of data = Raise unsupported_format).
Proof.
  assert (F : forall j,
             (exists l, j = JList l \/ exists k, j = JDict [(k, JList l)])
             \/ ((forall l, j <> JList l)
                 /\ (forall k l, j <> JDict [(k, JList l)])
                 /\ Enc._flatten_records j = Raise unsupported_format)).
  { intros j.
    destruct j as [| b | z | s | l | d];
      try (right; split; [| split]; [discriminate | discriminate | reflexivity]).
    - left. exists l. now left.
    - destruct d as [| [k x] d'];
        [right; split; [| split]; [discriminate | discriminate | reflexivity] |].
      destruct x as [| b | z | s | l | e];
        try (right; split; [| split];
             [discriminate | intros ? ?; discriminate
              | now destruct d' as [| [? ?] ?]]).
      destruct d' as [| p d'].
      + left. exists l. right. now exists k.
      + right. split; [| split];
          [discriminate | intros ? ?; discriminate | reflexivity]. }
  destruct data as [| b | z | s | l | d];
    try (right; split; [intros l H; inversion H | reflexivity]).
  - left. exists l. constructor.
  - destruct (dict_find d "sensordata") as [s |] eqn:E.
    + destruct (F s) as [(l & [-> | (k & ->)]) | (N1 & N2 & R)].
      * left. exists l. now apply in_sensordata.
      * left. exists l. now apply (in_sensordata_key d k).
      * right. split.
        -- intros l H. inversion H as [| ? ? E' | ? ? ? E' |]; subst.
           ++ rewrite E in E'. injection E' as ->. now apply (N1 l).
           ++ rewrite E in E'. injection E' as ->. now apply (N2 k l).
           ++ cbn in E. destruct (String.eqb k "sensordata"); [| discriminate].
              injection E as <-. now apply (N1 l).
        -- unfold Enc.records_of. now rewrite E, R.
    + destruct (F (JDict d)) as [(l & [H | (k & H)]) | (N1 & N2 & R)].
      * discriminate.
      * injection H as ->. left. exists l. apply in_single_key.
      * right. split.
        -- intros l H. inversion H as [| ? ? E' | ? ? ? E' |]; subst.
           ++ rewrite E in E'. discriminate.
           ++ rewrite E in E'. discriminate.
           ++ now apply (N2 k l).
        -- unfold Enc.records_of. now rewrite E, R.
Qed.

Lemma encode_of_records (repr_container : json -> string) (tiktoken : bool)
      (enc : option (string -> list Z)) (payload : dict json) (data : json)
      (value_min_freq : Z) (compact : bool) :
  dict_find payload "data" = Some data ->
  raised (Enc.encode repr_container tiktoken enc payload value_min_freq
            compact)
  = raised (Enc.records_of data)
  /\ (forall e, Enc.records_of data = Raise e ->
        Enc.encode repr_container tiktoken enc payload value_min_freq compact
        = Raise e).
Proof.
  intros Hd. unfold Enc.encode. rewrite Hd.
  destruct (Enc.records_of data) as [records | e]; cbn [bind raised].
  - split; [reflexivity | discriminate].
  - split; [reflexivity | now intros ? [= ->]].
Qed.

(** X2.  Which payloads the encoder takes.  With a [data], [encode]
    returns exactly when [data] holds a record list in one of the four
    accepted places and every record is an object; it raises the format
    error when [data] holds no list there, and the record error when a
    record of the list is not an object. *)
Theorem encode_accepts (repr_container : json -> string) (tiktoken : bool)
        (enc : option (string -> list Z)) (payload : dict json)
        (data : json) (value_min_freq : Z) (compact : bool) :
  dict_find payload "data" = Some data ->
  let result :=
    Enc.encode repr_container tiktoken enc payload value_min_freq compact in
  (raised result = false
   <-> exists records, holds_records data (map JDict records))
  /\ ((forall l, ~ holds_records data l) ->
      result = Raise unsupported_format)
  /\ (forall l, holds_records data l ->
        (forall records, l <> map JDict records) ->
        result = Raise record_not_dict).
Proof.
  intros Hd result.
  destruct (encode_of_records repr_container tiktoken enc payload data
              value_min_freq compact Hd) as [R E].
  fold result in R, E.
  split; [| split].
  - rewrite R. split.
    + intros H. destruct (records_of_cases data) as [(l & Hl) | (_ & U)].
      * rewrite (records_of_holds data l Hl) in H.
        destruct (check_records_cases l) as [(rs & -> & _) | (_ & C)].
        -- now exists rs.
        -- rewrite C in H. discriminate.
      * rewrite U in H. discriminate.
    + intros (rs & H). rewrite (records_of_holds _ _ H).
      destruct (check_records_cases (map JDict rs)) as [(rs' & _ & ->) | (N & _)].
      * reflexivity.
      * now contradiction (N rs).
  - intros N. apply E.
    destruct (records_of_cases data) as [(l & Hl) | (_ & U)]; [| exact U].
    now contradiction (N l).
  - intros l Hl N. apply E. rewrite (records_of_holds data l Hl).
    destruct (check_records_cases l) as [(rs & -> & _) | (_ & C)]; [| exact C].
    now contradiction (N rs).
Qed.

Lemma encode_accepts_witness :
  (raised (Enc.encode (fun _ => "") false None scenario_payload 2 true) = false
   <-> exists records,
       holds_records
         (JDict [("sensordata", JList (map JDict scenario_records))])
         (map JDict records))
  /\ ((forall l,
          ~ holds_records
              (JDict [("sensordata", JList (map JDict scenario_records))]) l) ->
      Enc.encode (fun _ => "") false None scenario_payload 2 true
      = Raise unsupported_format)
  /\ (forall l,
         holds_records
           (JDict [("sensordata", JList (map JDict scenario_records))]) l ->
         (forall records, l <> map JDict records) ->
         Enc.encode (fun _ => "") false None scenario_payload 2 true
         = Raise record_not_dict).
Proof.
  apply (encode_accepts (fun _ => "") false None scenario_payload
           (JDict [("sensordata", JList (map JDict scenario_records))]) 2 true).
  reflexivity.
Defined.

(** X3.  Encoding twice.  What [encode] returns for a payload with a
    [data] is not a payload it takes: its [data] is the pair of [meta]
    and [body], a dict of two keys without a record list, and encoding
    it again raises the format error, whatever the mode. *)
Theorem encode_twice_raises (repr_container : json -> string)
        (tiktoken : bool) (enc : option (string -> list Z))
        (payload out : dict json) (value_min_freq value_min_freq' : Z)
        (compact compact' : bool) :
  dict_in payload "data" = true ->
  Enc.encode repr_container tiktoken enc payload value_min_freq compact
  = Ok out ->
  Enc.encode repr_container tiktoken enc out value_min_freq' compact'
  = Raise unsupported_format.
Proof.
  unfold dict_in, Enc.encode at 1.
  destruct (dict_find payload "data") as [data |]; [intros _ | discriminate].
  destruct (Enc.records_of data) as [records | e]; [| discriminate].
  cbn [bind]. intros [= <-].
  unfold Enc.encode. rewrite dict_find_set_same. reflexivity.
Qed.

Lemma encode_twice_raises_witness :
  Enc.encode (fun _ => "") false None
    [("data", coil "META&ORDER=temp,unit"
                "sensordata[3]{temp,unit}|21.5,C|21.5,C|19.0,C")] 2 false
  = Raise unsupported_format.
Proof.
  apply (encode_twice_raises (fun _ => "") false None scenario_payload _ 2 2
           true false).
  - reflexivity.
  - vm_compute. reflexivity.
Defined.

(** ** The counter and the proposals *)

Lemma Counter_fold_get (l : list string) (acc : dict Z) (v : string) :
  dict_get (fold_left (fun cnt x => dict_set cnt x (dict_get cnt x 0 + 1)%Z)
              l acc) v 0%Z
  = (dict_get acc v 0 + occurrences l v)%Z.
Proof.
  revert acc. induction l as [| x l IH]; intros acc.
  - unfold occurrences. cbn. lia.
  - cbn [fold_left]. rewrite IH. unfold occurrences, dict_get at 1.
    rewrite dict_find_set. cbn [count_occ].
    destruct (String.eqb_spec x v) as [-> | N].
    + destruct (string_dec v v) as [_ | N]; [| contradiction].
      fold (dict_get acc v 0%Z). lia.
    + destruct (string_dec x v) as [E | _]; [contradiction |].
      fold (dict_get acc v 0%Z). lia.
Qed.

Lemma Counter_get (l : list string) (v : string) :
  dict_get (Enc.Counter l) v 0%Z = occurrences l v.
Proof. unfold Enc.Counter. now rewrite Counter_fold_get. Qed.

Lemma Counter_NoDup (l : list string) : NoDup (keys (Enc.Counter l)).
Proof.
  unfold Enc.Counter.
  assert (G : forall acc : dict Z,
             NoDup (keys acc) ->
             NoDup (keys (fold_left
                            (fun cnt x => dict_set cnt x (dict_get cnt x 0 + 1)%Z)
                            l acc))).
  { induction l as [| x l IH]; intros acc N; [exact N |].
    cbn [fold_left]. apply IH. now apply dict_set_keys_NoDup. }
  apply G. constructor.
Qed.

Lemma occurrences_pos (l : list string) (v : string) :
  In v l <-> (0 < occurrences l v)%Z.
Proof.
  unfold occurrences. rewrite (count_occ_In string_dec). lia.
Qed.

Lemma Counter_In (l : list string) (v : string) (f : Z) :
  In (v, f) (Enc.Counter l) <-> In v l /\ f = occurrences l v.
Proof.
  split.
  - intros I. split.
    + apply Counter_keys. apply (in_map fst) in I. exact I.
    + apply dict_find_NoDup in I; [| apply Counter_NoDup].
      rewrite <- Counter_get. unfold dict_get. now rewrite I.
  - intros [I ->]. apply dict_find_In.
    pose proof (Counter_get l v) as G. unfold dict_get in G.
    destruct (dict_find (Enc.Counter l) v) as [f |]; [now rewrite G |].
    apply occurrences_pos in I. lia.
Qed.

Lemma candidates_In (l : list string) (min_freq : Z) (v : string) :
  In v (Enc.candidates (Enc.Counter l) min_freq)
  <-> In v l /\ (min_freq <= occurrences l v)%Z.
Proof.
  unfold Enc.candidates. split.
  - intros H. eapply Permutation_in in H; [| apply stable_sort_perm].
    apply in_map_iff in H as ([v' f] & E & H). cbn in E. subst v'.
    apply filter_In in H as [H L]. cbn in L. apply Z.leb_le in L.
    apply Counter_In in H as [I ->]. now split.
  - intros [I L].
    eapply Permutation_in; [apply Permutation_sym, stable_sort_perm |].
    apply in_map_iff. exists (v, occurrences l v). split; [reflexivity |].
    apply filter_In. split; [now apply Counter_In |].
    cbn. now apply Z.leb_le.
Qed.

Lemma NoDup_keys_filter {V} (p : string * V -> bool) (d : dict V) :
  NoDup (keys d) -> NoDup (keys (filter p d)).
Proof.
  unfold keys. induction d as [| kv d IH]; cbn; [constructor |].
  intros N. inversion N as [| ? ? N1 N2]; subst.
  destruct (p kv); [| now apply IH].
  cbn. constructor; [| now apply IH].
  intros I. apply N1. apply in_map_iff in I as (x & E & I).
  apply filter_In in I as [I _]. apply in_map_iff. now exists x.
Qed.

Lemma candidates_NoDup (l : list string) (min_freq : Z) :
  NoDup (Enc.candidates (Enc.Counter l) min_freq).
Proof.
  unfold Enc.candidates.
  eapply Permutation_NoDup; [apply Permutation_sym, stable_sort_perm |].
  apply (NoDup_keys_filter _ (Enc.Counter l)), Counter_NoDup.
Qed.

(** A list sorted with [list.sort(key=w, reverse=True)] has its keys
    in descending order. *)
Lemma insert_descending {A} (w : A -> Z) (x : A) (l : list A) :
  StronglySorted (fun a b => (w b <= w a)%Z) l ->
  StronglySorted (fun a b => (w b <= w a)%Z)
    (insert (fun y x => (w x <? w y)%Z) x l).
Proof.
  induction 1 as [| y r S IH F]; cbn.
  - repeat constructor.
  - destruct (Z.ltb_spec (w x) (w y)) as [L | G].
    + constructor; [exact IH |].
      eapply Permutation_Forall; [apply Permutation_sym, insert_perm |].
      constructor; [lia | exact F].
    + constructor; [now constructor |].
      constructor; [exact G |].
      eapply Forall_impl; [| exact F]. cbn. intros z Hz. lia.
Qed.

Lemma strongly_sorted_weaken {A} (R R' : A -> A -> Prop) (l : list A) :
  (forall a b, R a b -> R' a b) ->
  StronglySorted R l -> StronglySorted R' l.
Proof.
  intros W. induction 1 as [| x l S IH F]; constructor; [exact IH |].
  eapply Forall_impl; [| exact F]. intros b. apply W.
Qed.

Lemma stable_sort_descending {A} (w : A -> Z) (l : list A) :
  StronglySorted (fun a b => (w b <= w a)%Z)
    (stable_sort (fun y x => (w x <? w y)%Z) l).
Proof.
  induction l as [| x l IH]; cbn; [constructor |].
  now apply insert_descending.
Qed.

Lemma propose_fold_keys (payload_text : string) (l : list string)
      (st : Enc.proposal_state) :
  NoDup (keys (Enc.proposals st) ++ l) ->
  keys (Enc.proposals (fold_left (Enc.propose_step payload_text) l st))
  = (keys (Enc.proposals st) ++ l)%list.
Proof.
  revert st. induction l as [| v l IH]; intros st N; cbn [fold_left].
  - now rewrite app_nil_r.
  - assert (Fv : ~ In v (keys (Enc.proposals st))).
    { apply NoDup_remove_2 in N. intros I. apply N, in_or_app. now left. }
    assert (K : keys (Enc.proposals (Enc.propose_step payload_text st v))
                = (keys (Enc.proposals st) ++ [v])%list).
    { cbn [Enc.propose_step Enc.proposals].
      rewrite (dict_set_new _ v _ Fv). unfold keys. now rewrite map_app. }
    rewrite IH; rewrite K, <- app_assoc; [reflexivity | exact N].
Qed.

Lemma proposals_are_candidates (repr_container : json -> string)
      (records : list (dict json)) (payload_text : string) (min_freq : Z) :
  keys (fst (Enc._propose_value_tokens repr_container records payload_text
               min_freq))
  = Enc.candidates (Enc.Counter (Enc.all_values repr_container records))
      min_freq.
Proof.
  unfold Enc._propose_value_tokens. cbn [fst].
  rewrite propose_fold_keys; [reflexivity |]. apply candidates_NoDup.
Qed.

Lemma all_values_In (repr_container : json -> string)
      (records : list (dict json)) (v : string) :
  In v (Enc.all_values repr_container records)
  <-> exists r k x, In r records /\ In (k, x) r /\ x <> JNull
                    /\ v = Enc.py_str repr_container x.
Proof.
  unfold Enc.all_values. split.
  - intros H. apply in_flat_map in H as (r & Ir & H).
    apply in_flat_map in H as (x & Ix & H).
    apply in_map_iff in Ix as ([k x'] & E & Ikx). cbn in E. subst x'.
    exists r, k, x. split; [exact Ir | split; [exact Ikx |]].
    destruct x; cbn in H; try contradiction;
      destruct H as [<- | []]; (split; [discriminate | reflexivity]).
  - intros (r & k & x & Ir & Ikx & N & ->).
    apply in_flat_map. exists r. split; [exact Ir |].
    apply in_flat_map. exists x. split.
    + apply (in_map snd) in Ikx. exact Ikx.
    + destruct x; try (now left). contradiction.
Qed.

(** X4.  What is proposed, and in what order.  The counter returned by
    [_propose_value_tokens] gives for every text the number of fields
    whose value, not [None], has that text; a text is proposed exactly
    when it stands at least [min_freq] times; no text is proposed
    twice; and the proposals are listed by falling benefit, the number
    of occurrences times the length. *)
Theorem proposals_ranked (repr_container : json -> string)
        (records : list (dict json)) (payload_text : string)
        (min_freq : Z) :
  let texts := Enc.all_values repr_container records in
  let P := Enc._propose_value_tokens repr_container records payload_text
             min_freq in
  (forall v, In v texts
             <-> exists r k x, In r records /\ In (k, x) r /\ x <> JNull
                               /\ v = Enc.py_str repr_container x)
  /\ (forall v, dict_get (snd P) v 0%Z = occurrences texts v)
  /\ (forall v, In v (keys (fst P))
                <-> In v texts /\ (min_freq <= occurrences texts v)%Z)
  /\ NoDup (keys (fst P))
  /\ StronglySorted
       (fun a b => (occurrences texts b * len b
                    <= occurrences texts a * len a)%Z)
       (keys (fst P)).
Proof.
  intros texts P.
  split; [apply all_values_In | split; [| split; [| split]]].
  - intros v. apply Counter_get.
  - intros v. unfold P. rewrite proposals_are_candidates.
    apply candidates_In.
  - unfold P. rewrite proposals_are_candidates. apply candidates_NoDup.
  - unfold P. rewrite proposals_are_candidates. unfold Enc.candidates.
    eapply strongly_sorted_weaken; [| apply stable_sort_descending].
    intros a b. cbn beta. unfold Enc.benefit. now rewrite !Counter_get.
Qed.

(** ** The suffix loop *)

(** X5.  The suffix loop finds the first free candidate.  For a token
    [V<i>], a payload text and the set of tokens in use: when the token
    is free (it does not collide with the text and is not in use) it is
    kept; otherwise the loop returns [V<i><n>] for the least [n >= 1]
    whose candidate is free.  The loop ends: there are fewer colliding
    or used candidates than the bound it is run with. *)
Theorem suffix_is_least (payload_text : string) (used : list string)
        (i : nat) :
  let bad := fun c => Enc._word_collision c payload_text || mem c used in
  let tok := "V" ++ str_nat i in
  let found :=
    Enc.fresh_token bad
      (S (String.length payload_text + List.length used)) tok in
  bad found = false
  /\ (bad tok = false -> found = tok)
  /\ (bad tok = true ->
      exists n, 1 <= n /\ found = tok ++ str_nat n
                /\ forall j, 1 <= j < n -> bad (tok ++ str_nat j) = true).
Proof.
  intros bad tok found.
  destruct (fresh_token_good payload_text used (fun c => mem c used) tok)
    as [G _].
  { intros c. apply mem_In. }
  { apply tokenish_V. }
  split; [exact G | split].
  - intros B. unfold found, Enc.fresh_token. now rewrite B.
  - intros B. unfold found, Enc.fresh_token. rewrite B.
    destruct (next_free_form bad tok
                (S (String.length payload_text + List.length used)) 1)
      as (n & E & L & A).
    exists n. now repeat split.
Qed.

(** ** Tokens in sequence *)

Lemma token_not_yet_used (j : nat) :
  mem ("V" ++ str_nat (S j))
      (map (fun i => "V" ++ str_nat i) (seq 1 j)) = false.
Proof.
  destruct (mem _ _) eqn:M; [| reflexivity].
  apply mem_In, in_map_iff in M as (i & E & I).
  apply append_inj_l, str_nat_inj in E. apply in_seq in I. lia.
Qed.

Lemma propose_fold_sequence (payload_text : string) (l : list string)
      (st : Enc.proposal_state) (j : nat) :
  NoDup (keys (Enc.proposals st) ++ l) ->
  Enc.next_i st = S j ->
  Enc.used st = map (fun i => "V" ++ str_nat i) (seq 1 j) ->
  values (Enc.proposals st) = map (fun i => "V" ++ str_nat i) (seq 1 j) ->
  (forall i, 1 <= i <= j + List.length l ->
             Enc._word_collision ("V" ++ str_nat i) payload_text = false) ->
  values (Enc.proposals (fold_left (Enc.propose_step payload_text) l st))
  = map (fun i => "V" ++ str_nat i) (seq 1 (j + List.length l)).
Proof.
  revert st j. induction l as [| v l IH]; intros st j N I U P C.
  - cbn. now rewrite Nat.add_0_r.
  - cbn [fold_left List.length].
    assert (Fv : ~ In v (keys (Enc.proposals st))).
    { apply NoDup_remove_2 in N. intros H. apply N, in_or_app. now left. }
    assert (T : Enc.fresh_token
                  (fun c => Enc._word_collision c payload_text
                            || mem c (Enc.used st))
                  (S (String.length payload_text + List.length (Enc.used st)))
                  ("V" ++ str_nat (Enc.next_i st))
                = "V" ++ str_nat (S j)).
    { unfold Enc.fresh_token. rewrite I, U, token_not_yet_used.
      rewrite C by (cbn; lia). reflexivity. }
    replace (j + S (List.length l)) with (S j + List.length l) by lia.
    apply IH.
    + cbn [Enc.propose_step Enc.proposals]. rewrite (dict_set_new _ v _ Fv).
      unfold keys. rewrite map_app, <- app_assoc. exact N.
    + cbn [Enc.propose_step Enc.next_i]. now rewrite I.
    + cbn [Enc.propose_step Enc.used]. rewrite T. unfold set_add.
      rewrite U, token_not_yet_used, seq_S, map_app. reflexivity.
    + cbn [Enc.propose_step Enc.proposals]. rewrite T.
      rewrite (dict_set_new _ v _ Fv). unfold values.
      rewrite map_app. fold (values (Enc.proposals st)).
      rewrite P, seq_S, map_app. reflexivity.
    + intros i Hi. apply C. cbn [List.length]. lia.
Qed.

(** X6.  The tokens when nothing collides.  When the payload text has
    none of the words [V1], ..., [Vn], for the [n] proposals, the
    proposals get the tokens [V1], ..., [Vn] in their order: no suffix
    is appended. *)
Theorem tokens_in_sequence (repr_container : json -> string)
        (records : list (dict json)) (payload_text : string)
        (min_freq : Z) :
  let P := fst (Enc._propose_value_tokens repr_container records
                  payload_text min_freq) in
  (forall i, 1 <= i <= List.length P ->
             Enc._word_collision ("V" ++ str_nat i) payload_text = false) ->
  values P = map (fun i => "V" ++ str_nat i) (seq 1 (List.length P)).
Proof.
  intros P C.
  assert (L : List.length P
              = List.length
                  (Enc.candidates
                     (Enc.Counter (Enc.all_values repr_container records))
                     min_freq)).
  { unfold P.
    rewrite <- (proposals_are_candidates repr_container records payload_text
                  min_freq).
    unfold keys. now rewrite length_map. }
  rewrite L in *. unfold P, Enc._propose_value_tokens. cbn [fst].
  apply (propose_fold_sequence payload_text _ _ 0); try reflexivity;
    [apply candidates_NoDup | exact C].
Qed.

Lemma tokens_in_sequence_witness :
  values (fst (Enc._propose_value_tokens (fun _ => "") scenario_records
                 (lower (dumps (JDict scenario_payload))) 2))
  = ["V1"; "V2"].
Proof.
  apply (tokens_in_sequence (fun _ => "") scenario_records
           (lower (dumps (JDict scenario_payload))) 2).
  intros i Hi.
  change (1 <= i <= 2) in Hi.
  assert (E : i = 1 \/ i = 2) by lia.
  destruct E as [-> | ->]; reflexivity.
Defined.

(** ** The threshold *)

Lemma encode_emits (repr_container : json -> string) (tiktoken : bool)
      (enc : option (string -> list Z)) (payload : dict json) (data : json)
      (records : list (dict json)) (value_min_freq : Z) (compact : bool) :
  dict_find payload "data" = Some data ->
  Enc.records_of data = Ok records ->
  let key_order := Enc.key_order_of records in
  let table :=
    fst (Enc.final_tables repr_container tiktoken enc compact records
           key_order (lower (dumps (JDict payload))) value_min_freq) in
  Enc.encode repr_container tiktoken enc payload value_min_freq compact
  = Ok (dict_set payload "data"
          (coil (append_decls (Enc.hypot_meta compact key_order table)
                   (Enc.passthrough repr_container payload))
                (Enc.build_body repr_container compact records key_order
                   table))).
Proof.
  intros Hd Hr key_order table.
  destruct (final_tables_inv repr_container tiktoken enc compact records
              key_order (lower (dumps (JDict payload))) value_min_freq)
    as (_ & M & _).
  unfold Enc.encode. rewrite Hd, Hr. cbn [bind].
  fold key_order.
  rewrite M, join_append_decls by apply final_meta_parts_not_nil.
  now rewrite final_meta_is_hypot_meta.
Qed.

(** X7.  Below the threshold.  When no text stands [value_min_freq]
    times or more among the values, the encoder writes the baseline,
    whatever the cost oracle: Meta has the one declaration [ORDER=] or
    [map=] and the passthrough scalars, no value map, and every cell of
    the body is the escaped value. *)
Theorem below_threshold_is_baseline (repr_container : json -> string)
        (tiktoken : bool) (enc : option (string -> list Z))
        (payload : dict json) (data : json) (records : list (dict json))
        (value_min_freq : Z) (compact : bool) :
  dict_find payload "data" = Some data ->
  Enc.records_of data = Ok records ->
  (forall v, In v (Enc.all_values repr_container records) ->
             (occurrences (Enc.all_values repr_container records) v
              < value_min_freq)%Z) ->
  Enc.encode repr_container tiktoken enc payload value_min_freq compact
  = Ok (dict_set payload "data"
          (coil (append_decls
                   ("META&" ++ Enc.meta_decl compact
                                 (Enc.key_order_of records))
                   (Enc.passthrough repr_container payload))
                (Enc.build_body repr_container compact records
                   (Enc.key_order_of records) []))).
Proof.
  intros Hd Hr B.
  rewrite (encode_emits repr_container tiktoken enc payload data records
             value_min_freq compact Hd Hr).
  cbv zeta. unfold Enc.final_tables.
  assert (P : fst (Enc._propose_value_tokens repr_container records
                     (lower (dumps (JDict payload))) value_min_freq) = []).
  { pose proof (proposals_are_candidates repr_container records
                  (lower (dumps (JDict payload))) value_min_freq) as K.
    destruct (Enc.candidates _ _) as [| v l] eqn:E.
    - destruct (fst _); [reflexivity | discriminate].
    - exfalso.
      assert (I : In v (Enc.candidates
                          (Enc.Counter (Enc.all_values repr_container records))
                          value_min_freq)) by (rewrite E; now left).
      apply candidates_In in I as [I L]. specialize (B v I). lia. }
  rewrite P. reflexivity.
Qed.

Lemma below_threshold_is_baseline_witness :
  Enc.encode (fun _ => "") false None scenario_payload 4 false
  = Ok (dict_set scenario_payload "data"
          (coil (append_decls
                   ("META&" ++ Enc.meta_decl false
                                 (Enc.key_order_of scenario_records))
                   (Enc.passthrough (fun _ => "") scenario_payload))
                (Enc.build_body (fun _ => "") false scenario_records
                   (Enc.key_order_of scenario_records) []))).
Proof.
  apply (below_threshold_is_baseline (fun _ => "") false None
           scenario_payload
           (JDict [("sensordata", JList (map JDict scenario_records))])
           scenario_records 4 false).
  - reflexivity.
  - reflexivity.
  - intros v I.
    change (In v ["21.5"; "C"; "21.5"; "C"; "19.0"; "C"]) in I.
    destruct I as [<- | [<- | [<- | [<- | [<- | [<- | []]]]]]]; reflexivity.
Defined.

(** ** The table the encoder declares *)

(** X8.  The value map is one-to-one, above the threshold, and pays.
    The encoder writes Meta and Body with one table: no value has two
    tokens and no token two values, every pair in it is a proposal with
    the token it was proposed with, its value stands at least
    [value_min_freq] times among the values, its token is a [V] and
    digits, and when the table is not empty the text measured with it
    costs strictly less than the baseline. *)
Theorem vmap_one_to_one_and_cheaper (repr_container : json -> string)
        (tiktoken : bool) (enc : option (string -> list Z))
        (payload : dict json) (data : json) (records : list (dict json))
        (value_min_freq : Z) (compact : bool) :
  dict_find payload "data" = Some data ->
  Enc.records_of data = Ok records ->
  let cost := Enc._token_count tiktoken enc in
  let key_order := Enc.key_order_of records in
  let texts := Enc.all_values repr_container records in
  exists table : dict string,
    Enc.encode repr_container tiktoken enc payload value_min_freq compact
    = Ok (dict_set payload "data"
            (coil (append_decls (Enc.hypot_meta compact key_order table)
                     (Enc.passthrough repr_container payload))
                  (Enc.build_body repr_container compact records key_order
                     table)))
    /\ NoDup (keys table) /\ NoDup (values table)
    /\ (forall v t, In (v, t) table ->
          In (v, t)
             (fst (Enc._propose_value_tokens repr_container records
                     (lower (dumps (JDict payload))) value_min_freq))
          /\ In v texts /\ (value_min_freq <= occurrences texts v)%Z
          /\ tokenish t)
    /\ (table <> [] ->
        (cost (Enc.hypot_text repr_container compact records key_order table)
         < cost (Enc.base_text repr_container compact records key_order))%Z).
Proof.
  intros Hd Hr cost key_order texts.
  set (payload_text := lower (dumps (JDict payload))).
  exists (fst (Enc.final_tables repr_container tiktoken enc compact records
                 key_order payload_text value_min_freq)).
  destruct (final_tables_inv repr_container tiktoken enc compact records
              key_order payload_text value_min_freq) as (I & _ & _ & S).
  destruct (final_table_facts repr_container tiktoken enc compact records
              key_order payload_text value_min_freq) as (_ & K1 & K2 & T).
  cbv zeta in I, S, K1, K2, T.
  split; [| split; [| split; [| split]]].
  - apply (encode_emits repr_container tiktoken enc payload data records
             value_min_freq compact Hd Hr).
  - exact K1.
  - exact K2.
  - intros v t H. destruct (T v t H) as (Tk & _ & _).
    apply I in H. split; [exact H |].
    apply (in_map fst) in H. cbn [fst] in H.
    fold (keys (fst (Enc._propose_value_tokens repr_container records
                       payload_text value_min_freq))) in H.
    rewrite proposals_are_candidates in H.
    apply candidates_In in H as [H L]. now repeat split.
  - intros N. destruct S as [E | S]; [contradiction | exact S].
Qed.

Lemma vmap_one_to_one_and_cheaper_witness :
  exists table : dict string,
    Enc.encode (fun _ => "") false None scenario_payload 2 true
    = Ok (dict_set scenario_payload "data"
            (coil (append_decls
                     (Enc.hypot_meta true (Enc.key_order_of scenario_records)
                        table)
                     (Enc.passthrough (fun _ => "") scenario_payload))
                  (Enc.build_body (fun _ => "") true scenario_records
                     (Enc.key_order_of scenario_records) table)))
    /\ NoDup (keys table) /\ NoDup (values table)
    /\ (forall v t, In (v, t) table ->
          In (v, t)
             (fst (Enc._propose_value_tokens (fun _ => "") scenario_records
                     (lower (dumps (JDict scenario_payload))) 2))
          /\ In v (Enc.all_values (fun _ => "") scenario_records)
          /\ (2 <= occurrences
                     (Enc.all_values (fun _ => "") scenario_records) v)%Z
          /\ tokenish t)
    /\ (table <> [] ->
        (Enc._token_count false None
           (Enc.hypot_text (fun _ => "") true scenario_records
              (Enc.key_order_of scenario_records) table)
         < Enc._token_count false None
             (Enc.base_text (fun _ => "") true scenario_records
                (Enc.key_order_of scenario_records)))%Z).
Proof.
  apply (vmap_one_to_one_and_cheaper (fun _ => "") false None
           scenario_payload
           (JDict [("sensordata", JList (map JDict scenario_records))])
           scenario_records 2 true); reflexivity.
Defined.

(** ** What the codec leaves alone *)

Lemma dict_set_other {V} (d : dict V) (k' k : string) (v : V) :
  k <> k' -> dict_find (dict_set d k' v) k = dict_find d k.
Proof.
  intros N. rewrite dict_find_set.
  destruct (String.eqb_spec k' k) as [-> | _]; [contradiction | reflexivity].
Qed.

Lemma dict_find_keys {V} (d : dict V) (k : string) (v : V) :
  dict_find d k = Some v -> In k (keys d).
Proof. intros H. apply dict_find_In, (in_map fst) in H. exact H. Qed.

(** X9.  The top level of the payload.  What [encode] and [decode]
    return has the keys of the input, in the same order, and the input's
    value under every key other than [data].  The [data] of an encoded
    payload is the pair of a Meta that starts with [META&] and a Body
    that starts with [BODY|]; the [data] of a decoded payload is
    [sensordata] with a list of objects whose values are all strings:
    [decode] returns no payload unchanged. *)
Theorem top_level_kept (repr_container : json -> string) (tiktoken : bool)
        (enc : option (string -> list Z)) (payload : dict json)
        (value_min_freq : Z) (compact : bool) :
  (forall out,
      Enc.encode repr_container tiktoken enc payload value_min_freq compact
      = Ok out ->
      keys out = keys payload
      /\ (forall k, k <> "data" -> dict_find out k = dict_find payload k)
      /\ (dict_find payload "data" = None -> out = payload)
      /\ (dict_find payload "data" <> None ->
          exists meta body,
            dict_find out "data" = Some (coil ("META&" ++ meta) body)))
  /\ (forall out,
         Dec.decode payload = Ok out ->
         keys out = keys payload
         /\ (forall k, k <> "data" -> dict_find out k = dict_find payload k)
         /\ exists records : list (dict string),
              dict_find out "data"
              = Some (JDict [("sensordata",
                              JList (map Dec.record_json records))])).
Proof.
  split; intros out.
  - unfold Enc.encode.
    destruct (dict_find payload "data") as [data |] eqn:Hd.
    + destruct (Enc.records_of data) as [records | e]; [| discriminate].
      cbn [bind]. intros [= <-].
      split; [| split; [| split]].
      * apply dict_set_keys. now apply (dict_find_keys _ _ data).
      * intros k N. now apply dict_set_other.
      * discriminate.
      * intros _. eexists. eexists. rewrite dict_find_set_same.
        unfold coil. reflexivity.
    + intros [= <-]. split; [| split; [| split]]; try reflexivity.
      intros N. now contradiction N.
  - unfold Dec.decode.
    destruct (dict_find payload "data") as [[| | | | | d] |] eqn:Hd;
      try discriminate.
    destruct (dict_get d "meta" (JStr "")) as [| | | meta | |];
      try discriminate.
    destruct (negb (startswith meta "META&")); [discriminate |].
    destruct (dict_get d "body" (JStr "")) as [| | | body | |];
      try discriminate.
    destruct (negb (startswith body "BODY|")); [discriminate |].
    unfold Dec.decode_strings. cbv zeta.
    destruct (split Dec.RECORD_SEP _) as [| header data_rows] eqn:S;
      [now apply split_not_nil in S |].
    destruct (Dec.match_header header) as [[count fields] |];
      [| discriminate].
    intros [= <-]. split; [| split].
    + apply dict_set_keys. now apply (dict_find_keys _ _ (JDict d)).
    + intros k N. now apply dict_set_other.
    + eexists. now rewrite dict_find_set_same.
Qed.

(** ** Malformed containers *)

(** X10.  What [decode] raises on a malformed [data].  A [data] that is
    not an object raises the container error.  In an object, a [meta]
    that is not a string raises [AttributeError], not [ValueError]: the
    marker test is applied to it as it is; a [meta] string without the
    marker raises the format error whatever [body] is; and after a
    [meta] with the marker, a [body] that is not a string raises
    [AttributeError]. *)
Theorem decode_malformed_data (obj : dict json) (value : json) :
  dict_find obj "data" = Some value ->
  ((forall d, value <> JDict d) ->
   Dec.decode obj
   = Raise (ValueError
       "Input JSON must contain 'data' dict with 'meta' and 'body'."))
  /\ (forall d v,
         value = JDict d -> dict_find d "meta" = Some v ->
         (forall s, v <> JStr s) ->
         Dec.decode obj = Raise AttributeError)
  /\ (forall d meta,
         value = JDict d -> dict_get d "meta" (JStr "") = JStr meta ->
         startswith meta "META&" = false ->
         Dec.decode obj = Raise (ValueError "Not valid COIL META/BODY format"))
  /\ (forall d meta v,
         value = JDict d -> dict_get d "meta" (JStr "") = JStr meta ->
         startswith meta "META&" = true ->
         dict_find d "body" = Some v -> (forall s, v <> JStr s) ->
         Dec.decode obj = Raise AttributeError).
Proof.
  intros Hd. unfold Dec.decode. rewrite Hd.
  split; [| split; [| split]].
  - intros N. destruct value; try reflexivity. now contradiction (N d).
  - intros d v -> Hm N. unfold dict_get. rewrite Hm.
    destruct v; try reflexivity. now contradiction (N s).
  - intros d meta -> Hm S. now rewrite Hm, S.
  - intros d meta v -> Hm S Hb N. rewrite Hm, S. cbn [negb].
    unfold dict_get. rewrite Hb.
    destruct v; try reflexivity. now contradiction (N s).
Qed.

Lemma decode_malformed_data_witness :
  ((forall d, JDict [("meta", JNull)] <> JDict d) ->
   Dec.decode [("data", JDict [("meta", JNull)])]
   = Raise (ValueError
       "Input JSON must contain 'data' dict with 'meta' and 'body'."))
  /\ (forall d v,
         JDict [("meta", JNull)] = JDict d -> dict_find d "meta" = Some v ->
         (forall s, v <> JStr s) ->
         Dec.decode [("data", JDict [("meta", JNull)])]
         = Raise AttributeError)
  /\ (forall d meta,
         JDict [("meta", JNull)] = JDict d ->
         dict_get d "meta" (JStr "") = JStr meta ->
         startswith meta "META&" = false ->
         Dec.decode [("data", JDict [("meta", JNull)])]
         = Raise (ValueError "Not valid COIL META/BODY format"))
  /\ (forall d meta v,
         JDict [("meta", JNull)] = JDict d ->
         dict_get d "meta" (JStr "") = JStr meta ->
         startswith meta "META&" = true ->
         dict_find d "body" = Some v -> (forall s, v <> JStr s) ->
         Dec.decode [("data", JDict [("meta", JNull)])]
         = Raise AttributeError).
Proof.
  apply (decode_malformed_data [("data", JDict [("meta", JNull)])]
           (JDict [("meta", JNull)])).
  reflexivity.
Defined.

(** ** Records without a field name *)

Lemma split_join_hd (sep : ascii) (h : string) (rows : list string) :
  contains sep h = false ->
  hd "" (split sep (join (Enc.chr sep) (h :: rows))) = h.
Proof.
  intros C. destruct rows as [| r rows].
  - cbn [join String.concat]. now rewrite split_clean.
  - rewrite join_cons by discriminate.
    change (Enc.chr sep ++ join (Enc.chr sep) (r :: rows))
      with (String sep (join (Enc.chr sep) (r :: rows))).
    now rewrite split_append.
Qed.

Lemma str_nat_not_empty (n : nat) : str_nat n <> "".
Proof.
  intros E. unfold str_nat in E.
  pose proof (DecimalFacts.unorm_nonnil (Nat.to_uint n)) as Z.
  rewrite <- Unsigned.to_of, Unsigned.of_to in Z.
  destruct (Nat.to_uint n); cbn in E; try discriminate. now apply Z.
Qed.

Lemma match_header_no_fields (n : nat) :
  Dec.match_header ("sensordata[" ++ str_nat n ++ "]{" ++ "" ++ "}") = None.
Proof.
  unfold Dec.match_header. rewrite strip_prefix_append.
  change (str_nat n ++ "]{" ++ "" ++ "}") with (str_nat n ++ String "]" "{}").
  rewrite (span_digits_append (str_nat n) "]" _ (str_nat_digits n) eq_refl).
  pose proof (str_nat_not_empty n) as N.
  destruct (str_nat n); [contradiction | reflexivity].
Qed.

Lemma body_header_built (repr_container : json -> string) (compact : bool)
      (records : list (dict json)) (key_order : list string)
      (table : dict string) :
  contains "|" (join "," key_order) = false ->
  body_header ("BODY|" ++ Enc.build_body repr_container compact records
                            key_order table)
  = Enc.header records key_order.
Proof.
  intros C. unfold body_header. rewrite drop_append.
  assert (H : contains "|" (Enc.header records key_order) = false).
  { unfold Enc.header. rewrite !contains_append, C.
    now rewrite (digits_contains (str_nat _) "|" (str_nat_digits _) eq_refl). }
  change Dec.RECORD_SEP with Enc.RECORD_SEP.
  destruct compact; cbn [Enc.build_body];
    unfold Enc._build_positional_body, Enc.build_legacy_body;
    now apply split_join_hd.
Qed.

Lemma decode_strings_invalid (new : dict json) (meta body : string) :
  Dec.match_header (body_header body) = None ->
  Dec.decode_strings new meta body = Raise (ValueError "Invalid BODY header").
Proof.
  unfold body_header, Dec.decode_strings. cbv zeta.
  destruct (split Dec.RECORD_SEP _) as [| header rows] eqn:S;
    [now apply split_not_nil in S |].
  cbn [hd]. now intros ->.
Qed.

Lemma fields_empty_iff (records : list (dict json)) :
  join "," (Enc.key_order_of records) = ""
  <-> forall k, field_of records k -> k = "".
Proof.
  split.
  - intros E k F. apply key_order_In in F.
    destruct (String.eqb_spec k "") as [-> | N]; [reflexivity |].
    now contradiction (join_not_empty_In "," _ k F N).
  - intros A.
    assert (B : forall k, In k (Enc.key_order_of records) -> k = "").
    { intros k I. apply A. now apply key_order_In. }
    pose proof (strictly_sorted_NoDup _ (key_order_sorted records)) as N.
    destruct (Enc.key_order_of records) as [| a [| b l]].
    + reflexivity.
    + rewrite (B a) by now left. reflexivity.
    + exfalso. inversion N as [| ? ? N1 _]; subst. apply N1.
      rewrite (B a), (B b); [now left | right; now left | now left].
Qed.

(** X11.  When the encoder's output cannot be decoded.  For records whose
    field names have no newline and no pipe, in both modes and for
    every oracle: [decode] raises on what [encode] returned exactly when
    no record has a field with a name that is not empty (no record, only
    empty records, or the empty string as the only name); the error is
    then the one of the header. *)
Theorem nameless_records_rejected (repr_container : json -> string)
        (tiktoken : bool) (enc : option (string -> list Z))
        (payload : dict json) (data : json) (records : list (dict json))
        (value_min_freq : Z) (compact : bool) :
  dict_find payload "data" = Some data ->
  Enc.records_of data = Ok records ->
  (forall k, field_of records k ->
             contains newline k = false /\ contains "|" k = false) ->
  let back :=
    bind (Enc.encode repr_container tiktoken enc payload value_min_freq
            compact) Dec.decode in
  (raised back = true <-> forall k, field_of records k -> k = "")
  /\ ((forall k, field_of records k -> k = "") ->
      back = Raise (ValueError "Invalid BODY header")).
Proof.
  intros Hd Hr Hk back.
  set (key_order := Enc.key_order_of records).
  assert (C : forall c, In c [newline; "|"%char] ->
                        contains c (join "," key_order) = false).
  { intros c Hc. apply contains_join.
    - destruct Hc as [<- | [<- | []]]; reflexivity.
    - apply Forall_forall. intros k I. apply key_order_In in I.
      destruct (Hk k I) as [K1 K2].
      destruct Hc as [<- | [<- | []]]; assumption. }
  assert (B : exists meta table,
             back = Dec.decode_strings
                      (dict_set payload "data"
                         (coil meta
                            (Enc.build_body repr_container compact records
                               key_order table)))
                      meta
                      ("BODY|" ++ Enc.build_body repr_container compact
                                    records key_order table)).
  { unfold back, Enc.encode. rewrite Hd, Hr. cbn [bind].
    eexists. eexists. unfold Dec.decode. rewrite dict_find_set_same.
    cbn [dict_get dict_find String.eqb Ascii.eqb Bool.eqb].
    rewrite !startswith_append. cbn [negb]. reflexivity. }
  destruct B as (meta & table & ->).
  assert (M : Dec.match_header
                (body_header
                   ("BODY|" ++ Enc.build_body repr_container compact records
                                 key_order table)) = None
              <-> join "," key_order = "").
  { rewrite body_header_built by (apply C; right; now left).
    unfold Enc.header. split.
    - intros N.
      destruct (String.eqb_spec (join "," key_order) "") as [E | NE];
        [exact E |].
      rewrite match_header_header in N;
        [discriminate | exact NE | apply C; now left].
    - intros ->. apply match_header_no_fields. }
  split.
  - rewrite decode_strings_raises, M. apply fields_empty_iff.
  - intros A. apply decode_strings_invalid, M, fields_empty_iff, A.
Qed.

Lemma nameless_records_rejected_witness :
  (raised (bind (Enc.encode (fun _ => "") false None
                   [("data", JList [JDict []; JDict [("", JStr "x")]])] 2
                   false) Dec.decode) = true
   <-> forall k, field_of [ []; [("", JStr "x")] ] k -> k = "")
  /\ ((forall k, field_of [ []; [("", JStr "x")] ] k -> k = "") ->
      bind (Enc.encode (fun _ => "") false None
              [("data", JList [JDict []; JDict [("", JStr "x")]])] 2 false)
           Dec.decode
      = Raise (ValueError "Invalid BODY header")).
Proof.
  apply (nameless_records_rejected (fun _ => "") false None
           [("data", JList [JDict []; JDict [("", JStr "x")]])]
           (JList [JDict []; JDict [("", JStr "x")]])
           [ []; [("", JStr "x")] ] 2 false).
  - reflexivity.
  - reflexivity.
  - intros k (r & [<- | [<- | []]] & I).
    + destruct I.
    + destruct I as [<- | []]. split; reflexivity.
Defined.

(** ** The count of the header *)

Lemma split_prefix (sep : ascii) (a b : string) :
  contains sep a = false ->
  split sep (a ++ b)
  = (a ++ hd "" (split sep b)) :: tl (split sep b).
Proof.
  induction a as [| c a IH]; cbn [append contains].
  - intros _. destruct (split sep b) as [| h t] eqn:S;
      [now apply split_not_nil in S | reflexivity].
  - intros H. apply orb_false_elim in H as [Hc Ha].
    cbn [split]. rewrite Hc, (IH Ha). reflexivity.
Qed.

Lemma match_header_count (c h : string) :
  c <> "" -> all_chars is_digit c = true ->
  Dec.match_header ("sensordata[" ++ c ++ String "]" h)
  = match Dec.strip_prefix "{" h with
    | Some r3 =>
        match Dec.greedy_group (Dec.first_line r3) with
        | Some fields => Some (c, fields)
        | None => None
        end
    | None => None
    end.
Proof.
  intros N D. unfold Dec.match_header. rewrite strip_prefix_append.
  rewrite (span_digits_append c "]" h D eq_refl).
  destruct c as [| a c]; [contradiction |].
  destruct h as [| b h]; [reflexivity |].
  cbn [Dec.strip_prefix]. rewrite Ascii.eqb_refl. reflexivity.
Qed.

Lemma decode_coil (obj : dict json) (meta body : string) :
  Dec.decode (dict_set obj "data" (coil ("META&" ++ meta) body))
  = Dec.decode_strings (dict_set obj "data" (coil ("META&" ++ meta) body))
      ("META&" ++ meta) ("BODY|" ++ body).
Proof.
  unfold Dec.decode. rewrite dict_find_set_same. unfold coil.
  cbn [dict_get dict_find String.eqb Ascii.eqb Bool.eqb].
  now rewrite !startswith_append.
Qed.

(** X12.  The count is not read.  [decode] matches the count of the
    header, [sensordata[<count>]], and never uses it: two bodies that
    differ in the count alone decode to the same result, whatever the
    number of rows that follow. *)
Theorem decode_ignores_count (obj : dict json) (meta c1 c2 rest : string) :
  c1 <> "" -> all_chars is_digit c1 = true ->
  c2 <> "" -> all_chars is_digit c2 = true ->
  Dec.decode (dict_set obj "data"
                (coil ("META&" ++ meta) ("sensordata[" ++ c1 ++ "]" ++ rest)))
  = Dec.decode (dict_set obj "data"
                  (coil ("META&" ++ meta)
                     ("sensordata[" ++ c2 ++ "]" ++ rest))).
Proof.
  intros N1 D1 N2 D2.
  assert (G : forall c, c <> "" -> all_chars is_digit c = true ->
              Dec.decode (dict_set obj "data"
                            (coil ("META&" ++ meta)
                               ("sensordata[" ++ c ++ "]" ++ rest)))
              = match Dec.strip_prefix "{"
                        (hd "" (split Dec.RECORD_SEP rest)) with
                | Some r3 =>
                    match Dec.greedy_group (Dec.first_line r3) with
                    | Some fields =>
                        Ok (dict_set obj "data"
                              (JDict
                                 [("sensordata",
                                   JList
                                     (map Dec.record_json
                                        (Dec.decode_rows
                                           (split "," fields)
                                           (Dec.parse_meta ("META&" ++ meta))
                                           (Dec.parse_vmap
                                              (Dec.parse_meta
                                                 ("META&" ++ meta)))
                                           (tl (split Dec.RECORD_SEP
                                                  rest)))))]))
                    | None => Raise (ValueError "Invalid BODY header")
                    end
                | None => Raise (ValueError "Invalid BODY header")
                end).
  { intros c N D. rewrite decode_coil. unfold Dec.decode_strings. cbv zeta.
    rewrite drop_append.
    replace ("sensordata[" ++ c ++ "]" ++ rest)
      with (("sensordata[" ++ c ++ "]") ++ rest)
      by now rewrite !append_assoc.
    rewrite split_prefix.
    2:{ unfold Dec.RECORD_SEP. rewrite !contains_append.
        now rewrite (digits_contains c "|" D eq_refl). }
    replace (("sensordata[" ++ c ++ "]")
               ++ hd "" (split Dec.RECORD_SEP rest))
      with ("sensordata[" ++ c
              ++ String "]" (hd "" (split Dec.RECORD_SEP rest)))
      by now rewrite !append_assoc.
    rewrite (match_header_count c _ N D).
    destruct (Dec.strip_prefix "{" _) as [r3 |]; [| reflexivity].
    destruct (Dec.greedy_group _) as [fields |]; [| reflexivity].
    now rewrite dict_set_set. }
  now rewrite (G c1 N1 D1), (G c2 N2 D2).
Qed.

Lemma decode_ignores_count_witness :
  Dec.decode [("data", coil "META&ORDER=a" "sensordata[2]{a}|x|y")]
  = Dec.decode [("data", coil "META&ORDER=a" "sensordata[700]{a}|x|y")].
Proof.
  apply (decode_ignores_count [] "ORDER=a" "2" "700" "{a}|x|y");
    try reflexivity; discriminate.
Defined.

(** ** The declarations that are read *)

Lemma decode_rows_same_map (key_list : list string)
      (meta_kv meta_kv' vmap : dict string) (rows : list string) :
  dict_find meta_kv "map" = dict_find meta_kv' "map" ->
  Dec.decode_rows key_list meta_kv vmap rows
  = Dec.decode_rows key_list meta_kv' vmap rows.
Proof.
  intros H. unfold Dec.decode_rows. apply flat_map_ext. intros row.
  unfold Dec.decode_row, Dec.legacy_row. now rewrite H.
Qed.

(** X13.  Of Meta, only [vmap] and [map] are read.  Two Metas that
    declare the same [vmap] and the same [map] decode a body to the same
    result: [ORDER=], [q=] and [mdu=] are never looked at, and the field
    order of positional rows is the one of the body's header. *)
Theorem decode_reads_vmap_and_map_only (obj : dict json)
        (meta1 meta2 body : string) :
  (forall k, k = "vmap" \/ k = "map" ->
             dict_find (Dec.parse_meta ("META&" ++ meta1)) k
             = dict_find (Dec.parse_meta ("META&" ++ meta2)) k) ->
  Dec.decode (dict_set obj "data" (coil ("META&" ++ meta1) body))
  = Dec.decode (dict_set obj "data" (coil ("META&" ++ meta2) body)).
Proof.
  intros H. rewrite !decode_coil. unfold Dec.decode_strings. cbv zeta.
  assert (V : Dec.parse_vmap (Dec.parse_meta ("META&" ++ meta1))
              = Dec.parse_vmap (Dec.parse_meta ("META&" ++ meta2))).
  { unfold Dec.parse_vmap. now rewrite (H "vmap") by now left. }
  rewrite V.
  destruct (split Dec.RECORD_SEP _) as [| header rows] eqn:S;
    [now apply split_not_nil in S |].
  destruct (Dec.match_header header) as [[count fields] |]; [| reflexivity].
  rewrite !dict_set_set.
  now rewrite (decode_rows_same_map _ _
                 (Dec.parse_meta ("META&" ++ meta2))) by (apply H; now right).
Qed.

Lemma decode_reads_vmap_and_map_only_witness :
  Dec.decode [("data", coil "META&ORDER=b,a&q=x" "sensordata[1]{a,b}|1,2")]
  = Dec.decode [("data", coil "META&" "sensordata[1]{a,b}|1,2")].
Proof.
  apply (decode_reads_vmap_and_map_only [] "ORDER=b,a&q=x" ""
           "sensordata[1]{a,b}|1,2").
  intros k [-> | ->]; reflexivity.
Defined.

(** ** Positional rows *)

Lemma split_app (sep : ascii) (a b : string) :
  split sep (a ++ String sep b) = (split sep a ++ split sep b)%list.
Proof.
  induction a as [| c a IH]; cbn [append split].
  - now rewrite Ascii.eqb_refl.
  - rewrite IH. destruct (Ascii.eqb c sep); [reflexivity |].
    destruct (split sep a) as [| h t] eqn:S;
      [now apply split_not_nil in S | reflexivity].
Qed.

Lemma enumerate_fold_cells (g : nat -> string) (n : nat)
      (todo : list string) (acc : dict string) :
  NoDup (keys acc ++ todo) ->
  fold_left (fun rec ik => dict_set rec (snd ik) (g (fst ik)))
            (combine (seq n (List.length todo)) todo) acc
  = (acc ++ map (fun ik => (snd ik, g (fst ik)))
              (combine (seq n (List.length todo)) todo))%list.
Proof.
  revert n acc. induction todo as [| k todo IH]; intros n acc N; cbn.
  - now rewrite app_nil_r.
  - assert (Fk : ~ In k (keys acc)).
    { apply NoDup_remove_2 in N. intros I. apply N, in_or_app. now left. }
    rewrite (dict_set_new acc k _ Fk), IH.
    + now rewrite <- app_assoc.
    + unfold keys. rewrite map_app, <- app_assoc. exact N.
Qed.

Lemma enumerate_snd {A} (n : nat) (l : list A) :
  map snd (combine (seq n (List.length l)) l) = l.
Proof.
  revert n. induction l as [| x l IH]; intros n; cbn; [reflexivity |].
  now rewrite IH.
Qed.

Lemma enumerate_nth {A} (n i : nat) (l : list A) (x : A) :
  nth_error l i = Some x -> In (n + i, x) (combine (seq n (List.length l)) l).
Proof.
  revert n i. induction l as [| y l IH]; intros n i; [now destruct i |].
  destruct i as [| i]; cbn.
  - intros [= ->]. left. now rewrite Nat.add_0_r.
  - intros H. right. rewrite <- Nat.add_succ_comm. now apply IH.
Qed.

(** X14.  A positional row against the header.  With distinct field
    names in the header, the record of a positional row has exactly the
    fields of the header, in their order; field number [i] gets cell
    number [i] of the row, resolved, and the empty cell when the row has
    fewer cells; cells past the last field are dropped. *)
Theorem compact_row_fields (key_list : list string) (vmap : dict string)
        (row : string) :
  NoDup key_list ->
  let cells := split "," row in
  Dec.compact_row key_list vmap row
  = map (fun ik => (snd ik, Dec.resolve vmap (nth (fst ik) cells "")))
        (Dec.enumerate key_list)
  /\ keys (Dec.compact_row key_list vmap row) = key_list
  /\ (forall i k, nth_error key_list i = Some k ->
        List.length cells <= i ->
        dict_find (Dec.compact_row key_list vmap row) k
        = Some (Dec.resolve vmap ""))
  /\ (List.length key_list <= List.length cells ->
      forall more, Dec.compact_row key_list vmap (row ++ "," ++ more)
                   = Dec.compact_row key_list vmap row).
Proof.
  intros N cells.
  assert (E : forall row',
             Dec.compact_row key_list vmap row'
             = map (fun ik => (snd ik,
                               Dec.resolve vmap
                                 (nth (fst ik) (split "," row') "")))
                   (Dec.enumerate key_list)).
  { intros row'. unfold Dec.compact_row, Dec.enumerate.
    apply (enumerate_fold_cells
             (fun i => Dec.resolve vmap (nth i (split Dec.PAIR_SEP row') ""))
             0 key_list []).
    exact N. }
  assert (K : keys (Dec.compact_row key_list vmap row) = key_list).
  { rewrite E. unfold keys, Dec.enumerate. rewrite map_map. cbn [fst snd].
    apply enumerate_snd. }
  split; [apply E | split; [exact K | split]].
  - intros i k Hi L. apply dict_find_NoDup; [now rewrite K |].
    rewrite E. apply in_map_iff. exists (i, k). cbn [fst snd]. split.
    + now rewrite nth_overflow.
    + apply (enumerate_nth 0 i key_list k Hi).
  - intros L more. rewrite !E. apply map_ext_in. intros [i k] I.
    cbn [fst snd]. do 2 f_equal.
    change (row ++ "," ++ more) with (row ++ String "," more).
    rewrite split_app. apply app_nth1.
    apply in_combine_l, in_seq in I. fold cells. lia.
Qed.

Lemma compact_row_fields_witness :
  Dec.compact_row ["a"; "b"; "c"] [("V1", "x")] "V1,2"
  = [("a", "x"); ("b", "2"); ("c", "")]
  /\ keys (Dec.compact_row ["a"; "b"; "c"] [("V1", "x")] "V1,2")
     = ["a"; "b"; "c"]
  /\ (forall i k, nth_error ["a"; "b"; "c"] i = Some k ->
        2 <= i ->
        dict_find (Dec.compact_row ["a"; "b"; "c"] [("V1", "x")] "V1,2") k
        = Some "")
  /\ (3 <= 2 ->
      forall more,
        Dec.compact_row ["a"; "b"; "c"] [("V1", "x")] ("V1,2" ++ "," ++ more)
        = Dec.compact_row ["a"; "b"; "c"] [("V1", "x")] "V1,2").
Proof.
  apply (compact_row_fields ["a"; "b"; "c"] [("V1", "x")] "V1,2").
  repeat constructor; cbn; intuition discriminate.
Defined.

(** ** The whole-word search *)

Lemma prefix_drop (lit text : string) :
  String.prefix lit text = true ->
  text = lit ++ drop (String.length lit) text.
Proof.
  revert text. induction lit as [| a lit IH]; intros text; [reflexivity |].
  destruct text as [| b text]; cbn; [discriminate |].
  destruct (ascii_dec a b) as [-> | _]; [| discriminate].
  intros H. f_equal. now apply IH.
Qed.

Lemma search_sound (lit text : string) (prev : option ascii) :
  Enc.search_from prev lit text = true ->
  exists pre post,
    text = pre ++ lit ++ post
    /\ Enc.boundary (Enc.last_or prev pre) (Enc.head (lit ++ post)) = true
    /\ Enc.boundary (Enc.last_or prev (pre ++ lit)) (Enc.head post) = true.
Proof.
  revert prev. induction text as [| c text IH]; intros prev;
    rewrite search_from_unfold; intros H; apply orb_prop in H as [H | H].
  - unfold Enc.match_here in H.
    apply andb_prop in H as [H B2]. apply andb_prop in H as [P B1].
    apply prefix_drop in P. exists "", (drop (String.length lit) "").
    cbn [append Enc.last_or]. rewrite <- P. now repeat split.
  - discriminate.
  - unfold Enc.match_here in H.
    apply andb_prop in H as [H B2]. apply andb_prop in H as [P B1].
    apply prefix_drop in P.
    exists "", (drop (String.length lit) (String c text)).
    cbn [append Enc.last_or]. rewrite <- P. now repeat split.
  - destruct (IH _ H) as (pre & post & -> & B1 & B2).
    exists (String c pre), post. now repeat split.
Qed.

(** X15.  What [_word_collision] decides.  For the empty token it says
    no.  For any other token it says yes exactly when the token, in
    lower case, stands in the text between two word boundaries: some
    occurrence has a word character on one side only of its first
    position and of its last.  The text is searched as it is given: a
    caller that wants letter case ignored hands in a lowered text. *)
Theorem word_collision_iff (token payload_text : string) :
  (token = "" -> Enc._word_collision token payload_text = false)
  /\ (token <> "" ->
      (Enc._word_collision token payload_text = true
       <-> occurs_as_word (lower token) payload_text)).
Proof.
  split.
  - now intros ->.
  - intros N.
    assert (E : Enc._word_collision token payload_text
                = Enc.search_from None (lower token) payload_text).
    { destruct token; [contradiction | reflexivity]. }
    rewrite E. split.
    + apply search_sound.
    + intros (pre & post & -> & B1 & B2). now apply search_complete.
Qed.

(** ** The round trip in both modes *)

Lemma str_int_chars (z : Z) :
  all_chars (fun c => is_digit c || Ascii.eqb c "-") (str_int z) = true.
Proof.
  assert (U : forall d,
             all_chars (fun c => is_digit c || Ascii.eqb c "-")
               (NilEmpty.string_of_uint d) = true).
  { induction d; cbn; auto. }
  assert (N : forall d,
             all_chars (fun c => is_digit c || Ascii.eqb c "-")
               (NilZero.string_of_uint d) = true).
  { intros d. destruct d; try apply U. reflexivity. }
  unfold str_int, NilZero.string_of_int.
  destruct (Z.to_int z) as [d | d]; [apply N |].
  cbn [all_chars]. now rewrite N.
Qed.

Lemma all_chars_impl (p q : ascii -> bool) (s : string) :
  (forall c, p c = true -> q c = true) ->
  all_chars p s = true -> all_chars q s = true.
Proof.
  intros I. induction s as [| c s IH]; cbn; [reflexivity |].
  intros H. apply andb_prop in H as [Hc Hs]. now rewrite (I c Hc), IH.
Qed.

Lemma scalar_text_free (repr_container : json -> string) (v : json) :
  scalar v -> free_of value_seps (Enc.py_str repr_container v) = true.
Proof.
  destruct v as [| [|] | z | s | l | d]; cbn [scalar Enc.py_str];
    try reflexivity; try contradiction; [| auto].
  intros _. unfold free_of.
  apply (all_chars_impl (fun c => is_digit c || Ascii.eqb c "-"));
    [| apply str_int_chars].
  intros c H. apply orb_prop in H as [H | H].
  - now rewrite (digit_not c value_seps H eq_refl).
  - apply Ascii.eqb_eq in H. now subst c.
Qed.

Lemma scalar_text_not_token (repr_container : json -> string) (v : json) :
  scalar v -> tokenish (Enc.py_str repr_container v) ->
  exists s, v = JStr s.
Proof.
  destruct v as [| [|] | z | s | l | d]; cbn [scalar Enc.py_str];
    try contradiction; intros _ (t & E & _); try discriminate.
  - pose proof (str_int_chars z) as C. rewrite E in C. discriminate.
  - now exists s.
Qed.

Lemma contains_space (c : ascii) (s : string) :
  contains c s = true -> is_space c = false -> all_chars is_space s = false.
Proof.
  induction s as [| d s IH]; cbn; [discriminate |].
  intros H N. apply orb_prop in H as [H | H].
  - apply Ascii.eqb_eq in H. subst d. now rewrite N.
  - rewrite (IH H N). apply andb_false_r.
Qed.

Lemma contains_join_In (c : ascii) (sep : string) (l : list string)
      (x : string) :
  In x l -> contains c x = true -> contains c (join sep l) = true.
Proof.
  intros I H. destruct (join_In sep l x I) as (pre & post & ->).
  rewrite !contains_append, H. now rewrite orb_true_r.
Qed.

Lemma legacy_pairs_fold (f : string -> string) (l acc : dict string) :
  NoDup (keys acc ++ keys l) ->
  (forall k v, In (k, v) l -> contains ":" k = false) ->
  fold_left (fun rec kv =>
               match split1 ":" kv with
               | Some (sk, vv) => dict_set rec sk (f vv)
               | None => rec
               end)
            (map (fun kv => fst kv ++ String ":" (snd kv)) l) acc
  = (acc ++ map (fun kv => (fst kv, f (snd kv))) l)%list.
Proof.
  revert acc. induction l as [| [k v] l IH]; intros acc N C; cbn.
  - now rewrite app_nil_r.
  - rewrite split1_append by (eapply C; now left).
    assert (Fk : ~ In k (keys acc)).
    { apply NoDup_remove_2 in N. intros I. apply N, in_or_app. now left. }
    rewrite (dict_set_new acc k _ Fk), IH.
    + now rewrite <- app_assoc.
    + unfold keys in *. rewrite map_app, <- app_assoc. exact N.
    + intros k' v' I. eapply C. right. exact I.
Qed.

Lemma remap_fold (rename : string -> string) (l acc : dict string) :
  (forall k, In k (keys l) -> rename k = k) ->
  NoDup (keys acc ++ keys l) ->
  fold_left (fun rec2 kv => dict_set rec2 (rename (fst kv)) (snd kv)) l acc
  = (acc ++ l)%list.
Proof.
  revert acc. induction l as [| [k v] l IH]; intros acc R N; cbn.
  - now rewrite app_nil_r.
  - rewrite R by now left.
    assert (Fk : ~ In k (keys acc)).
    { apply NoDup_remove_2 in N. intros I. apply N, in_or_app. now left. }
    rewrite (dict_set_new acc k _ Fk), IH.
    + now rewrite <- app_assoc.
    + intros k' I. apply R. now right.
    + unfold keys in *. rewrite map_app, <- app_assoc. exact N.
Qed.

Lemma passthrough_no_map (repr_container : json -> string)
      (payload : dict json) :
  lookup_last "=" (Enc.passthrough repr_container payload) "map" = None.
Proof.
  unfold Enc.passthrough. cbn [flat_map].
  destruct (dict_find payload "q"), (dict_find payload "mdu"); reflexivity.
Qed.

Lemma declared_lookup (compact : bool) (key_order : list string)
      (final_vmap : dict string) :
  lookup_last "=" (Enc.final_meta_parts compact key_order final_vmap) "vmap"
  = match final_vmap with
    | [] => None
    | _ => Some (join ";" (map (fun kv => fst kv ++ ":" ++ snd kv) final_vmap))
    end
  /\ lookup_last "=" (Enc.final_meta_parts false key_order final_vmap) "map"
     = Some (join ";" (map (fun k => k ++ ":" ++ k) key_order)).
Proof. destruct compact, final_vmap; split; reflexivity. Qed.

Section Codec.

Variable repr_container : json -> string.
Variable payload : dict json.
Variable data : json.
Variable records : list (dict json).
Variable table : dict string.
Variable compact : bool.

Local Abbreviation payload_text := (lower (dumps (JDict payload))).
Local Abbreviation key_order := (Enc.key_order_of records).
Local Abbreviation vmap := (map swap table).
Local Abbreviation cell_of := (Enc.cell repr_container table).
Local Abbreviation text := (field_text repr_container).

Hypothesis Hdata : dict_find payload "data" = Some data.
Hypothesis Hrecords : Enc.records_of data = Ok records.
Hypothesis Hcodable :
  forall r, In r records -> codable repr_container compact r.
Hypothesis Hname : exists k, field_of records k /\ k <> "".
Hypothesis Tvalues : NoDup (values table).
Hypothesis Ttokens :
  forall v t, In (v, t) table ->
    tokenish t /\ Enc._word_collision t payload_text = false
    /\ In v (Enc.all_values repr_container records).

(** The text of a field has no separator, and when it has the shape of
    a token it stands in the payload text as a word. *)
Lemma text_facts (r : dict json) (k : string) :
  In r records ->
  free_of value_seps (text r k) = true
  /\ (tokenish (text r k) ->
      Enc._word_collision (text r k) payload_text = true).
Proof.
  intros Ir. destruct (Hcodable r Ir) as [P _].
  unfold field_text, dict_get.
  destruct (dict_find r k) as [x |] eqn:E.
  - apply dict_find_In in E. destruct (P k x E) as [_ S].
    assert (G : free_of value_seps (Enc.py_str repr_container x) = true
                /\ (tokenish (Enc.py_str repr_container x) ->
                    Enc._word_collision (Enc.py_str repr_container x)
                      payload_text = true)).
    { split; [now apply scalar_text_free |].
      intros T.
      destruct (scalar_text_not_token repr_container x S T) as (s & ->).
      cbn [Enc.py_str] in *.
      now apply (value_collides payload data records r k s). }
    destruct x; try exact G.
    split; [reflexivity |]. intros T. now apply tokenish_not_empty in T.
  - split; [reflexivity |]. intros T. now apply tokenish_not_empty in T.
Qed.

Lemma proposed_text_free (v : string) :
  In v (Enc.all_values repr_container records) ->
  free_of value_seps v = true.
Proof.
  intros H. apply all_values_In in H as (r & k & x & Ir & Ikx & _ & ->).
  destruct (Hcodable r Ir) as [P _]. destruct (P k x Ikx) as [_ S].
  now apply scalar_text_free.
Qed.

Lemma cell_is (r : dict json) (k : string) :
  cell_of r k = match dict_find table (text r k) with
                | Some tok => tok
                | None => Enc._escape_val (text r k)
                end.
Proof.
  unfold Enc.cell, field_text. cbv zeta.
  now destruct (dict_get r k (JStr "")).
Qed.

Lemma table_token_free (t seps : string) :
  In t (values table) ->
  all_chars (fun d => negb (is_digit d) && negb (Ascii.eqb d "V")) seps = true ->
  free_of seps t = true.
Proof.
  intros I S. apply in_map_iff in I as ([v t'] & E & I). cbn in E. subst t'.
  apply tokenish_free; [apply (Ttokens v t I) | exact S].
Qed.

(** A cell has no separator of the body in it. *)
Lemma cell_no_sep (r : dict json) (k : string) (c : ascii) :
  In r records -> contains c ",|:" = true -> contains c (cell_of r k) = false.
Proof.
  intros Ir Hc. rewrite cell_is.
  destruct (text_facts r k Ir) as [F _].
  destruct (dict_find table (text r k)) as [tok |] eqn:E.
  - apply dict_find_In, (in_map snd) in E.
    eapply free_of_contains;
      [apply (table_token_free tok ",|:" E eq_refl) | exact Hc].
  - destruct (escape_val_clean _ F) as (_ & C1 & C2 & C3).
    apply contains_In in Hc as [<- | [<- | [<- | []]]]; assumption.
Qed.

Lemma table_find (t v : string) :
  In (v, t) table -> dict_find vmap t = Some v.
Proof.
  intros I. apply dict_find_NoDup.
  - now rewrite keys_swap.
  - apply (in_map swap) in I. exact I.
Qed.

(** The decoder resolves a cell to the text it was made from. *)
Lemma resolve_encoded_cell (r : dict json) (k : string) :
  In r records -> Dec.resolve vmap (cell_of r k) = text r k.
Proof.
  intros Ir. rewrite cell_is.
  destruct (text_facts r k Ir) as [F V].
  unfold Dec.resolve.
  destruct (dict_find table (text r k)) as [tok |] eqn:E.
  - apply dict_find_In in E. now rewrite (table_find tok _ E).
  - destruct (dict_find vmap (Enc._escape_val (text r k))) as [v' |] eqn:E'.
    + exfalso. apply dict_find_In in E'.
      apply in_map_iff in E' as ([v t] & Es & I).
      injection Es as Et Ev. subst v'.
      destruct (Ttokens v t I) as (Tk & C & _).
      assert (Q : text r k = t).
      { rewrite <- (unescape_escape_val (text r k)), <- Et.
        rewrite <- (proj1 (tokenish_escape t Tk)) at 1.
        apply unescape_escape_val. }
      rewrite Q in V. rewrite (V Tk) in C. discriminate.
    + rewrite dec_unescape_is_enc. apply unescape_escape_val.
Qed.

Lemma names_not_nil : key_order <> [].
Proof.
  destruct Hname as (k & F & _). apply key_order_In in F.
  intros E. now rewrite E in F.
Qed.

Lemma names_NoDup : NoDup key_order.
Proof. apply strictly_sorted_NoDup, key_order_sorted. Qed.

Lemma name_clean (k : string) (c : ascii) :
  In k key_order -> contains c (name_seps compact) = true ->
  contains c k = false.
Proof.
  intros I Hc. apply key_order_In in I as (r & Ir & Ik).
  apply in_map_iff in Ik as ([k' x] & E & Ikx). cbn in E. subst k'.
  destruct (Hcodable r Ir) as [P _]. destruct (P k x Ikx) as [F _].
  eapply free_of_contains; eassumption.
Qed.

Lemma key_sep_is_name_sep (c : ascii) :
  contains c key_seps = true -> contains c (name_seps compact) = true.
Proof.
  intros H. unfold name_seps. destruct compact; [exact H |].
  now rewrite contains_append, H.
Qed.

Lemma names_joined_not_empty : join "," key_order <> "".
Proof.
  destruct Hname as (k & F & N).
  apply (join_not_empty_In "," key_order k); [| exact N].
  now apply key_order_In.
Qed.

Lemma names_joined_clean (c : ascii) :
  contains c key_seps = true -> Ascii.eqb c "," = false ->
  contains c (join "," key_order) = false.
Proof.
  intros Hc N. apply contains_join.
  - cbn [contains]. now rewrite Ascii.eqb_sym, N.
  - apply Forall_forall. intros k Ik.
    apply (name_clean k c Ik), key_sep_is_name_sep, Hc.
Qed.

Lemma encoded_header_clean :
  contains "|" (Enc.header records key_order) = false.
Proof.
  unfold Enc.header. rewrite !contains_append.
  rewrite (digits_contains (str_nat _) "|" (str_nat_digits _) eq_refl).
  now rewrite (names_joined_clean "|" eq_refl eq_refl).
Qed.

(** *** Positional rows *)

Lemma positional_row_clean (r : dict json) (c : ascii) :
  In r records -> contains c "|:" = true ->
  contains c (join (Enc.chr Enc.PAIR_SEP) (map (cell_of r) key_order)) = false.
Proof.
  intros Ir Hc. apply contains_join.
  - apply contains_In in Hc as [<- | [<- | []]]; reflexivity.
  - apply Forall_forall. intros x Ix.
    apply in_map_iff in Ix as (k & <- & _).
    apply cell_no_sep; [exact Ir |].
    apply contains_In in Hc as [<- | [<- | []]]; reflexivity.
Qed.

Lemma positional_row_not_blank (r : dict json) :
  compact = true -> In r records ->
  strip (join (Enc.chr Enc.PAIR_SEP) (map (cell_of r) key_order)) <> "".
Proof.
  intros Hc Ir. destruct (Hcodable r Ir) as [_ B].
  destruct (B Hc) as (k & Hk).
  apply strip_not_blank.
  apply (all_chars_join_false _ _ _ (cell_of r k)).
  - apply in_map, key_order_In. exists r. split; [exact Ir |].
    unfold field_text, dict_get in Hk.
    destruct (dict_find r k) as [x |] eqn:E; [| discriminate].
    now apply (dict_find_keys r k x).
  - rewrite cell_is.
    destruct (dict_find table (text r k)) as [tok |] eqn:E.
    + apply dict_find_In in E.
      destruct (Ttokens _ tok E) as ((d & -> & _) & _). reflexivity.
    + now apply all_chars_escape_false.
Qed.

Lemma decode_positional_row (meta_kv : dict string) (r : dict json) :
  compact = true -> In r records ->
  Dec.decode_row key_order meta_kv vmap
    (join (Enc.chr Enc.PAIR_SEP) (map (cell_of r) key_order))
  = Some (map (fun k => (k, text r k)) key_order).
Proof.
  intros Hc Ir. unfold Dec.decode_row.
  destruct (String.eqb_spec
              (strip (join (Enc.chr Enc.PAIR_SEP) (map (cell_of r) key_order)))
              "") as [E | _]; [now apply positional_row_not_blank in E |].
  rewrite (positional_row_clean r ":" Ir eq_refl). f_equal.
  unfold Dec.compact_row, Dec.enumerate.
  change Dec.PAIR_SEP with Enc.PAIR_SEP.
  rewrite split_join.
  - pose proof (enumerate_fold vmap (cell_of r) [] key_order []
                  names_NoDup) as EF.
    cbn [app List.length] in EF. rewrite EF.
    apply map_ext_in. intros k _. f_equal.
    now apply resolve_encoded_cell.
  - intros E. apply map_eq_nil in E. now apply names_not_nil.
  - apply Forall_forall. intros x Ix.
    apply in_map_iff in Ix as (k & <- & _).
    now apply cell_no_sep.
Qed.

(** *** Rows of pairs *)

Lemma pair_clean (r : dict json) (k : string) (c : ascii) :
  compact = false -> In r records -> In k key_order ->
  contains c ",|" = true ->
  contains c (k ++ ":" ++ cell_of r k) = false.
Proof.
  intros Hc Ir Ik H. rewrite !contains_append.
  rewrite (name_clean k c Ik), (cell_no_sep r k c Ir).
  - apply contains_In in H as [<- | [<- | []]]; reflexivity.
  - apply contains_In in H as [<- | [<- | []]]; reflexivity.
  - rewrite Hc. apply contains_In in H as [<- | [<- | []]]; reflexivity.
Qed.

Lemma legacy_row_clean (r : dict json) :
  compact = false -> In r records ->
  contains "|"
    (join (Enc.chr Enc.PAIR_SEP)
       (map (fun k => k ++ ":" ++ cell_of r k) key_order)) = false.
Proof.
  intros Hc Ir. apply contains_join; [reflexivity |].
  apply Forall_forall. intros x Ix.
  apply in_map_iff in Ix as (k & <- & Ik).
  now apply pair_clean.
Qed.

Lemma legacy_row_has_colon (r : dict json) :
  contains ":"
    (join (Enc.chr Enc.PAIR_SEP)
       (map (fun k => k ++ ":" ++ cell_of r k) key_order)) = true.
Proof.
  pose proof names_not_nil as N.
  destruct key_order as [| k l] eqn:E; [contradiction |].
  apply (contains_join_In ":" _ _ (k ++ ":" ++ cell_of r k)); [now left |].
  rewrite !contains_append. cbn [contains]. rewrite Ascii.eqb_refl.
  now rewrite orb_true_r.
Qed.

Lemma declared_map_parses :
  compact = false ->
  Dec.parse_pairs ":"
    (split ";" (join ";" (map (fun k => k ++ ":" ++ k) key_order)))
  = map (fun k => (k, k)) key_order.
Proof.
  intros Hc. change (";" : string) with (Enc.chr ";").
  rewrite split_join.
  - unfold Dec.parse_pairs.
    rewrite <- (map_map (fun k => (k, k))
                  (fun kv : string * string => fst kv ++ String ":" (snd kv))).
    refine (parse_pairs_exact ":" (map (fun k => (k, k)) key_order) [] _ _).
    + cbn [app keys]. unfold keys. rewrite map_map. cbn [fst].
      rewrite map_id. apply names_NoDup.
    + intros k v I. apply in_map_iff in I as (k' & [= <- <-] & I).
      apply (name_clean k' ":" I). now rewrite Hc.
  - intros E. apply map_eq_nil in E. now apply names_not_nil.
  - apply Forall_forall. intros x Ix.
    apply in_map_iff in Ix as (k & <- & Ik).
    rewrite !contains_append, (name_clean k ";" Ik); [reflexivity |].
    now rewrite Hc.
Qed.

Lemma decode_legacy_row (key_list : list string) (meta_kv : dict string)
      (r : dict json) :
  compact = false ->
  dict_find meta_kv "map"
  = Some (join ";" (map (fun k => k ++ ":" ++ k) key_order)) ->
  In r records ->
  Dec.decode_row key_list meta_kv vmap
    (join (Enc.chr Enc.PAIR_SEP)
       (map (fun k => k ++ ":" ++ cell_of r k) key_order))
  = Some (map (fun k => (k, text r k)) key_order).
Proof.
  intros Hc Hm Ir. unfold Dec.decode_row.
  destruct (String.eqb_spec
              (strip (join (Enc.chr Enc.PAIR_SEP)
                        (map (fun k => k ++ ":" ++ cell_of r k) key_order)))
              "") as [E | _].
  { exfalso. revert E. apply strip_not_blank.
    apply (contains_space ":"); [apply legacy_row_has_colon | reflexivity]. }
  rewrite legacy_row_has_colon. f_equal.
  unfold Dec.legacy_row. rewrite Hm, (declared_map_parses Hc).
  change Dec.PAIR_SEP with Enc.PAIR_SEP.
  rewrite split_join.
  - rewrite <- (map_map (fun k => (k, cell_of r k))
                  (fun kv : string * string => fst kv ++ String ":" (snd kv))).
    rewrite (legacy_pairs_fold (Dec.resolve vmap)
               (map (fun k => (k, cell_of r k)) key_order) []).
    + cbn [app].
      assert (R : map (fun kv : string * string =>
                         (fst kv, Dec.resolve vmap (snd kv)))
                      (map (fun k => (k, cell_of r k)) key_order)
                  = map (fun k => (k, text r k)) key_order).
      { rewrite map_map. apply map_ext_in. intros k _. cbn [fst snd].
        f_equal. now apply resolve_encoded_cell. }
      rewrite R.
      apply (remap_fold
               (fun k => dict_get (map (fun k => (k, k)) key_order) k k)
               (map (fun k => (k, text r k)) key_order) []).
      * intros k _. unfold dict_get.
        destruct (dict_find _ k) as [v |] eqn:E; [| reflexivity].
        apply dict_find_In, in_map_iff in E as (k' & [= <- <-] & _).
        reflexivity.
      * cbn [app keys]. unfold keys. rewrite map_map. cbn [fst].
        rewrite map_id. apply names_NoDup.
    + cbn [app keys]. unfold keys. rewrite map_map. cbn [fst].
      rewrite map_id. apply names_NoDup.
    + intros k v I. apply in_map_iff in I as (k' & [= <- <-] & I).
      apply (name_clean k' ":" I). now rewrite Hc.
  - intros E. apply map_eq_nil in E. now apply names_not_nil.
  - apply Forall_forall. intros x Ix.
    apply in_map_iff in Ix as (k & <- & Ik).
    now apply pair_clean.
Qed.

(** *** Rows, in either mode *)

Lemma encoded_rows (rs : list (dict json)) :
  exists rows,
    Enc.build_body repr_container compact rs key_order table
    = join (Enc.chr Enc.RECORD_SEP) (Enc.header rs key_order :: rows)
    /\ (incl rs records ->
        Forall (fun row => contains "|" row = false) rows
        /\ forall key_list meta_kv,
             (key_list = key_order \/ compact = false) ->
             (compact = false ->
              dict_find meta_kv "map"
              = Some (join ";" (map (fun k => k ++ ":" ++ k) key_order))) ->
             Dec.decode_rows key_list meta_kv vmap rows
             = map (fun r => map (fun k => (k, text r k)) key_order) rs).
Proof.
  assert (M : compact = true \/ compact = false)
    by (clear; destruct compact; auto).
  destruct M as [Hc | Hc].
  - exists (map (fun r => join (Enc.chr Enc.PAIR_SEP)
                            (map (cell_of r) key_order)) rs).
    split; [now rewrite Hc |]. intros I. split.
    + apply Forall_forall. intros x Ix.
      apply in_map_iff in Ix as (r & <- & Ir).
      apply positional_row_clean; [now apply I | reflexivity].
    + intros key_list meta_kv [-> | F] _; [| congruence].
      unfold Dec.decode_rows.
      induction rs as [| r rs IH]; [reflexivity |].
      cbn [map flat_map].
      rewrite decode_positional_row; [| exact Hc | apply I; now left].
      cbn [app]. f_equal. apply IH. intros x Hx. apply I. now right.
  - exists (map (fun r => join (Enc.chr Enc.PAIR_SEP)
                            (map (fun k => k ++ ":" ++ cell_of r k)
                                 key_order)) rs).
    split; [now rewrite Hc |]. intros I. split.
    + apply Forall_forall. intros x Ix.
      apply in_map_iff in Ix as (r & <- & Ir).
      apply legacy_row_clean; [exact Hc | now apply I].
    + intros key_list meta_kv _ Hm. specialize (Hm Hc).
      unfold Dec.decode_rows.
      induction rs as [| r rs IH]; [reflexivity |].
      cbn [map flat_map].
      rewrite decode_legacy_row;
        [| exact Hc | exact Hm | apply I; now left].
      cbn [app]. f_equal. apply IH. intros x Hx. apply I. now right.
Qed.

(** *** Meta *)

Lemma vmap_entry_clean (c : ascii) (kv : string * string) :
  In kv vmap -> contains c "&;" = true ->
  contains c (fst kv ++ ":" ++ snd kv) = false.
Proof.
  intros I Hc. apply in_map_iff in I as ([v t] & <- & I). cbn [swap fst snd].
  destruct (Ttokens v t I) as (_ & _ & A).
  pose proof (proposed_text_free v A) as F.
  rewrite !contains_append.
  assert (Ct : contains c t = false).
  { eapply free_of_contains; [| exact Hc].
    apply table_token_free; [apply (in_map snd) in I; exact I | reflexivity]. }
  assert (Cv : contains c v = false).
  { eapply free_of_contains; [exact F |].
    apply contains_In in Hc as [<- | [<- | []]]; reflexivity. }
  rewrite Ct, Cv.
  apply contains_In in Hc as [<- | [<- | []]]; reflexivity.
Qed.

(** The value map declared in Meta parses back to the table. *)
Lemma declared_vmap_parses (meta_kv : dict string) :
  dict_find meta_kv "vmap"
  = match vmap with
    | [] => None
    | _ => Some (join ";" (map (fun kv => fst kv ++ ":" ++ snd kv) vmap))
    end ->
  Dec.parse_vmap meta_kv = vmap.
Proof.
  intros H. unfold Dec.parse_vmap. rewrite H.
  destruct vmap as [| [t v] rest] eqn:E; [reflexivity |].
  rewrite <- E in *.
  set (entries := map (fun kv => fst kv ++ ":" ++ snd kv) vmap).
  assert (N : join ";" entries <> "").
  { assert (I : In (t, v) vmap) by (rewrite E; now left).
    apply in_map_iff in I as ([v' t'] & Es & I). injection Es as -> ->.
    destruct (Ttokens v t I) as ((d & -> & _) & _).
    unfold entries. rewrite E. eapply join_not_empty. reflexivity. }
  destruct (join ";" entries) as [| c r] eqn:J; [contradiction |].
  rewrite <- J.
  change ";" with (Enc.chr ";") at 1.
  rewrite split_join.
  - unfold Dec.parse_pairs, entries.
    refine (parse_pairs_exact ":" vmap [] _ _).
    + cbn [app keys map]. now rewrite keys_swap.
    + intros k x I. apply in_map_iff in I as ([v' t'] & Es & I).
      injection Es as <- <-.
      eapply free_of_contains;
        [apply (table_token_free t' ":") | reflexivity].
      * apply (in_map snd) in I. exact I.
      * reflexivity.
  - unfold entries. rewrite E. discriminate.
  - apply Forall_forall. intros x Ix.
    apply in_map_iff in Ix as (kv & <- & I).
    now apply vmap_entry_clean.
Qed.

Section Declarations.

Variable extras : list string.
Hypothesis Eclean : Forall (fun e => contains "&" e = false) extras.
Hypothesis Evmap : lookup_last "=" extras "vmap" = None.
Hypothesis Emap : lookup_last "=" extras "map" = None.

Local Abbreviation parts :=
  (Enc.final_meta_parts compact key_order vmap ++ extras)%list.
Local Abbreviation meta := ("META&" ++ join "&" parts).

Lemma first_declaration_clean :
  contains "&" (Enc.meta_decl compact key_order) = false.
Proof.
  assert (M : compact = true \/ compact = false)
    by (clear; destruct compact; auto).
  destruct M as [Hc | Hc]; rewrite Hc; unfold Enc.meta_decl;
    rewrite contains_append.
  - now rewrite (names_joined_clean "&" eq_refl eq_refl).
  - cbn [contains orb Ascii.eqb Bool.eqb].
    apply contains_join; [reflexivity |].
    apply Forall_forall. intros x Ix.
    apply in_map_iff in Ix as (k & <- & Ik).
    rewrite !contains_append, (name_clean k "&" Ik); [reflexivity |].
    now apply key_sep_is_name_sep.
Qed.

Lemma declarations_clean :
  Forall (fun e => contains "&" e = false) parts.
Proof.
  apply Forall_app. split; [| exact Eclean].
  unfold Enc.final_meta_parts. rewrite drop_append.
  pose proof first_declaration_clean as D.
  destruct vmap as [| p rest] eqn:E; [now repeat constructor |].
  rewrite <- E.
  repeat constructor; [exact D |].
  rewrite contains_append.
  change (contains "&" "vmap=") with false. cbn [orb].
  apply contains_join; [reflexivity |].
  apply Forall_forall. intros x Ix.
  apply in_map_iff in Ix as (kv & <- & I).
  now apply vmap_entry_clean.
Qed.

Lemma parsed_meta (k : string) :
  dict_find (Dec.parse_meta meta) k = lookup_last "=" parts k.
Proof.
  unfold Dec.parse_meta. rewrite drop_append.
  assert (S : match join "&" parts with
              | EmptyString => []
              | _ => split "&" (join "&" parts)
              end = parts).
  { assert (N : join "&" parts <> "").
    { apply (join_not_empty_In "&" parts
               (drop (String.length "META&")
                  ("META&" ++ Enc.meta_decl compact key_order))).
      - apply in_or_app. left. unfold Enc.final_meta_parts.
        destruct vmap; now left.
      - rewrite drop_append. unfold Enc.meta_decl.
        clear. destruct compact; discriminate. }
    destruct (join "&" parts) eqn:J; [contradiction |]. rewrite <- J.
    apply (split_join "&").
    - intros E. apply app_eq_nil in E as [E _].
      now apply final_meta_parts_not_nil in E.
    - apply declarations_clean. }
  cbv zeta. now rewrite S, parse_pairs_find.
Qed.

Lemma decode_encoded (new : dict json) :
  Dec.decode_strings new meta
    ("BODY|" ++ Enc.build_body repr_container compact records key_order
                  table)
  = Ok (dict_set new "data"
          (JDict [("sensordata",
                   JList (map (decoded_record repr_container key_order)
                              records))])).
Proof.
  unfold Dec.decode_strings. cbv zeta.
  destruct (declared_lookup compact key_order vmap) as [Lv _].
  destruct (declared_lookup false key_order vmap) as [_ Lm].
  rewrite (declared_vmap_parses (Dec.parse_meta meta)).
  2:{ now rewrite parsed_meta, lookup_last_app, Evmap. }
  rewrite drop_append.
  destruct (encoded_rows records) as (rows & -> & R).
  destruct (R (incl_refl _)) as [RC RD].
  change Dec.RECORD_SEP with Enc.RECORD_SEP.
  rewrite split_join;
    [| discriminate | constructor; [apply encoded_header_clean | exact RC]].
  unfold Enc.header at 1.
  rewrite match_header_header;
    [| apply names_joined_not_empty
     | now apply names_joined_clean].
  change ("," : string) with (Enc.chr ",").
  rewrite (split_join "," key_order names_not_nil).
  2:{ apply Forall_forall. intros k Ik.
      apply (name_clean k "," Ik). now apply key_sep_is_name_sep. }
  rewrite (RD key_order (Dec.parse_meta meta) (or_introl eq_refl)).
  2:{ intros Hc. rewrite parsed_meta, lookup_last_app, Emap.
      rewrite Hc. exact Lm. }
  rewrite map_map.
  rewrite (map_ext _ (decoded_record repr_container key_order));
    [reflexivity |].
  intros r. unfold Dec.record_json, decoded_record. now rewrite map_map.
Qed.

End Declarations.

End Codec.

Lemma decode_of_encoded (repr_container : json -> string)
      (payload : dict json) (data : json) (records : list (dict json))
      (table : dict string) (compact : bool) :
  dict_find payload "data" = Some data ->
  Enc.records_of data = Ok records ->
  (forall r, In r records -> codable repr_container compact r) ->
  (exists k, field_of records k /\ k <> "") ->
  Forall (fun e => contains "&" e = false)
         (Enc.passthrough repr_container payload) ->
  NoDup (values table) ->
  (forall v t, In (v, t) table ->
     tokenish t
     /\ Enc._word_collision t (lower (dumps (JDict payload))) = false
     /\ In v (Enc.all_values repr_container records)) ->
  Dec.decode
    (dict_set payload "data"
       (JDict
          [("meta",
            JStr ("META&"
                    ++ join "&"
                         (Enc.final_meta_parts compact
                            (Enc.key_order_of records) (map swap table)
                            ++ Enc.passthrough repr_container payload)));
           ("body",
            JStr ("BODY|"
                    ++ Enc.build_body repr_container compact records
                         (Enc.key_order_of records) table))]))
  = Ok (dict_set payload "data"
          (JDict [("sensordata",
                   JList (map (decoded_record repr_container
                                 (Enc.key_order_of records))
                              records))])).
Proof.
  intros Hd Hr Hp Hn He K T.
  unfold Dec.decode. rewrite dict_find_set_same.
  cbn [dict_get dict_find String.eqb Ascii.eqb Bool.eqb].
  rewrite !startswith_append. cbn [negb].
  rewrite (decode_encoded repr_container payload data records table compact
             Hd Hr Hp Hn K T
             (Enc.passthrough repr_container payload) He
             (passthrough_no_vmap repr_container payload)
             (passthrough_no_map repr_container payload)).
  now rewrite dict_set_set.
Qed.

(** X16.  The round trip, in both modes, for scalar values.  For a
    payload whose records have field names without a separator (newline,
    comma, pipe, ampersand; in legacy mode also colon and semicolon),
    values that are null, booleans, integers or strings without comma,
    pipe, colon, ampersand and semicolon, in compact mode a field per
    record whose text is not blank, some field name that is not empty,
    and passthrough scalars without ampersand: decoding the encoded
    payload gives, in either mode and for every cost oracle and
    threshold, the payload whose records carry every field of the Key
    Order, each with the text of its value: [str] of the value, and the
    empty string for [None] and for a field the record did not have. *)
Theorem roundtrip_scalars (repr_container : json -> string)
        (tiktoken : bool) (enc : option (string -> list Z))
        (payload : dict json) (data : json) (records : list (dict json))
        (value_min_freq : Z) (compact : bool) :
  dict_find payload "data" = Some data ->
  Enc.records_of data = Ok records ->
  (forall r, In r records -> codable repr_container compact r) ->
  (exists k, field_of records k /\ k <> "") ->
  Forall (fun e => contains "&" e = false)
         (Enc.passthrough repr_container payload) ->
  bind (Enc.encode repr_container tiktoken enc payload value_min_freq
          compact) Dec.decode
  = Ok (dict_set payload "data"
          (JDict [("sensordata",
                   JList (map (decoded_record repr_container
                                 (Enc.key_order_of records))
                              records))])).
Proof.
  intros Hd Hr Hp Hn He.
  unfold Enc.encode. rewrite Hd, Hr. cbn [bind].
  destruct (final_table_facts repr_container tiktoken enc compact records
              (Enc.key_order_of records) (lower (dumps (JDict payload)))
              value_min_freq) as (M & _ & K & T).
  cbv zeta in M, K, T. rewrite M.
  now apply (decode_of_encoded repr_container payload data records).
Qed.

Lemma mixed_records_codable (r : dict json) :
  In r mixed_records -> codable (fun _ => "") false r.
Proof.
  intros [<- | [<- | []]]; (split; [| discriminate]).
  - intros k v [[= <- <-] | [[= <- <-] | [[= <- <-] | []]]];
      (split; reflexivity).
  - intros k v [[= <- <-] | [[= <- <-] | []]]; (split; reflexivity).
Defined.

Lemma roundtrip_scalars_witness :
  bind (Enc.encode (fun _ => "") false None mixed_payload 2 false)
       Dec.decode
  = Ok (dict_set mixed_payload "data"
          (JDict [("sensordata",
                   JList (map (decoded_record (fun _ => "")
                                 (Enc.key_order_of mixed_records))
                              mixed_records))])).
Proof.
  apply (roundtrip_scalars (fun _ => "") false None mixed_payload
           (JList (map JDict mixed_records)) mixed_records 2 false).
  - reflexivity.
  - reflexivity.
  - exact mixed_records_codable.
  - exists "id". split; [| discriminate].
    exists [("id", JInt 7); ("ok", JBool true); ("note", JStr "a b")].
    split; left; reflexivity.
  - repeat constructor.
Defined.

(** ** A decoded payload is stable *)

Lemma check_records_dicts (records : list (dict json)) :
  Enc.check_records (map JDict records) = Ok records.
Proof.
  induction records as [| r rs IH]; cbn; [reflexivity |]. now rewrite IH.
Qed.

Lemma decoded_text (repr_container : json -> string) (f : string -> string)
      (key_order : list string) (k : string) :
  NoDup key_order -> In k key_order ->
  field_text repr_container (map (fun k => (k, JStr (f k))) key_order) k
  = f k.
Proof.
  intros N I. unfold field_text, dict_get.
  rewrite (dict_find_NoDup _ k (JStr (f k))).
  - reflexivity.
  - unfold keys. rewrite map_map. cbn [fst]. now rewrite map_id.
  - apply in_map_iff. now exists k.
Qed.

Lemma key_order_same_fields (records records' : list (dict json)) :
  (forall k, field_of records' k <-> field_of records k) ->
  Enc.key_order_of records' = Enc.key_order_of records.
Proof.
  intros F. apply strictly_sorted_unique; try apply key_order_sorted.
  intros k. now rewrite !key_order_In.
Qed.

(** X17.  A decoded payload survives further round trips.  Under the
    conditions of the round trip, the payload that decoding the encoded
    payload returns is a fixed point: encoded again in the same mode,
    with any threshold and any cost oracle, and decoded, it comes back
    unchanged. *)
Theorem roundtrip_is_stable (repr_container : json -> string)
        (tiktoken : bool) (enc : option (string -> list Z))
        (payload : dict json) (data : json) (records : list (dict json))
        (value_min_freq : Z) (compact : bool) :
  dict_find payload "data" = Some data ->
  Enc.records_of data = Ok records ->
  (forall r, In r records -> codable repr_container compact r) ->
  (exists k, field_of records k /\ k <> "") ->
  Forall (fun e => contains "&" e = false)
         (Enc.passthrough repr_container payload) ->
  let decoded :=
    dict_set payload "data"
      (JDict [("sensordata",
               JList (map (decoded_record repr_container
                             (Enc.key_order_of records)) records))]) in
  bind (Enc.encode repr_container tiktoken enc decoded value_min_freq
          compact) Dec.decode
  = Ok decoded.
Proof.
  intros Hd Hr Hc Hn He decoded.
  set (key_order := Enc.key_order_of records) in *.
  set (again := fun r : dict json =>
                  map (fun k => (k, JStr (field_text repr_container r k)))
                      key_order).
  pose proof (strictly_sorted_NoDup _ (key_order_sorted records)) as N.
  fold key_order in N.
  assert (D : map (decoded_record repr_container key_order) records
              = map JDict (map again records)).
  { now rewrite map_map. }
  assert (F : forall k, field_of (map again records) k <-> field_of records k).
  { intros k. rewrite <- (key_order_In records k). fold key_order. split.
    - intros (r' & I & Ik). apply in_map_iff in I as (r & <- & _).
      unfold again, keys in Ik. rewrite map_map in Ik. cbn [fst] in Ik.
      now rewrite map_id in Ik.
    - intros Ik. destruct Hn as (k0 & (r & Ir & _) & _).
      exists (again r). split; [now apply in_map |].
      unfold again, keys. rewrite map_map. cbn [fst]. now rewrite map_id. }
  pose proof (key_order_same_fields records (map again records) F) as K.
  fold key_order in K.
  set (data' := JDict [("sensordata",
                        JList (map (decoded_record repr_container key_order)
                                   records))]).
  assert (Hd' : dict_find decoded "data" = Some data').
  { unfold decoded. apply dict_find_set_same. }
  assert (Hr' : Enc.records_of data' = Ok (map again records)).
  { unfold Enc.records_of, data'.
    cbn [dict_find String.eqb Ascii.eqb Bool.eqb].
    cbn [Enc._flatten_records bind]. rewrite D. apply check_records_dicts. }
  unfold Enc.encode. rewrite Hd', Hr'. cbn [bind].
  destruct (final_table_facts repr_container tiktoken enc compact
              (map again records) (Enc.key_order_of (map again records))
              (lower (dumps (JDict decoded))) value_min_freq)
    as (M & _ & Kv & T).
  cbv zeta in M, Kv, T. rewrite M.
  rewrite (decode_of_encoded repr_container decoded data' (map again records)
             _ compact Hd' Hr'); [| | | | exact Kv | exact T].
  - unfold decoded. rewrite dict_set_set, K, map_map.
    rewrite (map_ext_in _ (decoded_record repr_container key_order));
      [reflexivity |].
    intros r Ir. unfold decoded_record. f_equal.
    apply map_ext_in. intros k Ik. do 2 f_equal.
    unfold again. now apply decoded_text.
  - intros r' I. apply in_map_iff in I as (r & <- & Ir). split.
    + intros k v I. apply in_map_iff in I as (k' & [= <- <-] & Ik).
      split.
      * apply key_order_In in Ik as (r0 & Ir0 & Ik0).
        apply in_map_iff in Ik0 as ([k0 x] & E & Ikx). cbn in E. subst k0.
        destruct (Hc r0 Ir0) as [P _]. now destruct (P k' x Ikx).
      * cbn [scalar].
        now destruct (text_facts repr_container payload data records compact
                        Hd Hr Hc r k' Ir).
    + intros Ct. destruct (Hc r Ir) as [_ B]. destruct (B Ct) as (k & Hk).
      exists k. unfold again. rewrite decoded_text; [exact Hk | exact N |].
      apply key_order_In. exists r. split; [exact Ir |].
      unfold field_text, dict_get in Hk.
      destruct (dict_find r k) as [x |] eqn:E; [| discriminate].
      now apply (dict_find_keys r k x).
  - destruct Hn as (k & Fk & Nk). exists k. split; [now apply F | exact Nk].
  - assert (P : Enc.passthrough repr_container decoded
                = Enc.passthrough repr_container payload).
    { unfold Enc.passthrough, decoded. cbn [flat_map].
      now rewrite !dict_set_other by discriminate. }
    now rewrite P.
Qed.

Lemma roundtrip_is_stable_witness :
  bind (Enc.encode (fun _ => "") false None
          (dict_set mixed_payload "data"
             (JDict [("sensordata",
                      JList (map (decoded_record (fun _ => "")
                                    (Enc.key_order_of mixed_records))
                                 mixed_records))])) 2 false)
       Dec.decode
  = Ok (dict_set mixed_payload "data"
          (JDict [("sensordata",
                   JList (map (decoded_record (fun _ => "")
                                 (Enc.key_order_of mixed_records))
                              mixed_records))])).
Proof.
  apply (roundtrip_is_stable (fun _ => "") false None mixed_payload
           (JList (map JDict mixed_records)) mixed_records 2 false).
  - reflexivity.
  - reflexivity.
  - exact mixed_records_codable.
  - exists "id". split; [| discriminate].
    exists [("id", JInt 7); ("ok", JBool true); ("note", JStr "a b")].
    split; left; reflexivity.
  - repeat constructor.
Defined.

(** ** Declarations and rows written by hand *)

Lemma pairs_joined_parse (outer inner : ascii) (l : dict string) :
  NoDup (keys l) ->
  (forall k v, In (k, v) l ->
     contains inner k = false /\ contains outer k = false
     /\ contains outer v = false) ->
  Ascii.eqb inner outer = false ->
  l <> [] ->
  Dec.parse_pairs inner
    (split outer
       (join (Enc.chr outer)
          (map (fun kv => fst kv ++ String inner (snd kv)) l)))
  = l.
Proof.
  intros N C D E. rewrite split_join.
  - unfold Dec.parse_pairs.
    refine (parse_pairs_exact inner l [] N _).
    intros k v I. now destruct (C k v I).
  - intros M. apply map_eq_nil in M. contradiction.
  - apply Forall_forall. intros x Ix.
    apply in_map_iff in Ix as ([k v] & <- & I). cbn [fst snd].
    destruct (C k v I) as (_ & Ck & Cv).
    change (String inner v) with (Enc.chr inner ++ v).
    rewrite !contains_append, Ck, Cv. cbn [Enc.chr contains].
    now rewrite D.
Qed.

Lemma pairs_joined_not_empty (outer : string) (inner : ascii)
      (l : dict string) :
  l <> [] ->
  join outer (map (fun kv => fst kv ++ String inner (snd kv)) l) <> "".
Proof.
  destruct l as [| [k v] l]; [contradiction |]. intros _.
  apply (join_not_empty_In outer _ (k ++ String inner v)); [now left |].
  destruct k; discriminate.
Qed.

(** X18.  Declarations read back.  Meta written as [META&] and
    declarations [k=v] joined by ampersands parses to exactly these
    declarations, in their order, when the names are distinct and have
    no equals sign, and neither names nor values have an ampersand; and
    a declared [vmap] of entries [token:value] joined by semicolons
    parses to exactly these entries, when the tokens are distinct and
    have no colon, and neither tokens nor values have a semicolon. *)
Theorem declarations_read_back (decls : dict string) :
  (NoDup (keys decls) ->
   (forall k v, In (k, v) decls ->
      contains "=" k = false /\ contains "&" k = false
      /\ contains "&" v = false) ->
   Dec.parse_meta
     ("META&" ++ join "&" (map (fun kv => fst kv ++ "=" ++ snd kv) decls))
   = decls)
  /\ (forall table : dict string,
         NoDup (keys table) ->
         (forall t v, In (t, v) table ->
            contains ":" t = false /\ contains ";" t = false
            /\ contains ";" v = false) ->
         dict_find decls "vmap"
         = Some (join ";" (map (fun tv => fst tv ++ ":" ++ snd tv) table)) ->
         Dec.parse_vmap decls = table).
Proof.
  split.
  - intros N C. unfold Dec.parse_meta. rewrite drop_append. cbv zeta.
    destruct decls as [| p l] eqn:E; [reflexivity |]. rewrite <- E in *.
    assert (Ne : decls <> []) by (rewrite E; discriminate).
    pose proof (pairs_joined_not_empty "&" "=" decls Ne) as J.
    change (fun kv : string * string => fst kv ++ "=" ++ snd kv)
      with (fun kv : string * string => fst kv ++ String "=" (snd kv)).
    destruct (join "&" _) as [| c r] eqn:Ej; [contradiction |].
    rewrite <- Ej.
    now apply (pairs_joined_parse "&" "=" decls).
  - intros table N C H. unfold Dec.parse_vmap. rewrite H.
    destruct table as [| p l] eqn:E; [reflexivity |]. rewrite <- E in *.
    assert (Ne : table <> []) by (rewrite E; discriminate).
    pose proof (pairs_joined_not_empty ";" ":" table Ne) as J.
    change (fun tv : string * string => fst tv ++ ":" ++ snd tv)
      with (fun kv : string * string => fst kv ++ String ":" (snd kv)).
    destruct (join ";" _) as [| c r] eqn:Ej; [contradiction |].
    rewrite <- Ej.
    now apply (pairs_joined_parse ";" ":" table).
Qed.

Lemma rename_fold (rename : string -> string) (l acc : dict string) :
  NoDup (keys acc ++ map rename (keys l)) ->
  fold_left (fun rec2 kv => dict_set rec2 (rename (fst kv)) (snd kv)) l acc
  = (acc ++ map (fun kv => (rename (fst kv), snd kv)) l)%list.
Proof.
  revert acc. induction l as [| [k v] l IH]; intros acc N; cbn.
  - now rewrite app_nil_r.
  - assert (Fk : ~ In (rename k) (keys acc)).
    { apply NoDup_remove_2 in N. intros I. apply N, in_or_app. now left. }
    rewrite (dict_set_new acc _ _ Fk), IH.
    + now rewrite <- app_assoc.
    + unfold keys in *. rewrite map_app, <- app_assoc. exact N.
Qed.

(** X19.  A row of pairs, with the names of Meta's [map].  A row
    [s1:c1,...,sn:cn] with distinct short names decodes to the record
    that gives each cell, resolved, under the long name that [map=]
    declares for its short name, and under the short name itself when
    [map] declares none (or Meta has no [map]), as long as the long
    names come out distinct. *)
Theorem legacy_row_renamed (key_list : list string)
        (meta_kv vmap renames pairs : dict string) :
  (dict_find meta_kv "map" = None /\ renames = []
   \/ dict_find meta_kv "map"
      = Some (join ";" (map (fun sl => fst sl ++ ":" ++ snd sl) renames))) ->
  NoDup (keys renames) ->
  (forall s l, In (s, l) renames ->
     contains ":" s = false /\ contains ";" s = false
     /\ contains ";" l = false) ->
  pairs <> [] ->
  NoDup (keys pairs) ->
  (forall s c, In (s, c) pairs ->
     contains ":" s = false /\ contains "," s = false
     /\ contains "," c = false) ->
  NoDup (map (fun s => dict_get renames s s) (keys pairs)) ->
  Dec.decode_row key_list meta_kv vmap
    (join "," (map (fun sc => fst sc ++ ":" ++ snd sc) pairs))
  = Some (map (fun sc => (dict_get renames (fst sc) (fst sc),
                          Dec.resolve vmap (snd sc))) pairs).
Proof.
  intros Hm Nr Cr Ne Np Cp Nl.
  set (row := join "," (map (fun sc => fst sc ++ ":" ++ snd sc) pairs)).
  assert (Colon : contains ":" row = true).
  { destruct pairs as [| [s c] rest] eqn:E; [contradiction |].
    apply (contains_join_In ":" _ _ (s ++ ":" ++ c)); [now left |].
    rewrite !contains_append. cbn [contains]. rewrite Ascii.eqb_refl.
    now rewrite orb_true_r. }
  assert (Parsed :
            match dict_find meta_kv "map" with
            | Some m => Dec.parse_pairs ":" (split ";" m) = renames
            | None => renames = []
            end).
  { destruct Hm as [[-> ->] | ->]; [reflexivity |].
    destruct renames as [| p l] eqn:E; [reflexivity |]. rewrite <- E in *.
    apply (pairs_joined_parse ";" ":" renames); try assumption;
      [reflexivity | rewrite E; discriminate]. }
  unfold Dec.decode_row.
  destruct (String.eqb_spec (strip row) "") as [E | _].
  { exfalso. revert E. apply strip_not_blank.
    now apply (contains_space ":"). }
  rewrite Colon. f_equal. unfold Dec.legacy_row.
  assert (Rec : fold_left
                  (fun rec kv =>
                     match split1 ":" kv with
                     | Some (sk, vv) => dict_set rec sk (Dec.resolve vmap vv)
                     | None => rec
                     end) (split Dec.PAIR_SEP row) []
                = map (fun sc => (fst sc, Dec.resolve vmap (snd sc))) pairs).
  { unfold row. change ("," : string) with (Enc.chr Dec.PAIR_SEP).
    rewrite split_join.
    - apply (legacy_pairs_fold (Dec.resolve vmap) pairs []); [exact Np |].
      intros s c I. now destruct (Cp s c I).
    - intros M. apply map_eq_nil in M. contradiction.
    - apply Forall_forall. intros x Ix.
      apply in_map_iff in Ix as ([s c] & <- & I). cbn [fst snd].
      destruct (Cp s c I) as (_ & Cs & Cc).
      unfold Dec.PAIR_SEP. now rewrite !contains_append, Cs, Cc. }
  cbv zeta. rewrite Rec.
  destruct (dict_find meta_kv "map") as [m |].
  - rewrite Parsed.
    rewrite (rename_fold (fun s => dict_get renames s s) _ []).
    + cbn [app]. now rewrite map_map.
    + unfold keys in *. cbn [app map]. rewrite !map_map. cbn [fst].
      now rewrite map_map in Nl.
  - rewrite Parsed. apply map_ext. intros [s c]. reflexivity.
Qed.

Lemma legacy_row_renamed_witness :
  Dec.decode_row [] [("map", "t:temp;u:unit")] [("V1", "21.5")]
    (join "," (map (fun sc => fst sc ++ ":" ++ snd sc)
                   [("t", "V1"); ("u", "C"); ("n", "a\:b")]))
  = Some (map (fun sc => (dict_get [("t", "temp"); ("u", "unit")]
                            (fst sc) (fst sc),
                          Dec.resolve [("V1", "21.5")] (snd sc)))
              [("t", "V1"); ("u", "C"); ("n", "a\:b")]).
Proof.
  apply (legacy_row_renamed [] [("map", "t:temp;u:unit")] [("V1", "21.5")]
           [("t", "temp"); ("u", "unit")]
           [("t", "V1"); ("u", "C"); ("n", "a\:b")]).
  - right. reflexivity.
  - repeat constructor; cbn; intuition discriminate.
  - intros s l [[= <- <-] | [[= <- <-] | []]]; repeat split.
  - discriminate.
  - repeat constructor; cbn; intuition discriminate.
  - intros s c [[= <- <-] | [[= <- <-] | [[= <- <-] | []]]]; repeat split.
  - repeat constructor; cbn; intuition discriminate.
Defined.

(** ** Where the check does not see a word *)

Lemma escape_append (a b : string) :
  Json.escape (a ++ b) = Json.escape a ++ Json.escape b.
Proof.
  induction a as [| c a IH]; [reflexivity |].
  cbn [append Json.escape]. now rewrite IH, append_assoc.
Qed.

Lemma word_char_plain (c : ascii) :
  is_word c = true -> Json.escape_char c = String c "".
Proof.
  intros H.
  destruct c as [[|] [|] [|] [|] [|] [|] [|] [|]];
    vm_compute in H; try discriminate H; reflexivity.
Qed.

Lemma word_plain (w : string) :
  all_chars is_word w = true -> Json.escape w = w.
Proof.
  induction w as [| c w IH]; [reflexivity |].
  cbn [all_chars Json.escape]. intros H. apply andb_prop in H as [Hc Hw].
  now rewrite (word_char_plain c Hc), (IH Hw).
Qed.

(** An escape sequence starts with a backslash: where a character is
    not a word character, neither is the first one [json.dumps] writes
    for it. *)
Lemma head_escape_char (c : ascii) (rest : string) :
  is_word c = false ->
  Enc.wordb (Enc.head (Json.escape_char c ++ rest)) = false.
Proof.
  intros H.
  destruct c as [[|] [|] [|] [|] [|] [|] [|] [|]];
    vm_compute in H; try discriminate H; reflexivity.
Qed.

(** The last character [json.dumps] writes for a character that is not
    a control character is a word character exactly when the character
    is. *)
Lemma last_escape_char (c : ascii) (p : option ascii) :
  is_control c = false ->
  Enc.wordb (Enc.last_or p (Json.escape_char c)) = Enc.wordb (Some c).
Proof.
  intros H.
  destruct c as [[|] [|] [|] [|] [|] [|] [|] [|]];
    vm_compute in H; try discriminate H; reflexivity.
Qed.

Lemma last_escape (a : string) (c : ascii) :
  Enc.last_or None a = Some c -> is_control c = false ->
  forall p, Enc.wordb (Enc.last_or p (Json.escape a)) = Enc.wordb (Some c).
Proof.
  induction a as [| x r IH]; [discriminate |]. intros L N p.
  cbn [Json.escape]. rewrite last_or_append.
  destruct r as [| y r'].
  - cbn in L. injection L as ->. cbn [Json.escape Enc.last_or].
    now apply last_escape_char.
  - now apply IH.
Qed.

Lemma last_or_something (x : ascii) (r : string) :
  Enc.last_or (Some x) r <> None.
Proof.
  revert x. induction r as [| y r IH]; intros x; [discriminate |].
  cbn [Enc.last_or]. apply IH.
Qed.

Lemma last_or_nothing (a : string) : Enc.last_or None a = None -> a = "".
Proof.
  destruct a as [| x r]; [reflexivity |]. cbn [Enc.last_or].
  intros H. now apply last_or_something in H.
Qed.

Lemma all_word_lower (s : string) :
  all_chars is_word (lower s) = all_chars is_word s.
Proof.
  induction s as [| c s IH]; [reflexivity |].
  cbn [lower map_str all_chars]. fold (lower s).
  now rewrite is_word_lower, IH.
Qed.

Lemma quoted_in_text (payload : dict json) (s : string) :
  string_of payload s ->
  exists pre post, dumps (JDict payload) = pre ++ quote s ++ post.
Proof.
  intros [S | (d & S & I)].
  - apply (dumps_subvalue (JStr s)), S.
  - destruct (dumps_subvalue _ _ S) as (p & q & E).
    apply in_map_iff in I as ([k x] & Ek & I). cbn in Ek. subst k.
    set (f := fun kv : string * json =>
                match kv with (k, x) => quote k ++ ": " ++ dumps x end).
    destruct (join_In ", " (map f d) (f (s, x)) (in_map f d (s, x) I))
      as (p1 & q1 & J).
    exists (p ++ "{" ++ p1), (": " ++ dumps x ++ q1 ++ "}" ++ q).
    rewrite E.
    change (dumps (JDict d)) with ("{" ++ join ", " (map f d) ++ "}").
    rewrite J. unfold f. now rewrite !append_assoc.
Qed.

(** A whole word of a string, made of word characters and not right
    after a control character, is a whole word of the JSON text the
    string is quoted in. *)
Lemma word_in_json_text (pre post a w b : string) :
  w <> "" -> all_chars is_word w = true ->
  Enc.boundary (Enc.last_or None a) (Enc.head (w ++ b)) = true ->
  Enc.boundary (Enc.last_or None (a ++ w)) (Enc.head b) = true ->
  (forall c, Enc.last_or None a = Some c -> is_control c = false) ->
  occurs_as_word w (pre ++ quote (a ++ w ++ b) ++ post).
Proof.
  intros N W B1 B2 C.
  assert (Hw : forall x, Enc.wordb (Enc.head (w ++ x)) = true).
  { intros x. destruct w as [| c0 w0]; [contradiction |].
    cbn in W |- *. now apply andb_prop in W as [-> _]. }
  assert (Lw : forall p x, Enc.wordb (Enc.last_or p (x ++ w)) = true).
  { intros p x. rewrite last_or_append. now apply last_or_word. }
  unfold Enc.boundary in *. rewrite Hw in B1. rewrite Lw in B2.
  exists (pre ++ String dquote (Json.escape a)),
         (Json.escape b ++ String dquote post).
  split; [| split].
  - unfold quote. rewrite !escape_append, (word_plain w W).
    rewrite (append_assoc pre). f_equal. cbn [append]. f_equal.
    now rewrite !append_assoc.
  - unfold Enc.boundary. rewrite Hw, last_or_append. cbn [Enc.last_or].
    destruct (Enc.last_or None a) as [c |] eqn:L.
    + rewrite (last_escape a c L (C c eq_refl)).
      now destruct (Enc.wordb (Some c)).
    + apply last_or_nothing in L. subst a. reflexivity.
  - unfold Enc.boundary. rewrite Lw.
    destruct b as [| c b']; [reflexivity |].
    cbn [Json.escape]. rewrite append_assoc.
    rewrite head_escape_char; [reflexivity |].
    cbn [Enc.head Enc.wordb] in B2. now destruct (is_word c).
Qed.

(** X20.  Where a token can still stand as a word.  When a token that
    [_propose_value_tokens] assigns stands, letter case ignored, as a
    whole word in a string of the payload (a string value or a key, at
    any depth), the word comes right after a control character, one
    that [json.dumps] writes as an escape sequence: every other whole
    word of the payload's strings is seen by the check, and its token
    is not assigned. *)
Theorem token_word_follows_control (repr_container : json -> string)
        (payload : dict json) (records : list (dict json))
        (min_freq : Z) (tok s a w b : string) :
  In tok (values (fst (Enc._propose_value_tokens repr_container records
                         (lower (dumps (JDict payload))) min_freq))) ->
  string_of payload s ->
  s = a ++ w ++ b ->
  lower w = lower tok ->
  Enc.boundary (Enc.last_or None a) (Enc.head (w ++ b)) = true ->
  Enc.boundary (Enc.last_or None (a ++ w)) (Enc.head b) = true ->
  exists c, Enc.last_or None a = Some c /\ is_control c = true.
Proof.
  intros I S -> Lw B1 B2.
  destruct (proposals_good repr_container records
              (lower (dumps (JDict payload))) min_freq) as (_ & _ & G).
  destruct (G tok I) as [Tk C].
  pose proof (collision_ci tok (dumps (JDict payload))
                (tokenish_not_empty tok Tk) C) as Nocc.
  destruct (tokenish_lower tok Tk) as (d & _ & El & Wl).
  assert (W : all_chars is_word w = true).
  { now rewrite <- all_word_lower, Lw. }
  assert (N : w <> "").
  { intros ->. rewrite El in Lw. discriminate. }
  destruct (Enc.last_or None a) as [c |] eqn:L.
  - destruct (is_control c) eqn:K; [now exists c |].
    exfalso. apply Nocc. exists w. split; [exact Lw |].
    destruct (quoted_in_text payload _ S) as (pre & post & ->).
    apply word_in_json_text; try assumption.
    + now rewrite L.
    + intros c' E. rewrite L in E. now injection E as <-.
  - exfalso. apply Nocc. exists w. split; [exact Lw |].
    destruct (quoted_in_text payload _ S) as (pre & post & ->).
    apply word_in_json_text; try assumption.
    + now rewrite L.
    + intros c' E. rewrite L in E. discriminate.
Qed.

Lemma token_word_follows_control_witness :
  exists c, Enc.last_or None (String newline "") = Some c
            /\ is_control c = true.
Proof.
  apply (token_word_follows_control (fun _ => "") hidden_word_payload
           long_records 2 "V1" newline_question (String newline "") "v1" "").
  - left. reflexivity.
  - left. eapply sub_dict; [left; reflexivity | constructor].
  - reflexivity.
  - reflexivity.
  - reflexivity.
  - reflexivity.
Defined.
